(** * The render-scale widget of neuroglancer

    A shallow embedding of [src/neuroglancer/widget/render_scale_widget.ts]:
    the pixel-number formatter, the wheel / reset controller, and the draw
    pass [updateView] (totals, height model, hover picking, stacked bars).

    Numbers.  Histogram counters are the entries of a typed array and are
    modelled in [N]; sums of counters and pixel rows live in [Z].  Render-scale
    values, wheel deltas and split points are JavaScript doubles; every double
    is a rational, and the model computes with them in [Q] with exact
    arithmetic (no rounding error, no NaN, no infinities).  The one
    transcendental part, [countToCanvasY], is stated over [R]. *)

From Stdlib Require Import ZArith QArith Qround Qpower Qminmax Qabs.
From Stdlib Require Import List String Ascii Bool Lia Lra Lqa.
From Stdlib Require Import Permutation Sorted DecimalString DecimalN.
From Stdlib Require Import OrdersEx RelationClasses.
From Stdlib Require Import Reals.
Import ListNotations.

Local Open Scope Z_scope.

(** ** JavaScript primitives used by the widget *)

Module JS.

(** The comparison [x < y] of two finite numbers. *)
Definition ltb (x y : Q) : bool := negb (Qle_bool y x).

(** [Math.round]: nearest integer, ties towards plus infinity. *)
Definition Math_round (x : Q) : Z := Qfloor (x + (1 # 2)).

(** [Math.floor]. *)
Definition Math_floor (x : Q) : Z := Qfloor x.

(** [Math.sign] on a finite number. *)
Definition Math_sign (x : Q) : Z :=
  match Qcompare x 0 with
  | Lt => -1
  | Eq => 0
  | Gt => 1
  end.

(** [2 ** z] for an integer exponent. *)
Definition pow2 (z : Z) : Q := Qpower 2 z.

(** [ToInt32], the conversion behind [v | 0] once [v] has been truncated
    to an integer: wrap modulo [2^32] into [[-2^31, 2^31)]. *)
Definition ToInt32 (z : Z) : Z := (z + 2 ^ 31) mod 2 ^ 32 - 2 ^ 31.

(** The integer [e] with [2^e <= x < 2^(e+1)], for [0 < x]. *)
Definition floorLog2 (x : Q) : Z :=
  let e := Z.log2 (Qnum x) - Z.log2 (Zpos (Qden x)) in
  if Qle_bool (pow2 e) x then e else e - 1.

(** [Math.log2 x] with its fraction dropped (rounding towards zero), for
    [0 < x]: the floor of the logarithm from [1] on, its ceiling below. *)
Definition truncLog2 (x : Q) : Z :=
  if Qle_bool 1 x then floorLog2 x else - floorLog2 (/ x).

(** [Math.log2(x) | 0].  For [x <= 0] the logarithm is [NaN] or
    [-Infinity], and both become [0] under [| 0]. *)
Definition log2_or0 (x : Q) : Z :=
  if Qle_bool x 0 then 0 else ToInt32 (truncLog2 x).

(** [String(z)] for an integer-valued number below [1e21]. *)
Definition ZtoString (z : Z) : string := NilZero.string_of_int (Z.to_int z).

(** The last [d] decimal digits of [n], most significant first. *)
Fixpoint fractionDigits (d : nat) (n : Z) : string :=
  match d with
  | O => EmptyString
  | S d' => (fractionDigits d' (n / 10) ++ ZtoString (n mod 10))%string
  end.

(** [x.toFixed(d)]: the integer [n] with [n / 10^d] nearest to [|x|], the
    larger one on a tie, printed with [d] fractional digits. *)
Definition toFixed (x : Q) (d : nat) : string :=
  let scale := 10 ^ Z.of_nat d in
  let n := Qfloor (Qabs x * inject_Z scale + (1 # 2)) in
  ((if ltb x 0 then "-" else "")
     ++ ZtoString (n / scale)
     ++ (match d with O => "" | S _ => "." ++ fractionDigits d n end))%string.

End JS.

(** Modelled from the spec: [numberToStringFixed] of
    [neuroglancer/util/number_to_string] is not among the sources; the
    specification describes its use here as "coeff rounded to 1 decimal" with
    results such as [1.0], which is [toFixed] at the requested precision. *)
Definition numberToStringFixed (x : Q) (digits : nat) : string :=
  JS.toFixed x digits.

(** ** [formatPixelNumber] *)

Definition formatPixelNumber (x : Q) : string :=
  if JS.ltb x 1 || JS.ltb 1024 x then
    let exponent := JS.log2_or0 x in
    let coeff := (x / JS.pow2 exponent)%Q in
    (numberToStringFixed coeff 1 ++ "p" ++ JS.ZtoString exponent)%string
  else
    JS.ZtoString (JS.Math_round x).

(** The formatter as the specification words it, with the exponent taken as
    the floor of the logarithm on both sides of the plain range. *)
Definition formatPixelNumber_spec (x : Q) : string :=
  if Qle_bool 1 x && Qle_bool x 1024 then
    JS.ZtoString (JS.Math_round x)
  else
    let exponent := JS.floorLog2 x in
    let coeff := (x / JS.pow2 exponent)%Q in
    (numberToStringFixed coeff 1 ++ "p" ++ JS.ZtoString exponent)%string.

(** ** The imported constants and the scale transform

    [neuroglancer/render_scale_statistics] is not among the sources: its
    three constants and its two conversion functions are parameters of the
    model.  The origin is an integer exponent, as the literal origin of the
    volume-rendering widget is. *)

Record RenderScaleStatistics : Type := {
  numRenderScaleHistogramBins : nat;
  renderScaleHistogramBinSize : Q;
  renderScaleHistogramOrigin : Z;
  getRenderScaleHistogramOffset : Q -> Z -> Q;
  getRenderScaleFromHistogramOffset : Q -> Z -> Q
}.

(** ** The value controller *)

(** The two widget classes of the file. *)
Inductive WidgetClass : Type :=
| RenderScaleWidget
| VolumeRenderingRenderScaleWidget.

Definition logScaleOrigin (stats : RenderScaleStatistics) (cls : WidgetClass) : Z :=
  match cls with
  | RenderScaleWidget => renderScaleHistogramOrigin stats
  | VolumeRenderingRenderScaleWidget => 1
  end.

Definition unitOfTarget (cls : WidgetClass) : string :=
  match cls with
  | RenderScaleWidget => "px"
  | VolumeRenderingRenderScaleWidget => "samples"
  end.

(** The widget's own mutable state: the tracked target with the default it
    resets to, and the hover probe [(value, offsetY)]. *)
Record WidgetState : Type := {
  target : Q;
  targetDefault : Q;
  hoverTarget : option (Q * Q)
}.

Record WheelEvent : Type := {
  deltaY : Q;
  defaultPrevented : bool
}.

Definition preventDefault (event : WheelEvent) : WheelEvent :=
  {| deltaY := deltaY event; defaultPrevented := true |}.

Definition getWheelMoveValue (cls : WidgetClass) (event : WheelEvent) : Q :=
  match cls with
  | RenderScaleWidget => deltaY event
  | VolumeRenderingRenderScaleWidget => (- deltaY event)%Q
  end.

(** Modelled from the spec: [clampToInterval] of [neuroglancer/util/lerp] is
    not among the sources; the specification uses it as the clamp of a value
    into the interval [[lower, upper]]. *)
Definition clampToInterval (range : Q * Q) (value : Q) : Q :=
  Qmin (Qmax (fst range) value) (snd range).

Definition logScaleMax (stats : RenderScaleStatistics) (cls : WidgetClass) : Z :=
  JS.Math_round
    (inject_Z (logScaleOrigin stats cls)
     + inject_Z (Z.of_nat (numRenderScaleHistogramBins stats))
       * renderScaleHistogramBinSize stats)%Q.

Definition adjustViaWheel (stats : RenderScaleStatistics) (cls : WidgetClass)
    (w : WidgetState) (event : WheelEvent) : WidgetState * WheelEvent :=
  let deltaY := getWheelMoveValue cls event in
  if Qeq_bool deltaY 0 then (w, event)
  else
    let targetValue :=
      clampToInterval
        (JS.pow2 (logScaleOrigin stats cls), JS.pow2 (logScaleMax stats cls - 1))
        (target w * JS.pow2 (JS.Math_sign deltaY))%Q in
    ({| target := targetValue;
        targetDefault := targetDefault w;
        hoverTarget := None |},
     preventDefault event).

Definition reset (w : WidgetState) : WidgetState :=
  {| target := targetDefault w;
     targetDefault := targetDefault w;
     hoverTarget := None |}.

(** The action event that wraps a wheel event for a bound tool. *)
Record ActionEvent : Type := {
  detail : WheelEvent;
  propagationStopped : bool;
  actionDefaultPrevented : bool
}.

(** The [adjust-via-wheel] binding of [renderScaleLayerControl]: the action
    event is stopped and cancelled, then its wheel event is handed on. *)
Definition toolAdjustViaWheel (stats : RenderScaleStatistics) (cls : WidgetClass)
    (w : WidgetState) (event : ActionEvent) : WidgetState * ActionEvent :=
  let '(w', wheel) := adjustViaWheel stats cls w (detail event) in
  (w', {| detail := wheel;
          propagationStopped := true;
          actionDefaultPrevented := true |}).

(** One wheel event with the given [deltaY], seen from the target. *)
Definition adjustOnce (stats : RenderScaleStatistics) (cls : WidgetClass)
    (delta : Q) (w : WidgetState) : WidgetState :=
  fst (adjustViaWheel stats cls w {| deltaY := delta; defaultPrevented := false |}).

(** [n] wheel events with the same [deltaY], one after the other. *)
Fixpoint adjustRepeatedly (stats : RenderScaleStatistics) (cls : WidgetClass)
    (n : nat) (delta : Q) (w : WidgetState) : WidgetState :=
  match n with
  | O => w
  | S n' => adjustOnce stats cls delta (adjustRepeatedly stats cls n' delta w)
  end.

(** ** Results of the draw pass

    The draw pass itself raises nothing.  The model stops where the
    JavaScript would leave the integers: a read of the typed array past its
    end (which yields [undefined]), a registered key without a row, and a
    division whose divisor is zero (which yields [NaN] or an infinity). *)

Inductive fault : Type :=
| ReadOutOfRange
| MissingRow
| DivisionByZero.

Inductive result (A : Type) : Type :=
| Ok (a : A)
| Fault (f : fault).

Arguments Ok {A} a.
Arguments Fault {A} f.

Definition bind {A B : Type} (m : result A) (k : A -> result B) : result B :=
  match m with
  | Ok a => k a
  | Fault f => Fault f
  end.

Notation "x <- m ;; k" := (bind m (fun x => k))
  (at level 61, m at next level, right associativity).

(** A [for] loop over the indices in [l], threading the loop variables. *)
Fixpoint forEach {A S : Type} (l : list A) (body : S -> A -> result S) (s : S)
    : result S :=
  match l with
  | [] => Ok s
  | a :: l' => s' <- body s a ;; forEach l' body s'
  end.

(** ** Sorting

    A stable sort by insertion, for a comparison [leb] that answers
    "not after". *)

Fixpoint insertBy {A : Type} (leb : A -> A -> bool) (a : A) (l : list A) : list A :=
  match l with
  | [] => [a]
  | h :: t => if leb a h then a :: l else h :: insertBy leb a t
  end.

Definition sortBy {A : Type} (leb : A -> A -> bool) (l : list A) : list A :=
  fold_right (insertBy leb) [] l.

(** ** Spatial-scale keys

    The keys of the registry are JavaScript numbers.  What the widget does
    with a key is compare it for identity ([Map.get]) and, inside the
    comparator-less [Array.prototype.sort], convert it to a string. *)

Class ScaleKey (K : Type) : Type := {
  key_eqb : K -> K -> bool;
  key_eqb_eq : forall a b, key_eqb a b = true <-> a = b;
  (** [String(k)] *)
  key_toString : K -> string;
  key_toString_inj : forall a b, key_toString a = key_toString b -> a = b;
  (** the numeric order [a <= b] *)
  key_leb : K -> K -> bool
}.

(** ** The histogram *)

Record RenderScaleHistogram (K : Type) : Type := {
  (** the counters, a typed array of unsigned integers *)
  value : list N;
  (** the [Map] from spatial scale to row, in insertion order *)
  spatialScales : list (K * nat);
  (** [visibility.visible] *)
  visible : bool;
  fakeChunkCount : Z
}.

Arguments value {K} _.
Arguments spatialScales {K} _.
Arguments visible {K} _.
Arguments fakeChunkCount {K} _.

(** A write to the counters issued by the draw pass. *)
Inductive BufferWrite : Type :=
| Fill (v : N).

Definition applyWrite (data : list N) (wr : BufferWrite) : list N :=
  match wr with
  | Fill v => map (fun _ => v) data
  end.

Section Histogram.

Context {K : Type} `{ScaleKey K}.

(** [histogramData[index]] *)
Definition readCount (data : list N) (index : nat) : result Z :=
  match nth_error data index with
  | Some c => Ok (Z.of_N c)
  | None => Fault ReadOutOfRange
  end.

(** [spatialScales.get(spatialScale)!] *)
Fixpoint Map_get (m : list (K * nat)) (spatialScale : K) : result nat :=
  match m with
  | [] => Fault MissingRow
  | (k, row) :: m' =>
      if key_eqb k spatialScale then Ok row else Map_get m' spatialScale
  end.

(** The comparator of [sort()] without an argument: the order of the
    string forms, code unit by code unit. *)
Definition defaultLeb (a b : K) : bool :=
  String.leb (key_toString a) (key_toString b).

(** [array.sort()]: the stable sort by [defaultLeb]. *)
Definition Array_sort (l : list K) : list K := sortBy defaultLeb l.

(** [Array.from(spatialScales.keys())] followed by [sort()]. *)
Definition sortedSpatialScales (h : RenderScaleHistogram K) : list K :=
  Array_sort (map fst (spatialScales h)).

(** The series in the order both inner loops visit them:
    [spatialScaleIndex] runs from [numRows - 1] down to [0]. *)
Definition seriesOrder (h : RenderScaleHistogram K) : list K :=
  rev (sortedSpatialScales h).

(** The order the specification describes: the keys sorted ascending as
    numbers, walked from the last to the first. *)
Definition seriesOrder_spec (h : RenderScaleHistogram K) : list K :=
  rev (sortBy key_leb (map fst (spatialScales h))).

(** [numRows = spatialScales.size] *)
Definition numRows (h : RenderScaleHistogram K) : nat :=
  List.length (spatialScales h).

(** Lines 179-181: a hidden histogram is zeroed in place. *)
Definition hiddenWrites (h : RenderScaleHistogram K) : list BufferWrite :=
  if visible h then [] else [Fill 0%N].

Definition withValue (h : RenderScaleHistogram K) (data : list N)
    : RenderScaleHistogram K :=
  {| value := data;
     spatialScales := spatialScales h;
     visible := visible h;
     fakeChunkCount := fakeChunkCount h |}.

Definition zeroIfHidden (h : RenderScaleHistogram K) : RenderScaleHistogram K :=
  withValue h (fold_left applyWrite (hiddenWrites h) (value h)).

End Histogram.

(** ** What the draw pass puts on the canvas *)

(** The fill style of a rectangle.  The colour of a series is a function of
    its key (the hue), of whether it is the hovered series (the saturation)
    and of the part it fills (the value); the conversion to a colour string
    is left out. *)
Inductive FillStyle (K : Type) : Type :=
| SeriesColor (spatialScale : K) (hovered : bool) (present : bool)
| TargetMarker
| HoverMarker.

Arguments SeriesColor {K} spatialScale hovered present.
Arguments TargetMarker {K}.
Arguments HoverMarker {K}.

(** One [ctx.fillRect(x, y, w, h)] under the current [ctx.fillStyle]. *)
Record FillRect (K : Type) : Type := {
  fillStyle : FillStyle K;
  rectX : Z;
  rectY : Q;
  rectW : Z;
  rectH : Q
}.

Arguments fillStyle {K} _.
Arguments rectX {K} _.
Arguments rectY {K} _.
Arguments rectW {K} _.
Arguments rectH {K} _.

(** The two rectangles of one series in one bin, with the divisor of the
    split point that placed them. *)
Record DrawnBand (K : Type) : Type := {
  divisor : Z;
  notPresentRect : FillRect K;
  presentRect : FillRect K
}.

Arguments divisor {K} _.
Arguments notPresentRect {K} _.
Arguments presentRect {K} _.

Record Totals : Type := {
  maxCount : Z;
  totalPresent : Z;
  totalNotPresent : Z
}.

Record View (K : Type) : Type := {
  legendRenderScale : string;
  (** the series whose label is shown; [None] for the empty label *)
  legendSpatialScale : option K;
  legendChunks : string;
  canvasRects : list (FillRect K)
}.

Arguments legendRenderScale {K} _.
Arguments legendSpatialScale {K} _.
Arguments legendChunks {K} _.
Arguments canvasRects {K} _.

(** The split point of a band (line 287), before the division. *)
Definition splitNumerator (presentCount notPresentCount yStart yEnd : Z) : Z :=
  presentCount * yEnd + notPresentCount * yStart.

(** [numerator / count] *)
Definition divide (numerator count : Z) : result Q :=
  if count =? 0 then Fault DivisionByZero
  else Ok (inject_Z numerator / inject_Z count)%Q.

(** Lines 287-291: the split point of a band and its two rectangles, the
    not-present part above the present part. *)
Definition fillBand {K : Type} (spatialScale : K) (hovered : bool)
    (xStart xEnd yStart yEnd presentCount notPresentCount : Z)
    : result (DrawnBand K) :=
  let count := presentCount + notPresentCount in
  ySplit <- divide (splitNumerator presentCount notPresentCount yStart yEnd) count ;;
  Ok {| divisor := count;
        notPresentRect :=
          {| fillStyle := SeriesColor spatialScale hovered false;
             rectX := xStart;
             rectY := inject_Z yEnd;
             rectW := xEnd - xStart;
             rectH := (ySplit - inject_Z yEnd)%Q |};
        presentRect :=
          {| fillStyle := SeriesColor spatialScale hovered true;
             rectX := xStart;
             rectY := ySplit;
             rectW := xEnd - xStart;
             rectH := (inject_Z yStart - ySplit)%Q |} |}.

Section DrawPass.

Context {K : Type} `{ScaleKey K}.
Variable stats : RenderScaleStatistics.

Local Abbreviation bins := (numRenderScaleHistogramBins stats).

(** Lines 188-203: the tallest bin and the totals over all series. *)
Definition rowBody (data : list N) (bin : nat) (acc : Z * Z * Z) (row : nat)
    : result (Z * Z * Z) :=
  let '(count, totalPresent, totalNotPresent) := acc in
  let index := (row * bins * 2 + bin)%nat in
  presentCount <- readCount data index ;;
  notPresentCount <- readCount data (index + bins)%nat ;;
  Ok (count + (presentCount + notPresentCount),
      totalPresent + presentCount,
      totalNotPresent + notPresentCount).

Definition binBody (h : RenderScaleHistogram K) (acc : Z * Z * Z) (bin : nat)
    : result (Z * Z * Z) :=
  let '(maxCount, totalPresent, totalNotPresent) := acc in
  r <- forEach (seq 0 (numRows h)) (rowBody (value h) bin)
         (0, totalPresent, totalNotPresent) ;;
  let '(count, totalPresent', totalNotPresent') := r in
  Ok (Z.max count maxCount, totalPresent', totalNotPresent').

Definition computeTotals (h : RenderScaleHistogram K) : result Totals :=
  r <- forEach (seq 0 bins) (binBody h) (1, 0, 0) ;;
  let '(maxCount, totalPresent, totalNotPresent) := r in
  Ok {| maxCount := maxCount;
        totalPresent := totalPresent;
        totalNotPresent := totalNotPresent - fakeChunkCount h |}.

(** [canvasY count] stands for [Math.round(countToCanvasY(count))] of the
    draw pass under way. *)
Variable canvasY : Z -> Z.

(** Lines 217-232: the walk down the stack of bin [i]. *)
Fixpoint pickSeries (h : RenderScaleHistogram K) (i : nat) (hoverY : Q)
    (series : list K) (sum : Z) : result (option K) :=
  match series with
  | [] => Ok None
  | spatialScale :: rest =>
      row <- Map_get (spatialScales h) spatialScale ;;
      let index := (2 * row * bins + i)%nat in
      presentCount <- readCount (value h) index ;;
      notPresentCount <- readCount (value h) (index + bins)%nat ;;
      let count := presentCount + notPresentCount in
      if count =? 0 then pickSeries h i hoverY rest sum
      else
        let yStart := canvasY sum in
        let sum' := sum + count in
        let yEnd := canvasY sum' in
        if Qle_bool (inject_Z yEnd) hoverY && Qle_bool hoverY (inject_Z yStart)
        then Ok (Some spatialScale)
        else pickSeries h i hoverY rest sum'
  end.

(** Lines 213-234. *)
Definition findHoverSpatialScale (cls : WidgetClass) (h : RenderScaleHistogram K)
    (hoverValue : option (Q * Q)) : result (option K) :=
  match hoverValue with
  | None => Ok None
  | Some (value, hoverY) =>
      let i := JS.Math_floor
                 (getRenderScaleHistogramOffset stats value (logScaleOrigin stats cls)) in
      if (0 <=? i) && (i <? Z.of_nat bins)
      then pickSeries h (Z.to_nat i) hoverY (seriesOrder h) 0
      else Ok None
  end.

(** Lines 235-253: with a hovered series the totals are taken again, over
    the row of that series alone. *)
Definition hoverRowBody (data : list N) (baseIndex : nat) (acc : Z * Z) (bin : nat)
    : result (Z * Z) :=
  let '(totalPresent, totalNotPresent) := acc in
  let index := (baseIndex + bin)%nat in
  presentCount <- readCount data index ;;
  notPresentCount <- readCount data (index + bins)%nat ;;
  Ok (totalPresent + presentCount, totalNotPresent + notPresentCount).

Definition chunkTotals (h : RenderScaleHistogram K) (t : Totals)
    (hoverSpatialScale : option K) : result (Z * Z) :=
  match hoverSpatialScale with
  | Some spatialScale =>
      row <- Map_get (spatialScales h) spatialScale ;;
      let baseIndex := (2 * row * bins)%nat in
      forEach (seq 0 bins) (hoverRowBody (value h) baseIndex) (0, 0)
  | None => Ok (totalPresent t, totalNotPresent t)
  end.

(** Line 255. *)
Definition chunksText (totals : Z * Z) : string :=
  let '(totalPresent, totalNotPresent) := totals in
  (JS.ZtoString totalPresent ++ "/"
     ++ JS.ZtoString (totalPresent + totalNotPresent))%string.

Variable width height : Z.

Definition binToCanvasX (bin : Q) : Q :=
  (bin * inject_Z width / inject_Z (Z.of_nat bins))%Q.

(** Lines 274-292: the stack of bin [i]. *)
Fixpoint drawSeries (h : RenderScaleHistogram K) (hoverSpatialScale : option K)
    (i : nat) (series : list K) (sum : Z) : result (list (DrawnBand K)) :=
  match series with
  | [] => Ok []
  | spatialScale :: rest =>
      row <- Map_get (spatialScales h) spatialScale ;;
      let index := (row * bins * 2 + i)%nat in
      presentCount <- readCount (value h) index ;;
      notPresentCount <- readCount (value h) (index + bins)%nat ;;
      let count := presentCount + notPresentCount in
      if count =? 0 then drawSeries h hoverSpatialScale i rest sum
      else
        let xStart := JS.Math_round (binToCanvasX (inject_Z (Z.of_nat i))) in
        let xEnd := JS.Math_round (binToCanvasX (inject_Z (Z.of_nat i + 1))) in
        let yStart := canvasY sum in
        let sum' := sum + count in
        let yEnd := canvasY sum' in
        let hovered :=
          match hoverSpatialScale with
          | Some s => key_eqb spatialScale s
          | None => false
          end in
        band <- fillBand spatialScale hovered xStart xEnd yStart yEnd
                  presentCount notPresentCount ;;
        bands <- drawSeries h hoverSpatialScale i rest sum' ;;
        Ok (band :: bands)
  end.

(** Lines 272-293. *)
Definition drawBars (h : RenderScaleHistogram K) (hoverSpatialScale : option K)
    : result (list (DrawnBand K)) :=
  forEach (seq 0 bins)
    (fun drawn i =>
       bands <- drawSeries h hoverSpatialScale i (seriesOrder h) 0 ;;
       Ok (drawn ++ bands))
    [].

(** Lines 295-309: the one-pixel markers of the target and of the probe. *)
Definition marker (cls : WidgetClass) (style : FillStyle K) (value : Q) : FillRect K :=
  let startOffset :=
    binToCanvasX (getRenderScaleHistogramOffset stats value (logScaleOrigin stats cls)) in
  {| fillStyle := style;
     rectX := JS.Math_floor startOffset;
     rectY := 0;
     rectW := 1;
     rectH := inject_Z height |}.

Definition bandRects (b : DrawnBand K) : list (FillRect K) :=
  [notPresentRect b; presentRect b].

End DrawPass.

(** ** The height model

    [countToCanvasY] takes a logarithm; it is stated over the reals, and
    [Math.round] of it gives the integer pixel rows of the draw pass. *)

Module HeightModel.

Local Open Scope R_scope.

(** Line 207, with [maxBarHeight = height]. *)
Definition yScale (height maxCount : Z) : R :=
  IZR height / ln (1 + IZR maxCount).

(** Lines 209-211. *)
Definition countToCanvasY (height maxCount count : Z) : R :=
  IZR height - ln (1 + IZR count) * yScale height maxCount.

(** [Math.round] of a real. *)
Definition Math_round (x : R) : Z := Zfloor (x + / 2).

Definition roundedCanvasY (height maxCount count : Z) : Z :=
  Math_round (countToCanvasY height maxCount count).

End HeightModel.

(** ** [updateView] *)

Section UpdateView.

Context {K : Type} `{ScaleKey K}.
Variable stats : RenderScaleStatistics.
Variable cls : WidgetClass.

(** [heightModel height maxCount count] stands for
    [Math.round(countToCanvasY(count))]; the widget's own is
    [HeightModel.roundedCanvasY]. *)
Variable heightModel : Z -> Z -> Z -> Z.

Definition probedValue (w : WidgetState) : Q :=
  match hoverTarget w with
  | None => target w
  | Some (value, _) => value
  end.

Definition drawView (w : WidgetState) (h : RenderScaleHistogram K)
    (width height : Z) : result (View K) :=
  t <- computeTotals stats h ;;
  let canvasY := heightModel height (maxCount t) in
  hoverSpatialScale <- findHoverSpatialScale stats canvasY cls h (hoverTarget w) ;;
  totals <- chunkTotals stats h t hoverSpatialScale ;;
  bands <- drawBars stats canvasY width h hoverSpatialScale ;;
  Ok {| legendRenderScale :=
          (formatPixelNumber (probedValue w) ++ " " ++ unitOfTarget cls)%string;
        legendSpatialScale := hoverSpatialScale;
        legendChunks := chunksText totals;
        canvasRects :=
          flat_map bandRects bands
            ++ [marker stats width height cls TargetMarker (target w)]
            ++ match hoverTarget w with
               | Some (value, _) =>
                   [marker stats width height cls HoverMarker value]
               | None => []
               end |}.

(** The draw pass: the histogram as it leaves it, the writes it issued to
    the counters, and the view it produced. *)
Definition updateView (w : WidgetState) (h : RenderScaleHistogram K)
    (width height : Z) : RenderScaleHistogram K * list BufferWrite * result (View K) :=
  let h' := zeroIfHidden h in
  (h', hiddenWrites h, drawView w h' width height).

End UpdateView.

(** The widget with its own height model. *)
Definition updateViewOfWidget {K : Type} `{ScaleKey K}
    (stats : RenderScaleStatistics) (cls : WidgetClass) :=
  updateView stats cls HeightModel.roundedCanvasY.

(** ** Integer spatial scales

    For a non-negative integer below [1e21] the string form of a number is
    its decimal numeral. *)

Definition N_toString (n : N) : string := NilZero.string_of_uint (N.to_uint n).

Lemma N_toString_inj (a b : N) : N_toString a = N_toString b -> a = b.
Proof.
  unfold N_toString. intros E.
  apply Unsigned.to_uint_inj.
  assert (Hn : forall n, N.to_uint n <> Decimal.Nil).
  { intros [|p]; cbn; [discriminate|].
    intros Hp. pose proof (DecimalPos.Unsigned.to_uint_nonnil p). contradiction. }
  pose proof (NilZero.usu _ (Hn a)) as Ea.
  pose proof (NilZero.usu _ (Hn b)) as Eb.
  rewrite E in Ea. congruence.
Qed.

#[export] Instance ScaleKey_N : ScaleKey N := {|
  key_eqb := N.eqb;
  key_eqb_eq := N.eqb_eq;
  key_toString := N_toString;
  key_toString_inj := N_toString_inj;
  key_leb := N.leb
|}.

(** ** Reference definitions

    What the loops of the draw pass are compared with. *)

(** The counter at [index], read as [0] past the end of the array. *)
Definition countAt (data : list N) (index : nat) : Z := Z.of_N (nth index data 0%N).

Definition sumZ (l : list Z) : Z := fold_right Z.add 0 l.

(** "Not after", in the order of [sort()] without a comparator. *)
Definition defaultLe {K : Type} `{ScaleKey K} (a b : K) : Prop :=
  defaultLeb a b = true.

Section Reference.

Context {K : Type} `{ScaleKey K}.
Variable stats : RenderScaleStatistics.

Local Abbreviation bins := (numRenderScaleHistogramBins stats).

(** The layout of the counters: row [row] holds [bins] present counters
    followed by [bins] not-present counters. *)
Definition presentAt (data : list N) (row bin : nat) : Z :=
  countAt data (row * bins * 2 + bin).

Definition notPresentAt (data : list N) (row bin : nat) : Z :=
  countAt data (row * bins * 2 + bin + bins).

(** The count of a bin, summed across all rows. *)
Definition binTotal (h : RenderScaleHistogram K) (bin : nat) : Z :=
  sumZ (map (fun row => presentAt (value h) row bin + notPresentAt (value h) row bin)
          (seq 0 (numRows h))).

(** [max(1, max over bins of binTotal)] *)
Definition maxCount_spec (h : RenderScaleHistogram K) : Z :=
  fold_right Z.max 1 (map (binTotal h) (seq 0 bins)).

Definition binPresent (h : RenderScaleHistogram K) (bin : nat) : Z :=
  sumZ (map (fun row => presentAt (value h) row bin) (seq 0 (numRows h))).

Definition binNotPresent (h : RenderScaleHistogram K) (bin : nat) : Z :=
  sumZ (map (fun row => notPresentAt (value h) row bin) (seq 0 (numRows h))).

(** The present and not-present counters of the whole histogram. *)
Definition allPresent (h : RenderScaleHistogram K) : Z :=
  sumZ (map (binPresent h) (seq 0 bins)).

Definition allNotPresent (h : RenderScaleHistogram K) : Z :=
  sumZ (map (binNotPresent h) (seq 0 bins)).

(** The present and not-present counters of one row. *)
Definition rowPresent (h : RenderScaleHistogram K) (row : nat) : Z :=
  sumZ (map (presentAt (value h) row) (seq 0 bins)).

Definition rowNotPresent (h : RenderScaleHistogram K) (row : nat) : Z :=
  sumZ (map (notPresentAt (value h) row) (seq 0 bins)).

(** The counters cover every row of the registry, and every key has one
    of these rows. *)
Definition wellFormed (h : RenderScaleHistogram K) : Prop :=
  (2 * bins * numRows h <= List.length (value h))%nat
  /\ Forall (fun entry => (snd entry < numRows h)%nat) (spatialScales h).

End Reference.

(** A non-empty band of the stack of one bin: its series, its two
    counters, and the pixel rows of its bottom ([bandStart]) and of its top
    ([bandEnd]). *)
Record Band (K : Type) : Type := {
  bandSeries : K;
  bandPresent : Z;
  bandNotPresent : Z;
  bandStart : Z;
  bandEnd : Z
}.

Arguments bandSeries {K} _.
Arguments bandPresent {K} _.
Arguments bandNotPresent {K} _.
Arguments bandStart {K} _.
Arguments bandEnd {K} _.

Section Stack.

Context {K : Type} `{ScaleKey K}.
Variable stats : RenderScaleStatistics.
Variable canvasY : Z -> Z.

Local Abbreviation bins := (numRenderScaleHistogramBins stats).

(** The two counters of every series in [series] at bin [i]. *)
Fixpoint seriesCounts (h : RenderScaleHistogram K) (i : nat) (series : list K)
    : result (list (K * Z * Z)) :=
  match series with
  | [] => Ok []
  | spatialScale :: rest =>
      row <- Map_get (spatialScales h) spatialScale ;;
      presentCount <- readCount (value h) (row * bins * 2 + i)%nat ;;
      notPresentCount <- readCount (value h) (row * bins * 2 + i + bins)%nat ;;
      counts <- seriesCounts h i rest ;;
      Ok ((spatialScale, presentCount, notPresentCount) :: counts)
  end.

(** The stack over a running [sum]: series without a count take no room,
    every other series lies on top of the ones before it. *)
Fixpoint stackBands (counts : list (K * Z * Z)) (sum : Z) : list (Band K) :=
  match counts with
  | [] => []
  | (spatialScale, presentCount, notPresentCount) :: rest =>
      let count := presentCount + notPresentCount in
      if count =? 0 then stackBands rest sum
      else
        {| bandSeries := spatialScale;
           bandPresent := presentCount;
           bandNotPresent := notPresentCount;
           bandStart := canvasY sum;
           bandEnd := canvasY (sum + count) |}
          :: stackBands rest (sum + count)
  end.

(** [yEnd <= y <= yStart] *)
Definition bandContains (y : Q) (b : Band K) : bool :=
  Qle_bool (inject_Z (bandEnd b)) y && Qle_bool y (inject_Z (bandStart b)).

(** The series of the first band, in stacking order, that contains [y]. *)
Definition firstBandAt (y : Q) (bands : list (Band K)) : option K :=
  option_map bandSeries (find (bandContains y) bands).

Variable width : Z.

(** The two rectangles the renderer draws for a band of bin [i]. *)
Definition drawnOf (hoverSpatialScale : option K) (i : nat) (b : Band K)
    : DrawnBand K :=
  let count := bandPresent b + bandNotPresent b in
  let xStart := JS.Math_round (binToCanvasX stats width (inject_Z (Z.of_nat i))) in
  let xEnd := JS.Math_round (binToCanvasX stats width (inject_Z (Z.of_nat i + 1))) in
  let ySplit :=
    (inject_Z (splitNumerator (bandPresent b) (bandNotPresent b)
                 (bandStart b) (bandEnd b))
     / inject_Z count)%Q in
  let hovered :=
    match hoverSpatialScale with
    | Some s => key_eqb (bandSeries b) s
    | None => false
    end in
  {| divisor := count;
     notPresentRect :=
       {| fillStyle := SeriesColor (bandSeries b) hovered false;
          rectX := xStart;
          rectY := inject_Z (bandEnd b);
          rectW := xEnd - xStart;
          rectH := (ySplit - inject_Z (bandEnd b))%Q |};
     presentRect :=
       {| fillStyle := SeriesColor (bandSeries b) hovered true;
          rectX := xStart;
          rectY := ySplit;
          rectW := xEnd - xStart;
          rectH := (inject_Z (bandStart b) - ySplit)%Q |} |}.

End Stack.

(** ** Pointer events and the remaining actions *)

(** The part of a mouse event the widget reads. *)
Record MouseEvent : Type := {
  offsetX : Q;
  offsetY : Q
}.

(** [numerator / denominator] for an integer denominator such as
    [canvas.width]. *)
Definition divideBy (numerator : Q) (denominator : Z) : result Q :=
  if denominator =? 0 then Fault DivisionByZero
  else Ok (numerator / inject_Z denominator)%Q.

(** Lines 113-116, with [canvasWidth] for [canvas.width]. *)
Definition getTargetValue (stats : RenderScaleStatistics) (cls : WidgetClass)
    (canvasWidth : Z) (event : MouseEvent) : result Q :=
  fraction <- divideBy (offsetX event) canvasWidth ;;
  let position :=
    (fraction * inject_Z (Z.of_nat (numRenderScaleHistogramBins stats)))%Q in
  Ok (getRenderScaleFromHistogramOffset stats position (logScaleOrigin stats cls)).

(** Lines 117-119: the [pointermove] listener. *)
Definition pointerMove (stats : RenderScaleStatistics) (cls : WidgetClass)
    (canvasWidth : Z) (w : WidgetState) (event : MouseEvent) : result WidgetState :=
  value <- getTargetValue stats cls canvasWidth event ;;
  Ok {| target := target w;
        targetDefault := targetDefault w;
        hoverTarget := Some (value, offsetY event) |}.

(** Lines 121-123: the [pointerleave] listener. *)
Definition pointerLeave (w : WidgetState) : WidgetState :=
  {| target := target w;
     targetDefault := targetDefault w;
     hoverTarget := None |}.

(** Lines 125-127: the [set] action. *)
Definition setAction (stats : RenderScaleStatistics) (cls : WidgetClass)
    (canvasWidth : Z) (w : WidgetState) (event : MouseEvent) : result WidgetState :=
  value <- getTargetValue stats cls canvasWidth event ;;
  Ok {| target := value;
        targetDefault := targetDefault w;
        hoverTarget := hoverTarget w |}.

(** What the listeners of the canvas react to. *)
Inductive Action : Type :=
| PointerMove (event : MouseEvent)
| PointerLeave
| SetTarget (event : MouseEvent)
| Wheel (event : WheelEvent)
| Reset.

Definition perform (stats : RenderScaleStatistics) (cls : WidgetClass)
    (canvasWidth : Z) (w : WidgetState) (action : Action) : result WidgetState :=
  match action with
  | PointerMove event => pointerMove stats cls canvasWidth w event
  | PointerLeave => Ok (pointerLeave w)
  | SetTarget event => setAction stats cls canvasWidth w event
  | Wheel event => Ok (fst (adjustViaWheel stats cls w event))
  | Reset => Ok (reset w)
  end.

(** The actions of [actions], one after the other. *)
Definition performAll (stats : RenderScaleStatistics) (cls : WidgetClass)
    (canvasWidth : Z) (actions : list Action) (w : WidgetState) : result WidgetState :=
  forEach actions (perform stats cls canvasWidth) w.

(** Wheel events alone, one after the other. *)
Definition adjustAll (stats : RenderScaleStatistics) (cls : WidgetClass)
    (events : list WheelEvent) (w : WidgetState) : WidgetState :=
  fold_left (fun w' event => fst (adjustViaWheel stats cls w' event)) events w.

(** The histogram with its visibility flag set by its owner. *)
Definition withVisible {K : Type} (h : RenderScaleHistogram K) (shown : bool)
    : RenderScaleHistogram K :=
  {| value := value h;
     spatialScales := spatialScales h;
     visible := shown;
     fakeChunkCount := fakeChunkCount h |}.

(** Every key is registered once, and the rows of the registry are the
    rows [0 .. numRows - 1], each given to one key. *)
Definition registryBijective {K : Type} `{ScaleKey K} (h : RenderScaleHistogram K)
    : Prop :=
  NoDup (map fst (spatialScales h))
  /\ Permutation (map snd (spatialScales h)) (seq 0 (numRows h)).

(** A rectangle lies between the rows [0] and [height]. *)
Definition withinRows {K : Type} (height : Z) (r : FillRect K) : Prop :=
  (0 <= rectY r)%Q /\ (0 <= rectH r)%Q /\ (rectY r + rectH r <= inject_Z height)%Q.

(** A rectangle lies between the columns [0] and [width]. *)
Definition withinColumns {K : Type} (width : Z) (r : FillRect K) : Prop :=
  0 <= rectX r /\ 0 <= rectW r /\ rectX r + rectW r <= width.

(** The count of the series of key [spatialScale] at bin [i], read through
    the registry. *)
Definition keyCell {K : Type} `{ScaleKey K} (stats : RenderScaleStatistics)
    (h : RenderScaleHistogram K) (i : nat) (spatialScale : K) : Z :=
  match Map_get (spatialScales h) spatialScale with
  | Ok row => presentAt stats (value h) row i + notPresentAt stats (value h) row i
  | Fault _ => 0
  end.

(** The left edge of the column of bin [i]. *)
Definition columnEdge (stats : RenderScaleStatistics) (width : Z) (i : nat) : Z :=
  JS.Math_round (binToCanvasX stats width (inject_Z (Z.of_nat i))).

(** The view of a histogram whose counters are all zero: the two markers
    and a legend that counts no chunk but the fake ones, taken off. *)
Definition emptyView {K : Type} (stats : RenderScaleStatistics) (cls : WidgetClass)
    (w : WidgetState) (fake width height : Z) : View K :=
  {| legendRenderScale :=
       (formatPixelNumber (probedValue w) ++ " " ++ unitOfTarget cls)%string;
     legendSpatialScale := None;
     legendChunks := chunksText (0, - fake);
     canvasRects :=
       marker stats width height cls TargetMarker (target w)
         :: match hoverTarget w with
            | Some (value, _) => [marker stats width height cls HoverMarker value]
            | None => []
            end |}.
(** * Properties *)

(** ** Arithmetic of the primitives *)

Lemma pow2_pos (z : Z) : (0 < JS.pow2 z)%Q.
Proof. unfold JS.pow2. apply Qpower_0_lt. reflexivity. Qed.



Lemma pow2_lt (a b : Z) : a < b -> (JS.pow2 a < JS.pow2 b)%Q.
Proof.
  intros Hab. unfold JS.pow2. apply Qpower_lt_compat_l; [assumption|reflexivity].
Qed.

Lemma pow2_le (a b : Z) : a <= b -> (JS.pow2 a <= JS.pow2 b)%Q.
Proof.
  intros Hab. destruct (Z.eq_dec a b) as [->|Hne].
  - apply Qle_refl.
  - apply Qlt_le_weak, pow2_lt. lia.
Qed.


Lemma Math_sign_zero (x : Q) : JS.Math_sign x = 0 <-> (x == 0)%Q.
Proof.
  unfold JS.Math_sign. destruct (Qcompare_spec x 0) as [E|E|E].
  - tauto.
  - split; [discriminate|]. intros E0. rewrite E0 in E.
    exfalso. revert E. apply Qlt_irrefl.
  - split; [discriminate|]. intros E0. rewrite E0 in E.
    exfalso. revert E. apply Qlt_irrefl.
Qed.

Lemma Math_sign_pos (x : Q) : (0 < x)%Q -> JS.Math_sign x = 1.
Proof.
  intros Hx. unfold JS.Math_sign.
  destruct (Qcompare_spec x 0) as [E|E|E]; [|exfalso; lra|reflexivity].
  rewrite E in Hx. exfalso. revert Hx. apply Qlt_irrefl.
Qed.

Lemma Math_sign_neg (x : Q) : (x < 0)%Q -> JS.Math_sign x = -1.
Proof.
  intros Hx. unfold JS.Math_sign.
  destruct (Qcompare_spec x 0) as [E|E|E]; [|reflexivity|exfalso; lra].
  rewrite E in Hx. exfalso. revert Hx. apply Qlt_irrefl.
Qed.

Lemma clampToInterval_bounds (lower upper value : Q) :
  (lower <= upper)%Q ->
  (lower <= clampToInterval (lower, upper) value <= upper)%Q.
Proof.
  intros Hlu. unfold clampToInterval; cbn [fst snd]. split.
  - apply Q.min_glb; [apply Q.le_max_l | assumption].
  - apply Q.le_min_r.
Qed.

Lemma clampToInterval_upper (range : Q * Q) (value : Q) :
  (clampToInterval range value <= snd range)%Q.
Proof. unfold clampToInterval. apply Q.le_min_r. Qed.

(** ** The wheel action *)

Section WheelFacts.

Variable stats : RenderScaleStatistics.
Variable cls : WidgetClass.

Lemma adjustViaWheel_zero (w : WidgetState) (event : WheelEvent) :
  (getWheelMoveValue cls event == 0)%Q ->
  adjustViaWheel stats cls w event = (w, event).
Proof.
  intros Hz. unfold adjustViaWheel.
  apply Qeq_bool_iff in Hz. now rewrite Hz.
Qed.

Lemma adjustViaWheel_nonzero (w : WidgetState) (event : WheelEvent) :
  ~ (getWheelMoveValue cls event == 0)%Q ->
  adjustViaWheel stats cls w event =
    ({| target :=
          clampToInterval
            (JS.pow2 (logScaleOrigin stats cls),
             JS.pow2 (logScaleMax stats cls - 1))
            (target w * JS.pow2 (JS.Math_sign (getWheelMoveValue cls event)))%Q;
        targetDefault := targetDefault w;
        hoverTarget := None |},
     preventDefault event).
Proof.
  intros Hnz. unfold adjustViaWheel.
  destruct (Qeq_bool (getWheelMoveValue cls event) 0) eqn:E; [|reflexivity].
  apply Qeq_bool_iff in E. contradiction.
Qed.

End WheelFacts.

(** C9: for every wheel event whose delta, as the widget class reads it, is
    zero, [adjustViaWheel] returns the widget state and the event as they
    were: target and hover probe unchanged, [preventDefault] not called;
    the tool binding hands the wheel event on untouched as well.  For every
    other delta the hover probe is cleared (and the event cancelled). *)
Theorem adjustViaWheel_zero_delta_noop
    (stats : RenderScaleStatistics) (cls : WidgetClass)
    (w : WidgetState) (event : WheelEvent) :
  ((getWheelMoveValue cls event == 0)%Q ->
     adjustViaWheel stats cls w event = (w, event)
     /\ target (fst (adjustViaWheel stats cls w event)) = target w
     /\ hoverTarget (fst (adjustViaWheel stats cls w event)) = hoverTarget w
     /\ defaultPrevented (snd (adjustViaWheel stats cls w event))
        = defaultPrevented event
     /\ (forall stopped cancelled,
           let action := {| detail := event;
                            propagationStopped := stopped;
                            actionDefaultPrevented := cancelled |} in
           fst (toolAdjustViaWheel stats cls w action) = w
           /\ detail (snd (toolAdjustViaWheel stats cls w action)) = event))
  /\ (~ (getWheelMoveValue cls event == 0)%Q ->
       hoverTarget (fst (adjustViaWheel stats cls w event)) = None
       /\ defaultPrevented (snd (adjustViaWheel stats cls w event)) = true).
Proof.
  split.
  - intros Hz. pose proof (adjustViaWheel_zero stats cls w event Hz) as E.
    rewrite E. cbn [fst snd]. repeat split; try reflexivity.
    + unfold toolAdjustViaWheel; cbn [detail]. now rewrite E.
    + unfold toolAdjustViaWheel; cbn [detail]. now rewrite E.
  - intros Hnz. rewrite (adjustViaWheel_nonzero stats cls w event Hnz).
    cbn. split; reflexivity.
Qed.

Lemma adjustViaWheel_zero_delta_noop_witness :
  let stats := {| numRenderScaleHistogramBins := 10;
                  renderScaleHistogramBinSize := 1;
                  renderScaleHistogramOrigin := 0;
                  getRenderScaleHistogramOffset := fun v _ => v;
                  getRenderScaleFromHistogramOffset := fun v _ => v |} in
  let w := {| target := 4; targetDefault := 1; hoverTarget := Some (3, 20)%Q |} in
  let still := {| deltaY := 0; defaultPrevented := false |} in
  let down := {| deltaY := -(3); defaultPrevented := false |} in
  adjustViaWheel stats VolumeRenderingRenderScaleWidget w still = (w, still)
  /\ hoverTarget (fst (adjustViaWheel stats VolumeRenderingRenderScaleWidget w down))
     = None.
Proof.
  intros stats w still down. split.
  - apply (adjustViaWheel_zero_delta_noop stats VolumeRenderingRenderScaleWidget
             w still).
    reflexivity.
  - apply (adjustViaWheel_zero_delta_noop stats VolumeRenderingRenderScaleWidget
             w down).
    intros E. discriminate E.
Defined.

(** ** The wheel action clamps *)

Ltac qminmax :=
  repeat match goal with
  | |- context [Qmax ?a ?b] =>
      let H := fresh "Hmax" in
      let x := fresh "m" in
      let E := fresh "E" in
      destruct (Q.max_spec a b) as [[? H]|[? H]];
      remember (Qmax a b) as x eqn:E; clear E
  | |- context [Qmin ?a ?b] =>
      let H := fresh "Hmin" in
      let x := fresh "m" in
      let E := fresh "E" in
      destruct (Q.min_spec a b) as [[? H]|[? H]];
      remember (Qmin a b) as x eqn:E; clear E
  end.

Section WheelClamp.

Variable stats : RenderScaleStatistics.
Hypothesis bins10 : numRenderScaleHistogramBins stats = 10%nat.
Hypothesis binSize1 : (renderScaleHistogramBinSize stats == 1)%Q.
Hypothesis origin0 : renderScaleHistogramOrigin stats = 0.

Lemma logScaleMax_10 : logScaleMax stats RenderScaleWidget = 10.
Proof.
  unfold logScaleMax, logScaleOrigin, JS.Math_round.
  rewrite bins10, origin0, binSize1. reflexivity.
Qed.

Lemma bounds_1_512 :
  (JS.pow2 (logScaleOrigin stats RenderScaleWidget) == 1)%Q
  /\ (JS.pow2 (logScaleMax stats RenderScaleWidget - 1) == 512)%Q.
Proof.
  rewrite logScaleMax_10. unfold logScaleOrigin. rewrite origin0.
  split; reflexivity.
Qed.

Local Abbreviation step := (adjustOnce stats RenderScaleWidget).

Lemma step_increase (delta : Q) (w : WidgetState) :
  (0 < delta)%Q ->
  (target (step delta w) == Qmin (Qmax 1 (target w * 2)) 512)%Q.
Proof.
  intros Hd. unfold adjustOnce.
  rewrite adjustViaWheel_nonzero by (cbn; lra).
  cbn [fst target getWheelMoveValue deltaY]. rewrite (Math_sign_pos _ Hd).
  unfold clampToInterval; cbn [fst snd].
  destruct bounds_1_512 as [E1 E2]. rewrite E1, E2.
  change (JS.pow2 1) with (2 # 1)%Q. reflexivity.
Qed.

Lemma step_decrease (delta : Q) (w : WidgetState) :
  (delta < 0)%Q ->
  (target (step delta w) == Qmin (Qmax 1 (target w / 2)) 512)%Q.
Proof.
  intros Hd. unfold adjustOnce.
  rewrite adjustViaWheel_nonzero by (cbn; lra).
  cbn [fst target getWheelMoveValue deltaY]. rewrite (Math_sign_neg _ Hd).
  unfold clampToInterval; cbn [fst snd].
  destruct bounds_1_512 as [E1 E2]. rewrite E1, E2.
  change (JS.pow2 (-1)) with (1 # 2)%Q. apply Q.min_compat; [|reflexivity].
  apply Q.max_compat; [reflexivity|]. field.
Qed.

Lemma step_doubles (delta : Q) (w : WidgetState) (t : Q) :
  (0 < delta)%Q -> (target w == t)%Q -> (1 <= 2 * t <= 512)%Q ->
  (target (step delta w) == 2 * t)%Q.
Proof.
  intros Hd Ht Hr. rewrite (step_increase _ _ Hd). rewrite Ht.
  qminmax; lra.
Qed.

Lemma step_saturated (delta : Q) (w : WidgetState) :
  (0 < delta)%Q -> (target w == 512)%Q -> (target (step delta w) == 512)%Q.
Proof.
  intros Hd Ht. rewrite (step_increase _ _ Hd). rewrite Ht.
  qminmax; lra.
Qed.

Lemma adjustRepeatedly_S (n : nat) (delta : Q) (w : WidgetState) :
  adjustRepeatedly stats RenderScaleWidget (S n) delta w
  = step delta (adjustRepeatedly stats RenderScaleWidget n delta w).
Proof. reflexivity. Qed.

Lemma increases_from_4 (delta : Q) (w : WidgetState) :
  (0 < delta)%Q -> (target w == 4)%Q ->
  (target (adjustRepeatedly stats RenderScaleWidget 1 delta w) == 8)%Q
  /\ (target (adjustRepeatedly stats RenderScaleWidget 2 delta w) == 16)%Q
  /\ (target (adjustRepeatedly stats RenderScaleWidget 7 delta w) == 512)%Q.
Proof.
  intros Hd H0.
  assert (H1 := step_doubles delta _ 4 Hd H0 ltac:(lra)).
  assert (H2 := step_doubles delta _ _ Hd H1 ltac:(lra)).
  assert (H3 := step_doubles delta _ _ Hd H2 ltac:(lra)).
  assert (H4 := step_doubles delta _ _ Hd H3 ltac:(lra)).
  assert (H5 := step_doubles delta _ _ Hd H4 ltac:(lra)).
  assert (H6 := step_doubles delta _ _ Hd H5 ltac:(lra)).
  assert (H7 := step_doubles delta _ _ Hd H6 ltac:(lra)).
  repeat split.
  - rewrite adjustRepeatedly_S. cbn [adjustRepeatedly]. rewrite H1. lra.
  - rewrite !adjustRepeatedly_S. cbn [adjustRepeatedly]. rewrite H2. lra.
  - rewrite !adjustRepeatedly_S. cbn [adjustRepeatedly]. rewrite H7. lra.
Qed.

Lemma increases_saturate (delta : Q) (w : WidgetState) (n : nat) :
  (0 < delta)%Q -> (target w == 4)%Q -> (7 <= n)%nat ->
  (target (adjustRepeatedly stats RenderScaleWidget n delta w) == 512)%Q.
Proof.
  intros Hd H0 Hn. induction Hn as [|n Hn IH].
  - apply (increases_from_4 delta w Hd H0).
  - rewrite adjustRepeatedly_S. now apply step_saturated.
Qed.

Lemma increases_bounded (delta : Q) (w : WidgetState) (n : nat) :
  (0 < delta)%Q -> (target w <= 512)%Q ->
  (target (adjustRepeatedly stats RenderScaleWidget n delta w) <= 512)%Q.
Proof.
  intros Hd H0. destruct n as [|n]; [exact H0|].
  rewrite adjustRepeatedly_S, (step_increase _ _ Hd). apply Q.le_min_r.
Qed.

Lemma decreases_bounded (delta : Q) (w : WidgetState) (n : nat) :
  (delta < 0)%Q -> (1 <= n)%nat ->
  (1 <= target (adjustRepeatedly stats RenderScaleWidget n delta w))%Q.
Proof.
  intros Hd Hn. destruct n as [|n]; [lia|].
  rewrite adjustRepeatedly_S, (step_decrease _ _ Hd).
  qminmax; lra.
Qed.

End WheelClamp.

(** C4: for every wheel event with a non-zero [deltaY], the adjust action of
    [RenderScaleWidget] sets the target to
    [clamp(target * 2^sign(deltaY), [2^origin, 2^(logScaleMax - 1)])] with
    [logScaleMax = round(origin + bins * binWidth)]; the new target never
    exceeds the upper bound, nor falls below the lower one when the interval
    is not empty.  For [bins = 10], [binWidth = 1], [origin = 0] the bounds
    are [1] and [512]; from target [4] one increase gives [8], a second
    [16], no number of increases exceeds [512], seven or more give exactly
    [512], and decreases never go below [1]. *)
Theorem adjustViaWheel_clamps_target
    (stats : RenderScaleStatistics) (w : WidgetState) (event : WheelEvent)
    (Hnz : ~ (deltaY event == 0)%Q) :
  let lower := JS.pow2 (logScaleOrigin stats RenderScaleWidget) in
  let upper := JS.pow2 (logScaleMax stats RenderScaleWidget - 1) in
  let w' := fst (adjustViaWheel stats RenderScaleWidget w event) in
  target w'
    = clampToInterval (lower, upper)
        (target w * JS.pow2 (JS.Math_sign (deltaY event)))%Q
  /\ logScaleMax stats RenderScaleWidget
     = JS.Math_round
         (inject_Z (renderScaleHistogramOrigin stats)
          + inject_Z (Z.of_nat (numRenderScaleHistogramBins stats))
            * renderScaleHistogramBinSize stats)%Q
  /\ (target w' <= upper)%Q
  /\ ((lower <= upper)%Q -> (lower <= target w')%Q)
  /\ (numRenderScaleHistogramBins stats = 10%nat ->
      (renderScaleHistogramBinSize stats == 1)%Q ->
      renderScaleHistogramOrigin stats = 0 ->
      (lower == 1)%Q /\ (upper == 512)%Q
      /\ (forall (up : Q) (w4 : WidgetState),
            (0 < up)%Q -> (target w4 == 4)%Q ->
            (target (adjustRepeatedly stats RenderScaleWidget 1 up w4) == 8)%Q
            /\ (target (adjustRepeatedly stats RenderScaleWidget 2 up w4) == 16)%Q
            /\ (forall n,
                  (target (adjustRepeatedly stats RenderScaleWidget n up w4)
                   <= 512)%Q)
            /\ (forall n, (7 <= n)%nat ->
                  (target (adjustRepeatedly stats RenderScaleWidget n up w4)
                   == 512)%Q))
      /\ (forall (down : Q) (w0 : WidgetState) (n : nat),
            (down < 0)%Q -> (1 <= n)%nat ->
            (1 <= target (adjustRepeatedly stats RenderScaleWidget n down w0))%Q)).
Proof.
  intros lower upper w'. subst w'.
  rewrite (adjustViaWheel_nonzero stats RenderScaleWidget w event Hnz).
  cbn [fst target getWheelMoveValue]. repeat split.
  - apply (clampToInterval_upper (lower, upper)).
  - intros Hlu. now apply clampToInterval_bounds.
  - apply (bounds_1_512 stats); assumption.
  - apply (bounds_1_512 stats); assumption.
  - apply (increases_from_4 stats); assumption.
  - apply (increases_from_4 stats); assumption.
  - intros n. apply (increases_bounded stats); try assumption.
    match goal with E : (target _ == 4)%Q |- _ => rewrite E end. discriminate.
  - intros n Hn. apply (increases_saturate stats); assumption.
  - intros down w0 n Hd Hn. apply (decreases_bounded stats); assumption.
Qed.

Lemma adjustViaWheel_clamps_target_witness :
  let stats := {| numRenderScaleHistogramBins := 10;
                  renderScaleHistogramBinSize := 1;
                  renderScaleHistogramOrigin := 0;
                  getRenderScaleHistogramOffset := fun v _ => v;
                  getRenderScaleFromHistogramOffset := fun v _ => v |} in
  let w := {| target := 4; targetDefault := 1; hoverTarget := None |} in
  let event := {| deltaY := 53; defaultPrevented := false |} in
  ~ (deltaY event == 0)%Q
  /\ (target (fst (adjustViaWheel stats RenderScaleWidget w event)) == 8)%Q
  /\ (target (adjustRepeatedly stats RenderScaleWidget 20 53 w) == 512)%Q.
Proof.
  intros stats w event.
  assert (Hnz : ~ (deltaY event == 0)%Q) by (intros E; discriminate E).
  pose proof (adjustViaWheel_clamps_target stats w event Hnz) as T.
  cbv zeta in T. destruct T as (E & _ & _ & _ & T).
  specialize (T eq_refl (Qeq_refl _) eq_refl).
  destruct T as (_ & _ & Tup & _).
  destruct (Tup 53%Q w eq_refl (Qeq_refl _)) as (_ & _ & _ & Tsat).
  split; [exact Hnz|]. split.
  - rewrite E. reflexivity.
  - apply Tsat. repeat constructor.
Defined.

(** ** The split of a band *)

Lemma split_between (P A S E : Q) :
  (0 <= P)%Q -> (0 <= A)%Q -> (0 < P + A)%Q -> (E <= S)%Q ->
  (E <= (P * E + A * S) / (P + A) <= S)%Q.
Proof.
  intros HP HA Hc HES. split.
  - apply Qle_shift_div_l; [assumption|]. nra.
  - apply Qle_shift_div_r; [assumption|]. nra.
Qed.

Lemma divide_positive (numerator count : Z) :
  0 < count ->
  divide numerator count = Ok (inject_Z numerator / inject_Z count)%Q.
Proof.
  intros Hc. unfold divide.
  destruct (Z.eqb_spec count 0); [lia|reflexivity].
Qed.

(** C10: for every band with non-negative [presentCount] and
    [notPresentCount], a positive [count] and [yEnd <= yStart], the split
    point [(presentCount * yEnd + notPresentCount * yStart) / count] lies in
    [[yEnd, yStart]]; the not-present rectangle runs from [yEnd] with height
    [ySplit - yEnd], the present one from [ySplit] with height
    [yStart - ySplit]; both heights are non-negative and add up to
    [yStart - yEnd], so the two rectangles tile the band. *)
Theorem fillBand_tiles_band {K : Type} (spatialScale : K) (hovered : bool)
    (xStart xEnd yStart yEnd presentCount notPresentCount : Z)
    (Hpresent : 0 <= presentCount) (HnotPresent : 0 <= notPresentCount)
    (Hcount : 0 < presentCount + notPresentCount)
    (Hband : yEnd <= yStart) :
  exists (ySplit : Q) (band : DrawnBand K),
    fillBand spatialScale hovered xStart xEnd yStart yEnd
      presentCount notPresentCount = Ok band
    /\ (ySplit == (inject_Z presentCount * inject_Z yEnd
                   + inject_Z notPresentCount * inject_Z yStart)
                  / inject_Z (presentCount + notPresentCount))%Q
    /\ (inject_Z yEnd <= ySplit <= inject_Z yStart)%Q
    /\ rectY (notPresentRect band) = inject_Z yEnd
    /\ rectH (notPresentRect band) = (ySplit - inject_Z yEnd)%Q
    /\ rectY (presentRect band) = ySplit
    /\ rectH (presentRect band) = (inject_Z yStart - ySplit)%Q
    /\ (0 <= rectH (notPresentRect band))%Q
    /\ (0 <= rectH (presentRect band))%Q
    /\ (rectH (notPresentRect band) + rectH (presentRect band)
        == inject_Z yStart - inject_Z yEnd)%Q
    /\ (rectY (notPresentRect band) + rectH (notPresentRect band)
        == rectY (presentRect band))%Q
    /\ (rectY (presentRect band) + rectH (presentRect band)
        == inject_Z yStart)%Q.
Proof.
  unfold fillBand. rewrite (divide_positive _ _ Hcount). cbn [bind].
  exists (inject_Z (splitNumerator presentCount notPresentCount yStart yEnd)
          / inject_Z (presentCount + notPresentCount))%Q.
  eexists. split; [reflexivity|].
  cbn [notPresentRect presentRect rectY rectH].
  assert (Hsplit : (inject_Z (splitNumerator presentCount notPresentCount yStart yEnd)
                    / inject_Z (presentCount + notPresentCount)
                    == (inject_Z presentCount * inject_Z yEnd
                        + inject_Z notPresentCount * inject_Z yStart)
                       / inject_Z (presentCount + notPresentCount))%Q).
  { unfold splitNumerator. now rewrite inject_Z_plus, !inject_Z_mult. }
  assert (Hbetween :
            (inject_Z yEnd
             <= inject_Z (splitNumerator presentCount notPresentCount yStart yEnd)
                / inject_Z (presentCount + notPresentCount)
             <= inject_Z yStart)%Q).
  { rewrite Hsplit, inject_Z_plus.
    apply split_between.
    - change 0%Q with (inject_Z 0). now rewrite <- Zle_Qle.
    - change 0%Q with (inject_Z 0). now rewrite <- Zle_Qle.
    - rewrite <- inject_Z_plus. change 0%Q with (inject_Z 0). now rewrite <- Zlt_Qlt.
    - now rewrite <- Zle_Qle. }
  repeat split; try reflexivity; try tauto; try lra.
Qed.

Lemma fillBand_tiles_band_witness :
  exists (ySplit : Q) (band : DrawnBand N),
    fillBand 9%N false 0 10 100 60 1 3 = Ok band
    /\ (ySplit == 90)%Q
    /\ (rectH (notPresentRect band) + rectH (presentRect band) == 40)%Q.
Proof.
  destruct (fillBand_tiles_band 9%N false 0 10 100 60 1 3
              ltac:(lia) ltac:(lia) ltac:(lia) ltac:(lia))
    as (ySplit & band & E & Hs & _ & _ & _ & _ & _ & _ & _ & Hsum & _).
  exists ySplit, band. split; [exact E|]. split.
  - rewrite Hs. reflexivity.
  - rewrite Hsum. reflexivity.
Defined.

(** ** The pixel-number formatter *)







Lemma ltb_lt (x y : Q) : JS.ltb x y = true <-> (x < y)%Q.
Proof.
  unfold JS.ltb. rewrite negb_true_iff. split.
  - intros E. apply Qnot_le_lt. intros Hle. apply Qle_bool_iff in Hle. congruence.
  - intros Hlt. destruct (Qle_bool y x) eqn:E; [|reflexivity].
    apply Qle_bool_iff in E. lra.
Qed.










(** The formatter of the specification agrees with its four examples. *)
Lemma formatPixelNumber_spec_examples :
  formatPixelNumber_spec 512 = "512"%string
  /\ formatPixelNumber_spec 2048 = "1.0p11"%string
  /\ formatPixelNumber_spec (1 # 2) = "1.0p-1"%string
  /\ formatPixelNumber_spec 1024 = "1024"%string.
Proof. repeat split; vm_compute; reflexivity. Qed.


(** ** The counters and the registry *)

Lemma fill_repeat (v : N) (data : list N) :
  map (fun _ => v) data = repeat v (List.length data).
Proof. induction data as [|c data IH]; cbn; [reflexivity|now rewrite IH]. Qed.

Lemma readCount_Ok (data : list N) (index : nat) (v : Z) :
  readCount data index = Ok v -> v = countAt data index /\ 0 <= v.
Proof.
  unfold readCount, countAt. destruct (nth_error data index) as [c|] eqn:E.
  - intros [= <-]. rewrite (nth_error_nth _ _ _ E). split; [reflexivity|lia].
  - discriminate.
Qed.

Lemma readCount_in_range (data : list N) (index : nat) :
  (index < List.length data)%nat -> readCount data index = Ok (countAt data index).
Proof.
  intros Hlt. unfold readCount, countAt.
  destruct (nth_error data index) as [c|] eqn:E.
  - now rewrite (nth_error_nth _ _ _ E).
  - apply nth_error_None in E. lia.
Qed.

Lemma readCount_zeroed (n index : nat) (v : Z) :
  readCount (repeat 0%N n) index = Ok v -> v = 0.
Proof.
  intros E. apply readCount_Ok in E as [-> _]. unfold countAt.
  destruct (Nat.lt_ge_cases index n) as [Hlt|Hge].
  - now rewrite nth_repeat_lt.
  - rewrite nth_overflow; [reflexivity|]. now rewrite repeat_length.
Qed.

Lemma bind_Ok {A B : Type} (m : result A) (k : A -> result B) (b : B) :
  bind m k = Ok b -> exists a, m = Ok a /\ k a = Ok b.
Proof. destruct m as [a|f]; cbn; [eauto|discriminate]. Qed.

Ltac bind_inv H :=
  let a := fresh "a" in
  let E := fresh "E" in
  apply bind_Ok in H as (a & E & H).

(** ** Zeroing a hidden histogram *)

Section Visibility.

Context {K : Type} `{ScaleKey K}.

Lemma zeroIfHidden_visible (h : RenderScaleHistogram K) :
  visible h = true -> zeroIfHidden h = h.
Proof.
  intros Hv. unfold zeroIfHidden, hiddenWrites. rewrite Hv. cbn.
  now destruct h.
Qed.

Lemma zeroIfHidden_hidden (h : RenderScaleHistogram K) :
  visible h = false ->
  value (zeroIfHidden h) = repeat 0%N (List.length (value h)).
Proof.
  intros Hv. unfold zeroIfHidden, hiddenWrites. rewrite Hv. cbn.
  apply fill_repeat.
Qed.

End Visibility.

(** ** The order of the series *)

Lemma String_leb_trans (a b c : string) :
  String.leb a b = true -> String.leb b c = true -> String.leb a c = true.
Proof.
  unfold String.leb.
  destruct (String.compare a b) eqn:Eab; [| |discriminate];
    destruct (String.compare b c) eqn:Ebc; try discriminate; intros _ _.
  - apply String.compare_eq_iff in Eab, Ebc. subst.
    destruct (String.compare c c) eqn:E; try reflexivity.
    pose proof (String.compare_antisym c c) as A. rewrite E in A. discriminate.
  - apply String.compare_eq_iff in Eab. subst. now rewrite Ebc.
  - apply String.compare_eq_iff in Ebc. subst. now rewrite Eab.
  - assert (Hac : String_as_OT.lt a c).
    { transitivity b; [exact Eab|exact Ebc]. }
    change (String.compare a c = Lt) in Hac. now rewrite Hac.
Qed.

Lemma StronglySorted_weaken {A : Type} (R R' : A -> A -> Prop) (l : list A) :
  (forall a b, R a b -> R' a b) -> StronglySorted R l -> StronglySorted R' l.
Proof.
  intros Himp. induction 1 as [|a t Hs IH Ha]; constructor; [exact IH|].
  eapply Forall_impl; [|exact Ha]. intros b. apply Himp.
Qed.

Section SortBy.

Context {A : Type}.
Variable leb : A -> A -> bool.
Hypothesis leb_total : forall a b, leb a b = true \/ leb b a = true.
Hypothesis leb_trans : forall a b c, leb a b = true -> leb b c = true -> leb a c = true.

Local Abbreviation le := (fun a b => leb a b = true).

Lemma insertBy_perm (a : A) (l : list A) : Permutation (insertBy leb a l) (a :: l).
Proof.
  induction l as [|h t IH]; cbn; [reflexivity|].
  destruct (leb a h); [reflexivity|].
  rewrite IH. apply perm_swap.
Qed.

Lemma sortBy_perm (l : list A) : Permutation (sortBy leb l) l.
Proof.
  induction l as [|a l IH]; cbn; [reflexivity|].
  rewrite insertBy_perm. now constructor.
Qed.

Lemma insertBy_sorted (a : A) (l : list A) :
  StronglySorted le l -> StronglySorted le (insertBy leb a l).
Proof.
  induction 1 as [|h t Hs IH Hh]; cbn.
  - repeat constructor.
  - destruct (leb a h) eqn:E.
    + constructor; [now constructor|].
      constructor; [exact E|].
      eapply Forall_impl; [|exact Hh]. intros x Hx.
      now apply (leb_trans a h x).
    + constructor; [exact IH|].
      apply (Permutation_Forall (Permutation_sym (insertBy_perm a t))).
      constructor; [|exact Hh].
      destruct (leb_total a h) as [Hah|Hha]; [congruence|exact Hha].
Qed.

Lemma sortBy_sorted (l : list A) : StronglySorted le (sortBy leb l).
Proof.
  induction l as [|a l IH]; cbn; [constructor|now apply insertBy_sorted].
Qed.

Lemma sorted_perm_unique (l1 l2 : list A) :
  (forall a b, leb a b = true -> leb b a = true -> a = b) ->
  StronglySorted le l1 -> StronglySorted le l2 ->
  Permutation l1 l2 -> l1 = l2.
Proof.
  intros leb_antisym Hs1. revert l2.
  induction Hs1 as [|a t1 Hs1 IH Ha]; intros l2 Hs2 Hp.
  - now apply Permutation_nil in Hp.
  - destruct Hs2 as [|b t2 Hs2 Hb].
    + apply Permutation_sym, Permutation_nil in Hp. discriminate.
    + assert (Eab : a = b).
      { assert (Hin_b : In b (a :: t1)).
        { apply (Permutation_in b (Permutation_sym Hp)). now left. }
        assert (Hin_a : In a (b :: t2)).
        { apply (Permutation_in a Hp). now left. }
        destruct Hin_b as [E|Hin_b]; [exact E|].
        destruct Hin_a as [E|Hin_a]; [now symmetry|].
        rewrite Forall_forall in Ha, Hb.
        apply leb_antisym; auto. }
      subst b. f_equal. apply IH; [exact Hs2|].
      now apply Permutation_cons_inv in Hp.
Qed.

Lemma StronglySorted_snoc (R : A -> A -> Prop) (l : list A) (a : A) :
  StronglySorted R l -> Forall (fun x => R x a) l ->
  StronglySorted R (l ++ [a]).
Proof.
  induction 1 as [|b t Hs IH Hb]; intros Ha; cbn.
  - repeat constructor.
  - inversion Ha as [|? ? Hba Hta]; subst.
    constructor; [now apply IH|].
    apply Forall_app. split; [exact Hb|now constructor].
Qed.

(** A sorted list read backwards is sorted the other way round. *)
Lemma sortBy_rev_sorted (l : list A) :
  StronglySorted (fun a b => leb b a = true) (rev (sortBy leb l)).
Proof.
  pose proof (sortBy_sorted l) as Hs.
  induction Hs as [|a t Hs IH Ha]; cbn; [constructor|].
  apply StronglySorted_snoc; [exact IH|].
  apply Forall_rev. exact Ha.
Qed.

End SortBy.

Section SeriesOrder.

Context {K : Type} `{ScaleKey K}.

Lemma defaultLe_total (a b : K) : defaultLe a b \/ defaultLe b a.
Proof. apply String.leb_total. Qed.

Lemma defaultLe_trans (a b c : K) : defaultLe a b -> defaultLe b c -> defaultLe a c.
Proof. apply String_leb_trans. Qed.

Lemma defaultLe_antisym (a b : K) : defaultLe a b -> defaultLe b a -> a = b.
Proof.
  intros Hab Hba. apply key_toString_inj. now apply String.leb_antisym.
Qed.

Lemma Array_sort_perm (l : list K) : Permutation (Array_sort l) l.
Proof. apply sortBy_perm. Qed.

Lemma Array_sort_sorted (l : list K) : StronglySorted defaultLe (Array_sort l).
Proof. apply sortBy_sorted; [exact defaultLe_total|exact defaultLe_trans]. Qed.

(** The sorted array depends on the set of keys alone. *)
Lemma Array_sort_perm_invariant (l1 l2 : list K) :
  Permutation l1 l2 -> Array_sort l1 = Array_sort l2.
Proof.
  intros Hp.
  apply (sorted_perm_unique defaultLeb); try apply Array_sort_sorted.
  - exact defaultLe_antisym.
  - rewrite !Array_sort_perm. exact Hp.
Qed.

(** Neither the rows given to the keys nor the order in which the keys
    were registered change the order of the series. *)
Lemma seriesOrder_registration_invariant (h1 h2 : RenderScaleHistogram K) :
  Permutation (map fst (spatialScales h1)) (map fst (spatialScales h2)) ->
  seriesOrder h1 = seriesOrder h2.
Proof.
  intros Hp. unfold seriesOrder, sortedSpatialScales.
  now rewrite (Array_sort_perm_invariant _ _ Hp).
Qed.

(** The series are walked in descending order of their string forms. *)
Lemma seriesOrder_descending (h : RenderScaleHistogram K) :
  StronglySorted (fun a b => defaultLe b a) (seriesOrder h)
  /\ Permutation (seriesOrder h) (map fst (spatialScales h)).
Proof.
  unfold seriesOrder, sortedSpatialScales. split.
  - apply (sortBy_rev_sorted defaultLeb);
      [exact defaultLe_total|exact defaultLe_trans].
  - rewrite <- Permutation_rev. apply Array_sort_perm.
Qed.

End SeriesOrder.

(** On integer keys the order of the specification is the descending
    numeric order. *)
Lemma seriesOrder_spec_numeric (h : RenderScaleHistogram N) :
  StronglySorted (fun a b => (b <= a)%N) (seriesOrder_spec h)
  /\ Permutation (seriesOrder_spec h) (map fst (spatialScales h)).
Proof.
  unfold seriesOrder_spec. split.
  - eapply StronglySorted_weaken;
      [|apply (sortBy_rev_sorted N.leb)].
    + intros a b Hab. now apply N.leb_le.
    + intros a b. rewrite !N.leb_le. lia.
    + intros a b c. rewrite !N.leb_le. lia.
  - rewrite <- Permutation_rev. apply sortBy_perm.
Qed.

(** C1: with the keys [9] and [10] registered, [sort()] without a
    comparator orders them by their string forms, ["10"] before ["9"]: the
    sorted array is [[10; 9]] and both loops walk it from its end, so the
    series of key [9] is processed first and that of key [10] last, whereas
    the ascending numeric sort walked in descending order processes [10]
    first and [9], the lowest key, last.  The rows given to the two keys
    play no part. *)
Theorem seriesOrder_is_by_string_form :
  forall (data : list N) (row9 row10 : nat) (shown : bool) (fake : Z),
    let h := {| value := data;
                spatialScales := [(9%N, row9); (10%N, row10)];
                visible := shown;
                fakeChunkCount := fake |} in
    sortedSpatialScales h = [10%N; 9%N]
    /\ seriesOrder h = [9%N; 10%N]
    /\ seriesOrder_spec h = [10%N; 9%N]
    /\ last (seriesOrder h) 0%N = 10%N
    /\ last (seriesOrder_spec h) 0%N = 9%N.
Proof. intros. repeat split. Qed.

(** ** The totals and the tallest bin *)

Lemma fold_right_max_init (t m : Z) (l : list Z) :
  fold_right Z.max (Z.max t m) l = Z.max t (fold_right Z.max m l).
Proof. induction l as [|a l IH]; cbn; [reflexivity|]. rewrite IH. lia. Qed.

Lemma fold_right_max_ge (m : Z) (l : list Z) : m <= fold_right Z.max m l.
Proof. induction l as [|a l IH]; cbn; lia. Qed.

Lemma sumZ_cons (a : Z) (l : list Z) : sumZ (a :: l) = a + sumZ l.
Proof. reflexivity. Qed.

Section Totals.

Context {K : Type} `{ScaleKey K}.
Variable stats : RenderScaleStatistics.

Local Abbreviation bins := (numRenderScaleHistogramBins stats).

Lemma rowLoop_Ok (data : list N) (bin : nat) (rows : list nat)
    (count totalPresent totalNotPresent : Z) (r : Z * Z * Z) :
  forEach rows (rowBody stats data bin) (count, totalPresent, totalNotPresent)
    = Ok r ->
  r = (count + sumZ (map (fun row => presentAt stats data row bin
                                     + notPresentAt stats data row bin) rows),
       totalPresent + sumZ (map (fun row => presentAt stats data row bin) rows),
       totalNotPresent + sumZ (map (fun row => notPresentAt stats data row bin) rows)).
Proof.
  revert count totalPresent totalNotPresent.
  induction rows as [|row rows IH]; intros count tp tnp E.
  - cbn in E. injection E as <-. cbn. f_equal; [f_equal|]; lia.
  - cbn [forEach] in E. bind_inv E. unfold rowBody in E0.
    bind_inv E0. bind_inv E0. injection E0 as <-.
    apply readCount_Ok in E1 as [-> _]. apply readCount_Ok in E2 as [-> _].
    apply IH in E. rewrite E. cbn [map]. rewrite !sumZ_cons.
    unfold presentAt, notPresentAt.
    f_equal; [f_equal|]; lia.
Qed.

Lemma binLoop_Ok (h : RenderScaleHistogram K) (binl : list nat)
    (maxCount totalPresent totalNotPresent : Z) (r : Z * Z * Z) :
  forEach binl (binBody stats h) (maxCount, totalPresent, totalNotPresent)
    = Ok r ->
  r = (fold_right Z.max maxCount (map (binTotal stats h) binl),
       totalPresent + sumZ (map (binPresent stats h) binl),
       totalNotPresent + sumZ (map (binNotPresent stats h) binl)).
Proof.
  revert maxCount totalPresent totalNotPresent.
  induction binl as [|bin binl IH]; intros m tp tnp E.
  - cbn in E. injection E as <-. cbn. f_equal; [f_equal|]; lia.
  - cbn [forEach] in E. bind_inv E. unfold binBody in E0.
    bind_inv E0. apply rowLoop_Ok in E1. subst a0. injection E0 as <-.
    apply IH in E. rewrite E. cbn [map fold_right]. rewrite !sumZ_cons.
    rewrite fold_right_max_init.
    unfold binTotal, binPresent, binNotPresent.
    f_equal; [f_equal|]; lia.
Qed.

(** The loop of lines 188-203 against the reference sums. *)
Lemma computeTotals_Ok (h : RenderScaleHistogram K) (t : Totals) :
  computeTotals stats h = Ok t ->
  maxCount t = maxCount_spec stats h
  /\ totalPresent t = allPresent stats h
  /\ totalNotPresent t = allNotPresent stats h - fakeChunkCount h.
Proof.
  unfold computeTotals. intros E. bind_inv E.
  apply binLoop_Ok in E0. subst a. injection E as <-. cbn.
  unfold maxCount_spec, allPresent, allNotPresent. repeat split; lia.
Qed.

Lemma maxCount_spec_ge_1 (h : RenderScaleHistogram K) : 1 <= maxCount_spec stats h.
Proof. apply fold_right_max_ge. Qed.

Lemma rowLoop_total (data : list N) (bin : nat) (rows : list nat) (bound : nat)
    (acc : Z * Z * Z) :
  (bin < bins)%nat ->
  Forall (fun row => (row < bound)%nat) rows ->
  (2 * bins * bound <= List.length data)%nat ->
  exists r, forEach rows (rowBody stats data bin) acc = Ok r.
Proof.
  intros Hbin Hrows Hlen. revert acc.
  induction Hrows as [|row rows Hrow _ IH]; intros [[count tp] tnp].
  - cbn. eauto.
  - cbn [forEach]. unfold rowBody at 1.
    rewrite !readCount_in_range by nia. cbn [bind]. apply IH.
Qed.

Lemma binLoop_total (h : RenderScaleHistogram K) (binl : list nat)
    (acc : Z * Z * Z) :
  Forall (fun bin => (bin < bins)%nat) binl ->
  (2 * bins * numRows h <= List.length (value h))%nat ->
  exists r, forEach binl (binBody stats h) acc = Ok r.
Proof.
  intros Hbins Hlen. revert acc.
  induction Hbins as [|bin binl Hbin _ IH]; intros [[m tp] tnp].
  - cbn. eauto.
  - cbn [forEach]. unfold binBody at 1.
    destruct (rowLoop_total (value h) bin (seq 0 (numRows h)) (numRows h)
                (0, tp, tnp) Hbin) as [[[c tp'] tnp'] E]; [|exact Hlen|].
    { apply Forall_forall. intros row Hin. apply in_seq in Hin. lia. }
    rewrite E. cbn [bind]. apply IH.
Qed.

(** On counters that cover the registry the totals are computed. *)
Lemma computeTotals_total (h : RenderScaleHistogram K) :
  (2 * bins * numRows h <= List.length (value h))%nat ->
  exists t, computeTotals stats h = Ok t.
Proof.
  intros Hlen. unfold computeTotals.
  destruct (binLoop_total h (seq 0 bins) (1, 0, 0)) as [[[m tp] tnp] E];
    [|exact Hlen|].
  { apply Forall_forall. intros bin Hin. apply in_seq in Hin. lia. }
  rewrite E. cbn. eauto.
Qed.

End Totals.

(** ** The height model *)

Section HeightFacts.

Local Open Scope R_scope.

Lemma ln_one_plus_pos (maxCount : Z) :
  (1 <= maxCount)%Z -> 0 < ln (1 + IZR maxCount).
Proof.
  intros Hm. apply IZR_le in Hm.
  rewrite <- ln_1. apply ln_increasing; Lra.lra.
Qed.

Lemma ln_one_plus_le (a b : Z) :
  (0 <= a <= b)%Z -> ln (1 + IZR a) <= ln (1 + IZR b).
Proof.
  intros [Ha Hab]. apply IZR_le in Ha, Hab.
  destruct (Req_dec (IZR a) (IZR b)) as [->|Hne]; [Lra.lra|].
  left. apply ln_increasing; Lra.lra.
Qed.

Lemma countToCanvasY_zero (height maxCount : Z) :
  HeightModel.countToCanvasY height maxCount 0 = IZR height.
Proof.
  unfold HeightModel.countToCanvasY.
  replace (1 + 0) with 1 by Lra.lra. rewrite ln_1. Lra.lra.
Qed.

Lemma countToCanvasY_maxCount (height maxCount : Z) :
  (1 <= maxCount)%Z ->
  HeightModel.countToCanvasY height maxCount maxCount = 0.
Proof.
  intros Hm. pose proof (ln_one_plus_pos maxCount Hm) as Hln.
  unfold HeightModel.countToCanvasY, HeightModel.yScale. field. Lra.lra.
Qed.

Lemma yScale_nonneg (height maxCount : Z) :
  (0 <= height)%Z -> (1 <= maxCount)%Z ->
  0 <= HeightModel.yScale height maxCount.
Proof.
  intros Hh Hm. pose proof (ln_one_plus_pos maxCount Hm) as Hln.
  apply IZR_le in Hh. unfold HeightModel.yScale.
  apply Rmult_le_pos; [exact Hh|]. left. now apply Rinv_0_lt_compat.
Qed.

Lemma countToCanvasY_antitone (height maxCount a b : Z) :
  (0 <= height)%Z -> (1 <= maxCount)%Z -> (0 <= a <= b)%Z ->
  HeightModel.countToCanvasY height maxCount b
  <= HeightModel.countToCanvasY height maxCount a.
Proof.
  intros Hh Hm Hab. unfold HeightModel.countToCanvasY.
  pose proof (yScale_nonneg height maxCount Hh Hm) as Hs.
  pose proof (ln_one_plus_le a b Hab) as Hln.
  apply Rplus_le_compat_l, Ropp_le_contravar.
  now apply Rmult_le_compat_r.
Qed.

Lemma Math_round_IZR (z : Z) : HeightModel.Math_round (IZR z) = z.
Proof. unfold HeightModel.Math_round. apply Zfloor_eq. Lra.lra. Qed.

Lemma Math_round_le (x y : R) :
  x <= y -> (HeightModel.Math_round x <= HeightModel.Math_round y)%Z.
Proof. intros Hxy. unfold HeightModel.Math_round. apply Zfloor_le. Lra.lra. Qed.

Lemma roundedCanvasY_zero (height maxCount : Z) :
  HeightModel.roundedCanvasY height maxCount 0 = height.
Proof.
  unfold HeightModel.roundedCanvasY. rewrite countToCanvasY_zero.
  apply Math_round_IZR.
Qed.

Lemma roundedCanvasY_maxCount (height maxCount : Z) :
  (1 <= maxCount)%Z ->
  HeightModel.roundedCanvasY height maxCount maxCount = 0%Z.
Proof.
  intros Hm. unfold HeightModel.roundedCanvasY.
  rewrite countToCanvasY_maxCount by assumption.
  apply (Math_round_IZR 0).
Qed.

Lemma roundedCanvasY_antitone (height maxCount a b : Z) :
  (0 <= height)%Z -> (1 <= maxCount)%Z -> (0 <= a <= b)%Z ->
  (HeightModel.roundedCanvasY height maxCount b
   <= HeightModel.roundedCanvasY height maxCount a)%Z.
Proof.
  intros Hh Hm Hab. apply Math_round_le.
  now apply countToCanvasY_antitone.
Qed.

End HeightFacts.

(** C5: on counters that cover every row, the totals of a draw pass are
    computed, and [maxCount] is [max(1, max over bins of the present +
    not-present count summed across all rows)]; it is at least [1], so
    [log(1 + maxCount)], the divisor of [yScale], is positive and never
    zero; and with [yScale = height / log(1 + maxCount)] the mapping
    [y(c) = height - log(1 + c) * yScale] has [y(0) = height] and
    [y(maxCount) = 0], over the reals. *)
Theorem heightModel_baseline_and_top {K : Type} `{ScaleKey K}
    (stats : RenderScaleStatistics) (h : RenderScaleHistogram K) (height : Z)
    (Hcovered : (2 * numRenderScaleHistogramBins stats * numRows h
                 <= List.length (value h))%nat) :
  exists t : Totals,
    computeTotals stats h = Ok t
    /\ maxCount t = maxCount_spec stats h
    /\ 1 <= maxCount t
    /\ (0 < ln (1 + IZR (maxCount t)))%R
    /\ ln (1 + IZR (maxCount t)) <> 0%R
    /\ HeightModel.yScale height (maxCount t)
       = (IZR height / ln (1 + IZR (maxCount t)))%R
    /\ (forall count,
         HeightModel.countToCanvasY height (maxCount t) count
         = (IZR height
            - ln (1 + IZR count) * HeightModel.yScale height (maxCount t))%R)
    /\ HeightModel.countToCanvasY height (maxCount t) 0 = IZR height
    /\ HeightModel.countToCanvasY height (maxCount t) (maxCount t) = 0%R.
Proof.
  destruct (computeTotals_total stats h Hcovered) as [t Htotals].
  exists t. split; [exact Htotals|].
  apply computeTotals_Ok in Htotals as (Hmax & _ & _).
  pose proof (maxCount_spec_ge_1 stats h) as Hge. rewrite <- Hmax in Hge.
  pose proof (ln_one_plus_pos (maxCount t) Hge) as Hln.
  repeat split.
  - exact Hmax.
  - exact Hge.
  - exact Hln.
  - intros E. rewrite E in Hln. revert Hln. apply Rlt_irrefl.
  - apply countToCanvasY_zero.
  - now apply countToCanvasY_maxCount.
Qed.

Lemma heightModel_baseline_and_top_witness :
  let stats := {| numRenderScaleHistogramBins := 2;
                  renderScaleHistogramBinSize := 1;
                  renderScaleHistogramOrigin := 0;
                  getRenderScaleHistogramOffset := fun v _ => v;
                  getRenderScaleFromHistogramOffset := fun v _ => v |} in
  let h := {| value := [1; 0; 3; 0; 2; 5; 1; 1]%N;
              spatialScales := [(9%N, 0%nat); (10%N, 1%nat)];
              visible := true;
              fakeChunkCount := 2 |} in
  (2 * numRenderScaleHistogramBins stats * numRows h <= List.length (value h))%nat
  /\ HeightModel.countToCanvasY 100 7 0 = 100%R
  /\ HeightModel.countToCanvasY 100 7 7 = 0%R.
Proof.
  intros stats h.
  assert (Hcovered : (2 * numRenderScaleHistogramBins stats * numRows h
                      <= List.length (value h))%nat) by (cbn; lia).
  split; [exact Hcovered|].
  destruct (heightModel_baseline_and_top stats h 100 Hcovered)
    as (t & Et & _ & _ & _ & _ & _ & _ & Y0 & Ymax).
  assert (E7 : maxCount t = 7).
  { change (computeTotals stats h)
      with (Ok {| maxCount := 7; totalPresent := 8; totalNotPresent := 3 |}) in Et.
    now injection Et as <-. }
  rewrite E7 in Y0, Ymax. split; assumption.
Defined.

(** Two values of the height model that come out exactly: with a tallest
    bin of [3], a count of [1] lies half way up, for [log 4 = 2 log 2]. *)
Lemma roundedCanvasY_half (height : Z) :
  HeightModel.roundedCanvasY (2 * height) 3 1 = height.
Proof.
  unfold HeightModel.roundedCanvasY.
  assert (E : HeightModel.countToCanvasY (2 * height) 3 1 = IZR height).
  { unfold HeightModel.countToCanvasY, HeightModel.yScale.
    replace (1 + 3)%R with (2 * 2)%R by Lra.lra.
    replace (1 + 1)%R with 2%R by Lra.lra.
    rewrite ln_mult by Lra.lra. rewrite mult_IZR.
    pose proof ln_lt_2 as Hln. field. Lra.lra. }
  rewrite E. apply Math_round_IZR.
Qed.

(** ** The stack of a bin: picking and drawing *)

Section StackFacts.

Context {K : Type} `{ScaleKey K}.
Variable stats : RenderScaleStatistics.
Variable canvasY : Z -> Z.

Local Abbreviation bins := (numRenderScaleHistogramBins stats).

Lemma seriesCounts_nonneg (h : RenderScaleHistogram K) (i : nat)
    (series : list K) (counts : list (K * Z * Z)) :
  seriesCounts stats h i series = Ok counts ->
  Forall (fun c => 0 <= snd (fst c) /\ 0 <= snd c) counts
  /\ map (fun c => fst (fst c)) counts = series.
Proof.
  revert counts. induction series as [|k rest IH]; intros counts E.
  - injection E as <-. split; constructor.
  - cbn [seriesCounts] in E. do 4 bind_inv E. injection E as <-.
    apply readCount_Ok in E1 as [_ Hp]. apply readCount_Ok in E2 as [_ Ha].
    destruct (IH _ E3) as [IHf IHm]. split.
    + constructor; [cbn; split; assumption|exact IHf].
    + cbn. now rewrite IHm.
Qed.

(** The walk of the picker stops at the first band that contains the
    pointer. *)
Lemma pickSeries_firstBand (h : RenderScaleHistogram K) (i : nat) (hoverY : Q)
    (series : list K) (counts : list (K * Z * Z)) (sum : Z) :
  seriesCounts stats h i series = Ok counts ->
  pickSeries stats canvasY h i hoverY series sum
  = Ok (firstBandAt hoverY (stackBands canvasY counts sum)).
Proof.
  revert counts sum. induction series as [|k rest IH]; intros counts sum E.
  - injection E as <-. reflexivity.
  - cbn [seriesCounts] in E. do 4 bind_inv E. injection E as <-.
    cbn [pickSeries stackBands]. rewrite E0. cbn [bind].
    replace (2 * a * bins + i)%nat with (a * bins * 2 + i)%nat by lia.
    rewrite E1, E2. cbn [bind].
    destruct (a0 + a1 =? 0) eqn:Ez; [now apply IH|].
    unfold firstBandAt. cbn [find]. unfold bandContains at 1.
    cbn [bandStart bandEnd].
    destruct (Qle_bool (inject_Z (canvasY (sum + (a0 + a1)))) hoverY
              && Qle_bool hoverY (inject_Z (canvasY sum))); [reflexivity|].
    now apply IH.
Qed.

Variable width : Z.

(** The renderer draws the bands of the same stack, one after the other. *)
Lemma drawSeries_of_counts (h : RenderScaleHistogram K)
    (hoverSpatialScale : option K) (i : nat)
    (series : list K) (counts : list (K * Z * Z)) (sum : Z) :
  seriesCounts stats h i series = Ok counts ->
  drawSeries stats canvasY width h hoverSpatialScale i series sum
  = Ok (map (drawnOf stats width hoverSpatialScale i)
          (stackBands canvasY counts sum)).
Proof.
  revert counts sum. induction series as [|k rest IH]; intros counts sum E.
  - injection E as <-. reflexivity.
  - cbn [seriesCounts] in E. do 4 bind_inv E. injection E as <-.
    cbn [drawSeries stackBands]. rewrite E0. cbn [bind].
    rewrite E1, E2. cbn [bind].
    destruct (a0 + a1 =? 0) eqn:Ez; [now apply IH|].
    unfold fillBand, divide. rewrite Ez. cbn [bind].
    rewrite (IH _ _ E3). reflexivity.
Qed.

Lemma drawSeries_Ok (h : RenderScaleHistogram K)
    (hoverSpatialScale : option K) (i : nat)
    (series : list K) (sum : Z) (bands : list (DrawnBand K)) :
  drawSeries stats canvasY width h hoverSpatialScale i series sum = Ok bands ->
  exists counts, seriesCounts stats h i series = Ok counts.
Proof.
  revert sum bands. induction series as [|k rest IH]; intros sum bands E.
  - cbn. eauto.
  - cbn [drawSeries] in E. do 3 bind_inv E. cbn [seriesCounts].
    rewrite E0. cbn [bind]. rewrite E1, E2. cbn [bind].
    destruct (a0 + a1 =? 0).
    + destruct (IH _ _ E) as [counts Ec]. rewrite Ec. cbn. eauto.
    + do 2 bind_inv E. destruct (IH _ _ E4) as [counts Ec].
      rewrite Ec. cbn. eauto.
Qed.

(** No step of the stack of a bin divides by zero. *)
Lemma drawSeries_no_DivisionByZero (h : RenderScaleHistogram K)
    (hoverSpatialScale : option K) (i : nat) (series : list K) (sum : Z) :
  drawSeries stats canvasY width h hoverSpatialScale i series sum
  <> Fault DivisionByZero.
Proof.
  revert sum. induction series as [|k rest IH]; intros sum; [discriminate|].
  cbn [drawSeries].
  destruct (Map_get (spatialScales h) k) as [row|f] eqn:Er; cbn [bind].
  2:{ intros [= ->]. clear IH. induction (spatialScales h) as [|[k' r'] m IHm];
        cbn in Er; [discriminate|].
      destruct (key_eqb k' k); [discriminate|auto]. }
  unfold readCount.
  destruct (nth_error (value h) (row * bins * 2 + i)) as [p|]; cbn [bind];
    [|discriminate].
  destruct (nth_error (value h) (row * bins * 2 + i + bins)) as [a|]; cbn [bind];
    [|discriminate].
  destruct (Z.of_N p + Z.of_N a =? 0) eqn:Ez; [apply IH|].
  unfold fillBand, divide. rewrite Ez. cbn [bind].
  destruct (drawSeries _ _ _ _ _ _ rest _) as [bands|f] eqn:Ed; cbn [bind];
    [discriminate|].
  intros [= ->]. now apply (IH (sum + (Z.of_N p + Z.of_N a))).
Qed.

Lemma stackBands_positive (counts : list (K * Z * Z)) (sum : Z) :
  Forall (fun c => 0 <= snd (fst c) /\ 0 <= snd c) counts ->
  Forall (fun b => 0 <= bandPresent b /\ 0 <= bandNotPresent b
                   /\ 0 < bandPresent b + bandNotPresent b)
    (stackBands canvasY counts sum).
Proof.
  intros Hc. revert sum. induction Hc as [|[[k p] a] rest [Hp Ha] _ IH]; intros sum.
  - constructor.
  - cbn [stackBands]. cbn [fst snd] in Hp, Ha.
    destruct (Z.eqb_spec (p + a) 0); [apply IH|].
    constructor; [cbn; lia|apply IH].
Qed.

Lemma drawSeries_divisors (h : RenderScaleHistogram K)
    (hoverSpatialScale : option K) (i : nat)
    (series : list K) (sum : Z) (bands : list (DrawnBand K)) :
  drawSeries stats canvasY width h hoverSpatialScale i series sum = Ok bands ->
  Forall (fun b => 0 < divisor b) bands.
Proof.
  intros E. destruct (drawSeries_Ok _ _ _ _ _ _ E) as [counts Ec].
  rewrite (drawSeries_of_counts _ _ _ _ _ sum Ec) in E. injection E as <-.
  apply seriesCounts_nonneg in Ec as [Hc _].
  apply Forall_map.
  eapply Forall_impl; [|apply (stackBands_positive counts sum Hc)].
  intros b (_ & _ & Hpos). exact Hpos.
Qed.

(** The same for the loop over all bins. *)
Lemma drawBars_no_DivisionByZero (h : RenderScaleHistogram K)
    (hoverSpatialScale : option K) :
  drawBars stats canvasY width h hoverSpatialScale <> Fault DivisionByZero.
Proof.
  unfold drawBars. generalize (@nil (DrawnBand K)).
  induction (seq 0 bins) as [|i binl IH]; intros drawn; [discriminate|].
  cbn [forEach].
  destruct (drawSeries stats canvasY width h hoverSpatialScale i (seriesOrder h) 0)
    as [bands|f] eqn:Ed; cbn [bind].
  - apply IH.
  - intros [= ->]. now apply drawSeries_no_DivisionByZero in Ed.
Qed.

Lemma drawBars_divisors (h : RenderScaleHistogram K)
    (hoverSpatialScale : option K) (bands : list (DrawnBand K)) :
  drawBars stats canvasY width h hoverSpatialScale = Ok bands ->
  Forall (fun b => 0 < divisor b) bands.
Proof.
  unfold drawBars.
  assert (Hnil : Forall (fun b : DrawnBand K => 0 < divisor b) []) by constructor.
  revert Hnil. generalize (@nil (DrawnBand K)). revert bands.
  induction (seq 0 bins) as [|i binl IH]; intros bands drawn Hd E.
  - injection E as <-. exact Hd.
  - cbn [forEach] in E. bind_inv E. bind_inv E0. injection E0 as <-.
    apply (IH _ _ (proj2 (Forall_app _ _ _)
                     (conj Hd (drawSeries_divisors _ _ _ _ _ _ E1))) E).
Qed.

End StackFacts.

(** ** The draw pass on well-formed counters *)

Section WellFormed.

Context {K : Type} `{ScaleKey K}.
Variable stats : RenderScaleStatistics.

Local Abbreviation bins := (numRenderScaleHistogramBins stats).

Lemma Map_get_registered (m : list (K * nat)) (spatialScale : K) :
  In spatialScale (map fst m) ->
  exists row, Map_get m spatialScale = Ok row /\ In (spatialScale, row) m.
Proof.
  induction m as [|[k row] m IH]; cbn; [tauto|].
  intros Hin. destruct (key_eqb k spatialScale) eqn:E.
  - apply key_eqb_eq in E. subst k. eauto.
  - destruct Hin as [->|Hin].
    + assert (Et : key_eqb spatialScale spatialScale = true)
        by now apply key_eqb_eq.
      congruence.
    + destruct (IH Hin) as (r & Er & Hr). eauto.
Qed.

Lemma seriesOrder_registered (h : RenderScaleHistogram K) (spatialScale : K) :
  In spatialScale (seriesOrder h) <-> In spatialScale (map fst (spatialScales h)).
Proof.
  destruct (seriesOrder_descending h) as [_ Hp]. split.
  - apply (Permutation_in _ Hp).
  - apply (Permutation_in _ (Permutation_sym Hp)).
Qed.

Lemma seriesCounts_total (h : RenderScaleHistogram K) (i : nat) (series : list K) :
  wellFormed stats h -> (i < bins)%nat ->
  (forall spatialScale, In spatialScale series ->
                        In spatialScale (map fst (spatialScales h))) ->
  exists counts, seriesCounts stats h i series = Ok counts.
Proof.
  intros [Hlen Hrows] Hi. induction series as [|k rest IH]; intros Hreg.
  - cbn. eauto.
  - destruct (Map_get_registered (spatialScales h) k) as (row & Er & Hin).
    { apply Hreg. now left. }
    rewrite Forall_forall in Hrows. apply Hrows in Hin. cbn [snd] in Hin.
    destruct IH as [counts Ec]. { intros s Hs. apply Hreg. now right. }
    cbn [seriesCounts]. rewrite Er. cbn [bind].
    rewrite !readCount_in_range by nia. cbn [bind]. rewrite Ec. cbn. eauto.
Qed.

Lemma stackBands_series (canvasY : Z -> Z) (counts : list (K * Z * Z)) (sum : Z)
    (b : Band K) :
  In b (stackBands canvasY counts sum) ->
  In (bandSeries b) (map (fun c => fst (fst c)) counts).
Proof.
  revert sum. induction counts as [|[[k p] a] counts IH]; intros sum; cbn [stackBands].
  - tauto.
  - destruct (p + a =? 0).
    + intros Hin. right. now apply (IH sum).
    + intros [<-|Hin]; [now left|]. right. now apply (IH _ Hin).
Qed.

Lemma hoverRowLoop_total (data : list N) (row bound : nat) (binl : list nat)
    (acc : Z * Z) :
  (row < bound)%nat ->
  Forall (fun bin => (bin < bins)%nat) binl ->
  (2 * bins * bound <= List.length data)%nat ->
  exists r, forEach binl (hoverRowBody stats data (2 * row * bins)) acc = Ok r.
Proof.
  intros Hrow Hbins Hlen. revert acc.
  induction Hbins as [|bin binl Hbin _ IH]; intros [tp tnp].
  - cbn. eauto.
  - cbn [forEach]. unfold hoverRowBody at 1.
    rewrite !readCount_in_range by nia. cbn [bind]. apply IH.
Qed.

Lemma drawBars_total (canvasY : Z -> Z) (width : Z) (h : RenderScaleHistogram K)
    (hoverSpatialScale : option K) :
  wellFormed stats h ->
  exists bands, drawBars stats canvasY width h hoverSpatialScale = Ok bands.
Proof.
  intros Hwf. unfold drawBars. generalize (@nil (DrawnBand K)).
  assert (Hbins : Forall (fun bin => (bin < bins)%nat) (seq 0 bins)).
  { apply Forall_forall. intros bin Hin. apply in_seq in Hin. lia. }
  induction Hbins as [|i binl Hi _ IH]; intros drawn.
  - cbn. eauto.
  - cbn [forEach].
    destruct (seriesCounts_total h i (seriesOrder h) Hwf Hi) as [counts Ec].
    { intros s. apply seriesOrder_registered. }
    rewrite (drawSeries_of_counts stats canvasY width h _ i _ _ 0 Ec).
    cbn [bind]. apply IH.
Qed.

(** On well-formed counters the draw pass produces a view. *)
Theorem drawView_total (cls : WidgetClass) (heightModel : Z -> Z -> Z -> Z)
    (w : WidgetState) (h : RenderScaleHistogram K) (width height : Z) :
  wellFormed stats h ->
  exists view, drawView stats cls heightModel w h width height = Ok view.
Proof.
  intros Hwf. unfold drawView.
  destruct (computeTotals_total stats h (proj1 Hwf)) as [t Et].
  rewrite Et. cbn [bind].
  set (canvasY := heightModel height (maxCount t)).
  assert (Eh : exists hovered,
             findHoverSpatialScale stats canvasY cls h (hoverTarget w) = Ok hovered
             /\ forall s, hovered = Some s -> In s (map fst (spatialScales h))).
  { unfold findHoverSpatialScale. destruct (hoverTarget w) as [[value hoverY]|].
    2:{ exists None. split; [reflexivity|discriminate]. }
    set (i := JS.Math_floor _).
    destruct (Z.leb_spec 0 i) as [Hlo|];
      [|exists None; split; [reflexivity|discriminate]].
    destruct (Z.ltb_spec i (Z.of_nat bins)) as [Hhi|];
      [|exists None; split; [reflexivity|discriminate]].
    cbn [andb].
    destruct (seriesCounts_total h (Z.to_nat i) (seriesOrder h) Hwf) as [counts Ec].
    { lia. }
    { intros s. apply seriesOrder_registered. }
    rewrite (pickSeries_firstBand stats canvasY h _ hoverY _ _ 0 Ec).
    eexists. split; [reflexivity|]. intros s Es. unfold firstBandAt in Es.
    destruct (find _ _) as [b|] eqn:Ef; [|discriminate]. injection Es as <-.
    apply find_some in Ef as [Hin _]. apply stackBands_series in Hin.
    apply seriesCounts_nonneg in Ec as [_ Em]. rewrite Em in Hin.
    now apply seriesOrder_registered. }
  destruct Eh as (hovered & Eh & Hreg). rewrite Eh. cbn [bind].
  assert (Ec : exists totals, chunkTotals stats h t hovered = Ok totals).
  { destruct hovered as [s|]; cbn [chunkTotals]; [|eauto].
    destruct (Map_get_registered _ _ (Hreg s eq_refl)) as (row & Er & Hin).
    rewrite Er. cbn [bind]. destruct Hwf as [Hlen Hrows].
    rewrite Forall_forall in Hrows. apply Hrows in Hin. cbn [snd] in Hin.
    apply (hoverRowLoop_total (value h) row (numRows h)); try assumption.
    apply Forall_forall. intros bin Hb. apply in_seq in Hb. lia. }
  destruct Ec as [totals Ec]. rewrite Ec. cbn [bind].
  destruct (drawBars_total canvasY width h hovered Hwf) as [bands Eb].
  rewrite Eb. cbn [bind]. eauto.
Qed.

End WellFormed.

(** ** Which band the pointer is in *)


Section HoverFacts.

Context {K : Type} `{ScaleKey K}.
Variable stats : RenderScaleStatistics.
Variable canvasY : Z -> Z.
Hypothesis canvasY_antitone : forall a b, 0 <= a <= b -> canvasY b <= canvasY a.

Local Abbreviation bins := (numRenderScaleHistogramBins stats).

(** The first band of a stack starts at the running sum, and the rest of
    the stack lies on top of it. *)
Lemma stackBands_head (counts : list (K * Z * Z)) (sum : Z)
    (b : Band K) (rest : list (Band K)) :
  Forall (fun c => 0 <= snd (fst c) /\ 0 <= snd c) counts ->
  stackBands canvasY counts sum = b :: rest ->
  exists count counts',
    0 < count
    /\ bandStart b = canvasY sum
    /\ bandEnd b = canvasY (sum + count)
    /\ Forall (fun c => 0 <= snd (fst c) /\ 0 <= snd c) counts'
    /\ rest = stackBands canvasY counts' (sum + count).
Proof.
  intros Hc. induction Hc as [|[[k p] a] counts [Hp Ha] Hc IH]; cbn [stackBands].
  - discriminate.
  - cbn [fst snd] in Hp, Ha. destruct (Z.eqb_spec (p + a) 0) as [Hz|Hnz].
    + exact IH.
    + intros [= <- <-]. exists (p + a), counts. cbn. repeat split; try lia.
      exact Hc.
Qed.

Lemma two_bands (counts : list (K * Z * Z)) (b1 b2 : Band K) :
  Forall (fun c => 0 <= snd (fst c) /\ 0 <= snd c) counts ->
  stackBands canvasY counts 0 = [b1; b2] ->
  bandStart b2 = bandEnd b1
  /\ bandEnd b1 <= bandStart b1
  /\ bandEnd b2 <= bandStart b2.
Proof.
  intros Hc E.
  destruct (stackBands_head _ _ _ _ Hc E) as (c1 & counts1 & Hc1 & Hs1 & He1 & Hn1 & E1).
  symmetry in E1.
  destruct (stackBands_head _ _ _ _ Hn1 E1) as (c2 & counts2 & Hc2 & Hs2 & He2 & _ & _).
  rewrite Hs1, He1, Hs2, He2. repeat split.
  - apply canvasY_antitone. lia.
  - apply canvasY_antitone. lia.
Qed.

Lemma bandContains_true (y : Q) (b : Band K) :
  bandContains y b = true <->
  (inject_Z (bandEnd b) <= y <= inject_Z (bandStart b))%Q.
Proof.
  unfold bandContains. rewrite andb_true_iff, !Qle_bool_iff. tauto.
Qed.

Lemma bandContains_false (y : Q) (b : Band K) :
  (y < inject_Z (bandEnd b))%Q \/ (inject_Z (bandStart b) < y)%Q ->
  bandContains y b = false.
Proof.
  intros Hout. destruct (bandContains y b) eqn:E; [|reflexivity].
  apply bandContains_true in E. lra.
Qed.


End HoverFacts.



(** ** The split never divides by zero *)

(** C7: the renderer never reaches the division of the split point with a
    zero [count].  A series whose two counters add up to zero in a bin is
    skipped before the split point is computed; for every other series the
    sum of the two counters is positive and is the divisor; and so every
    divisor of a finished draw pass is positive. *)
Theorem drawBars_divides_by_positive_count {K : Type} `{ScaleKey K}
    (stats : RenderScaleStatistics) (canvasY : Z -> Z) (width : Z)
    (h : RenderScaleHistogram K) (hoverSpatialScale : option K) :
  drawBars stats canvasY width h hoverSpatialScale <> Fault DivisionByZero
  /\ (wellFormed stats h ->
      exists bands, drawBars stats canvasY width h hoverSpatialScale = Ok bands)
  /\ (forall bands,
       drawBars stats canvasY width h hoverSpatialScale = Ok bands ->
       Forall (fun b => 0 < divisor b) bands)
  /\ (forall i spatialScale rest sum row presentCount notPresentCount,
       Map_get (spatialScales h) spatialScale = Ok row ->
       readCount (value h) (row * numRenderScaleHistogramBins stats * 2 + i)
         = Ok presentCount ->
       readCount (value h)
         (row * numRenderScaleHistogramBins stats * 2 + i
          + numRenderScaleHistogramBins stats)
         = Ok notPresentCount ->
       (presentCount + notPresentCount = 0 ->
          drawSeries stats canvasY width h hoverSpatialScale i
            (spatialScale :: rest) sum
          = drawSeries stats canvasY width h hoverSpatialScale i rest sum)
       /\ (presentCount + notPresentCount <> 0 ->
            0 < presentCount + notPresentCount
            /\ exists band,
                 fillBand spatialScale
                   (match hoverSpatialScale with
                    | Some s => key_eqb spatialScale s
                    | None => false
                    end)
                   (JS.Math_round (binToCanvasX stats width (inject_Z (Z.of_nat i))))
                   (JS.Math_round (binToCanvasX stats width (inject_Z (Z.of_nat i + 1))))
                   (canvasY sum) (canvasY (sum + (presentCount + notPresentCount)))
                   presentCount notPresentCount
                 = Ok band
                 /\ divisor band = presentCount + notPresentCount
                 /\ drawSeries stats canvasY width h hoverSpatialScale i
                      (spatialScale :: rest) sum
                    = (bands <- drawSeries stats canvasY width h hoverSpatialScale i
                                 rest (sum + (presentCount + notPresentCount)) ;;
                       Ok (band :: bands))))
  /\ (forall numerator, divide numerator 0 = Fault DivisionByZero).
Proof.
  split; [apply drawBars_no_DivisionByZero|].
  split; [apply drawBars_total|].
  split; [apply drawBars_divisors|].
  split; [|reflexivity].
  intros i spatialScale rest sum row p a Er Ep Ea. split.
  - intros Hz. cbn [drawSeries]. rewrite Er. cbn [bind]. rewrite Ep, Ea. cbn [bind].
    apply Z.eqb_eq in Hz. now rewrite Hz.
  - intros Hnz. apply readCount_Ok in Ep as Hp. apply readCount_Ok in Ea as Ha.
    assert (Hpos : 0 < p + a) by lia. split; [exact Hpos|].
    unfold fillBand. rewrite (divide_positive _ _ Hpos). cbn [bind].
    eexists. split; [reflexivity|]. split; [reflexivity|].
    cbn [drawSeries]. rewrite Er. cbn [bind]. rewrite Ep, Ea. cbn [bind].
    apply Z.eqb_neq in Hnz. rewrite Hnz.
    unfold fillBand. rewrite (divide_positive _ _ Hpos). reflexivity.
Qed.

Lemma drawBars_divides_by_positive_count_witness :
  let stats := {| numRenderScaleHistogramBins := 2;
                  renderScaleHistogramBinSize := 1;
                  renderScaleHistogramOrigin := 0;
                  getRenderScaleHistogramOffset := fun v _ => v;
                  getRenderScaleFromHistogramOffset := fun v _ => v |} in
  let h := {| value := [1; 0; 0; 0; 0; 3; 0; 0]%N;
              spatialScales := [(9%N, 0%nat); (10%N, 1%nat)];
              visible := true;
              fakeChunkCount := 0 |} in
  let canvasY := HeightModel.roundedCanvasY 100 3 in
  drawSeries stats canvasY 20 h None 0 [10%N] 1 = Ok []
  /\ exists bands,
       drawBars stats canvasY 20 h None = Ok bands
       /\ map divisor bands = [1; 3]
       /\ Forall (fun b => 0 < divisor b) bands.
Proof.
  intros stats h canvasY.
  pose proof (drawBars_divides_by_positive_count stats canvasY 20 h None)
    as (_ & _ & Tpos & Tskip & _).
  split.
  - apply (proj1 (Tskip 0%nat 10%N [] 1 1%nat 0 0 eq_refl eq_refl eq_refl)).
    reflexivity.
  - assert (E0 : seriesCounts stats h 0 (seriesOrder h)
                 = Ok [(9%N, 1, 0); (10%N, 0, 0)]) by reflexivity.
    assert (E1 : seriesCounts stats h 1 (seriesOrder h)
                 = Ok [(9%N, 0, 0); (10%N, 3, 0)]) by reflexivity.
    assert (E : exists bands, drawBars stats canvasY 20 h None = Ok bands
                              /\ map divisor bands = [1; 3]).
    { unfold drawBars.
      change (seq 0 (numRenderScaleHistogramBins stats)) with [0%nat; 1%nat].
      cbn [forEach].
      rewrite (drawSeries_of_counts stats canvasY 20 h None 0 _ _ 0 E0).
      cbn [bind].
      rewrite (drawSeries_of_counts stats canvasY 20 h None 1 _ _ 0 E1).
      cbn [bind]. eexists. split; reflexivity. }
    destruct E as (bands & E & Hd). exists bands.
    split; [exact E|]. split; [exact Hd|]. now apply Tpos.
Defined.

(** ** The fraction of chunks in the legend *)

Section ChunkTotals.

Context {K : Type} `{ScaleKey K}.
Variable stats : RenderScaleStatistics.

Local Abbreviation bins := (numRenderScaleHistogramBins stats).

Lemma hoverRowLoop_Ok (data : list N) (row : nat) (binl : list nat)
    (totalPresent totalNotPresent : Z) (r : Z * Z) :
  forEach binl (hoverRowBody stats data (2 * row * bins))
    (totalPresent, totalNotPresent) = Ok r ->
  r = (totalPresent + sumZ (map (presentAt stats data row) binl),
       totalNotPresent + sumZ (map (notPresentAt stats data row) binl)).
Proof.
  revert totalPresent totalNotPresent.
  induction binl as [|bin binl IH]; intros tp tnp E.
  - cbn in E. injection E as <-. cbn. f_equal; lia.
  - cbn [forEach] in E. bind_inv E. unfold hoverRowBody in E0.
    bind_inv E0. bind_inv E0. injection E0 as <-.
    apply readCount_Ok in E1 as [-> _]. apply readCount_Ok in E2 as [-> _].
    apply IH in E. rewrite E. cbn [map]. rewrite !sumZ_cons.
    unfold presentAt, notPresentAt.
    replace (2 * row * bins + bin)%nat with (row * bins * 2 + bin)%nat by lia.
    f_equal; lia.
Qed.

(** Without a hovered series the fake chunks are taken out of the
    not-present total; with one, the totals are those of its row, and the
    fake chunk count plays no part. *)
Lemma chunkTotals_Ok (h : RenderScaleHistogram K) (t : Totals)
    (hoverSpatialScale : option K) (r : Z * Z) :
  computeTotals stats h = Ok t ->
  chunkTotals stats h t hoverSpatialScale = Ok r ->
  match hoverSpatialScale with
  | None =>
      r = (allPresent stats h, allNotPresent stats h - fakeChunkCount h)
  | Some spatialScale =>
      exists row,
        Map_get (spatialScales h) spatialScale = Ok row
        /\ r = (rowPresent stats h row, rowNotPresent stats h row)
  end.
Proof.
  intros Et Er. apply computeTotals_Ok in Et as (_ & Hp & Hn).
  destruct hoverSpatialScale as [spatialScale|]; cbn [chunkTotals] in Er.
  - bind_inv Er. exists a. split; [exact E|].
    apply hoverRowLoop_Ok in Er. rewrite Er.
    unfold rowPresent, rowNotPresent. f_equal; lia.
  - injection Er as <-. now rewrite Hp, Hn.
Qed.

End ChunkTotals.

(** C3: one series (key [5], row [0]) with one present and three
    not-present chunks in its only bin, two of the latter counted as fake.
    With no series hovered the legend reads ["1/2"]: the fake chunks are
    left out.  With the pointer on the series the legend reads ["1/4"]: the
    totals are taken again from the row and the fake chunk count is not
    subtracted. *)
Theorem legendChunks_counts_fake_chunks_on_hover :
  let stats := {| numRenderScaleHistogramBins := 1;
                  renderScaleHistogramBinSize := 1;
                  renderScaleHistogramOrigin := 0;
                  getRenderScaleHistogramOffset := fun v _ => v;
                  getRenderScaleFromHistogramOffset := fun v _ => v |} in
  let h := {| value := [1; 3]%N;
              spatialScales := [(5%N, 0%nat)];
              visible := true;
              fakeChunkCount := 2 |} in
  let idle := {| target := 1; targetDefault := 1; hoverTarget := None |} in
  let hovering := {| target := 1; targetDefault := 1;
                     hoverTarget := Some (0, 50)%Q |} in
  (exists view,
     drawView stats RenderScaleWidget HeightModel.roundedCanvasY idle h 20 100
       = Ok view
     /\ legendSpatialScale view = None
     /\ legendChunks view = "1/2"%string)
  /\ (exists view,
       drawView stats RenderScaleWidget HeightModel.roundedCanvasY hovering h 20 100
         = Ok view
       /\ legendSpatialScale view = Some 5%N
       /\ legendChunks view = "1/4"%string).
Proof.
  intros stats h idle hovering.
  set (canvasY := HeightModel.roundedCanvasY 100 4).
  assert (Y0 : canvasY 0 = 100) by apply roundedCanvasY_zero.
  assert (Y4 : canvasY 4 = 0) by (apply roundedCanvasY_maxCount; lia).
  assert (Et : computeTotals stats h
               = Ok {| maxCount := 4; totalPresent := 1; totalNotPresent := 1 |})
    by reflexivity.
  assert (Ec : seriesCounts stats h 0 (seriesOrder h) = Ok [(5%N, 1, 3)])
    by reflexivity.
  assert (Ed : forall hoverSpatialScale,
             exists bands, drawBars stats canvasY 20 h hoverSpatialScale = Ok bands).
  { intros hoverSpatialScale. unfold drawBars.
    change (seq 0 (numRenderScaleHistogramBins stats)) with [0%nat].
    cbn [forEach].
    rewrite (drawSeries_of_counts stats canvasY 20 h hoverSpatialScale 0 _ _ 0 Ec).
    cbn [bind]. eauto. }
  assert (Eh : findHoverSpatialScale stats canvasY RenderScaleWidget h
                 (Some (0, 50)%Q) = Ok (Some 5%N)).
  { unfold findHoverSpatialScale.
    change (JS.Math_floor
              (getRenderScaleHistogramOffset stats 0
                 (logScaleOrigin stats RenderScaleWidget))) with 0.
    change ((0 <=? 0) && (0 <? Z.of_nat (numRenderScaleHistogramBins stats)))
      with true.
    cbv iota. change (Z.to_nat 0) with 0%nat.
    rewrite (pickSeries_firstBand stats canvasY h 0 50 _ _ 0 Ec).
    cbn [stackBands]. change (1 + 3 =? 0) with false. cbv iota.
    unfold firstBandAt. cbn [find]. unfold bandContains. cbn [bandStart bandEnd].
    change (0 + (1 + 3)) with 4. rewrite Y0, Y4. reflexivity. }
  split.
  - destruct (Ed None) as [bands Eb].
    unfold drawView. rewrite Et. cbn [bind maxCount]. fold canvasY.
    cbn [hoverTarget idle findHoverSpatialScale bind chunkTotals totalPresent
           totalNotPresent].
    rewrite Eb. cbn [bind]. eexists. split; [reflexivity|]. split; reflexivity.
  - destruct (Ed (Some 5%N)) as [bands Eb].
    unfold drawView. rewrite Et. cbn [bind maxCount]. fold canvasY.
    cbn [hoverTarget hovering]. rewrite Eh. cbn [bind].
    change (chunkTotals stats h
              {| maxCount := 4; totalPresent := 1; totalNotPresent := 1 |}
              (Some 5%N)) with (@Ok (Z * Z) (1, 3)).
    cbn [bind]. rewrite Eb. cbn [bind].
    eexists. split; [reflexivity|]. split; reflexivity.
Qed.

(** ** What a hidden histogram draws *)

Section Hidden.

Context {K : Type} `{ScaleKey K}.
Variable stats : RenderScaleStatistics.
Variable canvasY : Z -> Z.

Local Abbreviation bins := (numRenderScaleHistogramBins stats).

Lemma seriesCounts_zeroed (h : RenderScaleHistogram K) (n i : nat)
    (series : list K) (counts : list (K * Z * Z)) :
  value h = repeat 0%N n ->
  seriesCounts stats h i series = Ok counts ->
  Forall (fun c => snd (fst c) = 0 /\ snd c = 0) counts.
Proof.
  intros Ev. revert counts. induction series as [|k rest IH]; intros counts E.
  - injection E as <-. constructor.
  - cbn [seriesCounts] in E. do 4 bind_inv E. injection E as <-.
    rewrite Ev in E1, E2.
    apply readCount_zeroed in E1, E2. subst.
    constructor; [now split|now apply IH].
Qed.

Lemma stackBands_zeroed (counts : list (K * Z * Z)) (sum : Z) :
  Forall (fun c => snd (fst c) = 0 /\ snd c = 0) counts ->
  stackBands canvasY counts sum = [].
Proof.
  induction 1 as [|[[k p] a] counts [Hp Ha] _ IH]; cbn [stackBands];
    [reflexivity|].
  cbn [fst snd] in Hp, Ha. subst. exact IH.
Qed.

Lemma wellFormed_zeroIfHidden (h : RenderScaleHistogram K) :
  wellFormed stats h -> wellFormed stats (zeroIfHidden h).
Proof.
  intros [Hlen Hrows]. destruct (visible h) eqn:Ev.
  - rewrite zeroIfHidden_visible by assumption. now split.
  - split.
    + rewrite zeroIfHidden_hidden by assumption. now rewrite repeat_length.
    + exact Hrows.
Qed.

(** The bars of a hidden histogram: none, for the counters were zeroed
    before the stacks were laid out. *)
Lemma drawBars_hidden (width : Z) (h : RenderScaleHistogram K)
    (hoverSpatialScale : option K) :
  visible h = false -> wellFormed stats h ->
  drawBars stats canvasY width (zeroIfHidden h) hoverSpatialScale = Ok [].
Proof.
  intros Hv Hwf. apply wellFormed_zeroIfHidden in Hwf.
  pose proof (zeroIfHidden_hidden h Hv) as Ez.
  unfold drawBars. generalize (zeroIfHidden h) Hwf Ez. clear Hwf Ez.
  intros z Hwf Ez.
  assert (Hbins : Forall (fun bin => (bin < bins)%nat) (seq 0 bins)).
  { apply Forall_forall. intros bin Hin. apply in_seq in Hin. lia. }
  induction Hbins as [|i binl Hi _ IH]; [reflexivity|].
  cbn [forEach].
  destruct (seriesCounts_total stats z i (seriesOrder z) Hwf Hi) as [counts Ec].
  { intros s. apply seriesOrder_registered. }
  rewrite (drawSeries_of_counts stats canvasY width z _ i _ _ 0 Ec).
  rewrite (stackBands_zeroed counts 0 (seriesCounts_zeroed z _ i _ _ Ez Ec)).
  cbn [map bind app]. exact IH.
Qed.

End Hidden.

(** ** The draw pass writes only to a hidden histogram *)

(** C8: a draw pass issues a write to the histogram counters if and only if
    the visibility flag is false.  In that case the write is one [fill(0)]:
    every counter is zero afterwards, the length is kept, and the view is
    drawn from the zeroed counters (so, on well-formed counters, without a
    single bar).  When the flag is true there is no write and the histogram
    leaves the pass as it entered it.  The registry, the flag and the fake
    chunk count are never touched. *)
Theorem updateView_writes_iff_hidden {K : Type} `{ScaleKey K}
    (stats : RenderScaleStatistics) (cls : WidgetClass)
    (heightModel : Z -> Z -> Z -> Z)
    (w : WidgetState) (h : RenderScaleHistogram K) (width height : Z) :
  let h' := fst (fst (updateView stats cls heightModel w h width height)) in
  let writes := snd (fst (updateView stats cls heightModel w h width height)) in
  let view := snd (updateView stats cls heightModel w h width height) in
  (writes <> [] <-> visible h = false)
  /\ value h' = fold_left applyWrite writes (value h)
  /\ (visible h = false ->
      writes = [Fill 0%N]
      /\ value h' = repeat 0%N (List.length (value h))
      /\ List.length (value h') = List.length (value h)
      /\ (forall index, countAt (value h') index = 0)
      /\ (wellFormed stats h ->
          forall canvasY hoverSpatialScale,
            drawBars stats canvasY width h' hoverSpatialScale = Ok []))
  /\ (visible h = true -> writes = [] /\ h' = h)
  /\ spatialScales h' = spatialScales h
  /\ visible h' = visible h
  /\ fakeChunkCount h' = fakeChunkCount h
  /\ view = drawView stats cls heightModel w h' width height.
Proof.
  cbn [updateView fst snd].
  split; [|split; [|split; [|split; [|split; [|split; [|split]]]]]];
    try reflexivity.
  - unfold hiddenWrites. destruct (visible h); split; congruence.
  - intros Hv. split; [|split; [|split; [|split]]].
    + unfold hiddenWrites. now rewrite Hv.
    + now apply zeroIfHidden_hidden.
    + rewrite zeroIfHidden_hidden by assumption. apply repeat_length.
    + intros index. rewrite zeroIfHidden_hidden by assumption.
      unfold countAt. destruct (Nat.lt_ge_cases index (List.length (value h))).
      * now rewrite nth_repeat_lt.
      * rewrite nth_overflow; [reflexivity|]. now rewrite repeat_length.
    + intros Hwf canvasY hoverSpatialScale. now apply drawBars_hidden.
  - intros Hv. split.
    + unfold hiddenWrites. now rewrite Hv.
    + now apply zeroIfHidden_visible.
Qed.

Lemma updateView_writes_iff_hidden_witness :
  let stats := {| numRenderScaleHistogramBins := 2;
                  renderScaleHistogramBinSize := 1;
                  renderScaleHistogramOrigin := 0;
                  getRenderScaleHistogramOffset := fun v _ => v;
                  getRenderScaleFromHistogramOffset := fun v _ => v |} in
  let w := {| target := 1; targetDefault := 1; hoverTarget := None |} in
  let h := {| value := [1; 0; 3; 0]%N;
              spatialScales := [(9%N, 0%nat)];
              visible := false;
              fakeChunkCount := 0 |} in
  visible h = false
  /\ value (fst (fst (updateView stats RenderScaleWidget
                        HeightModel.roundedCanvasY w h 20 100)))
     = [0; 0; 0; 0]%N.
Proof.
  intros stats w h. split; [reflexivity|].
  apply (updateView_writes_iff_hidden stats RenderScaleWidget
           HeightModel.roundedCanvasY w h 20 100).
  reflexivity.
Defined.

(** * Further properties *)

(** ** Rounding *)

Lemma Qfloor_unique (x : Q) (z : Z) :
  (inject_Z z <= x < inject_Z (z + 1))%Q -> Qfloor x = z.
Proof.
  intros [Hlo Hhi].
  pose proof (Qfloor_le x) as Flo. pose proof (Qlt_floor x) as Fhi.
  assert (H1 : (inject_Z (Qfloor x) < inject_Z (z + 1))%Q) by lra.
  assert (H2 : (inject_Z z < inject_Z (Qfloor x + 1))%Q) by lra.
  rewrite <- Zlt_Qlt in H1, H2. lia.
Qed.

Lemma Math_round_shift (z : Z) (q : Q) :
  JS.Math_round (inject_Z z + q) = z + JS.Math_round q.
Proof.
  unfold JS.Math_round. apply Qfloor_unique.
  pose proof (Qfloor_le (q + (1 # 2))) as Flo.
  pose proof (Qlt_floor (q + (1 # 2))) as Fhi.
  rewrite !inject_Z_plus in *. split; lra.
Qed.

Lemma Math_round_Z (z : Z) : JS.Math_round (inject_Z z) = z.
Proof.
  unfold JS.Math_round. apply Qfloor_unique.
  rewrite inject_Z_plus. change (inject_Z 1) with 1%Q. split; lra.
Qed.

Lemma Math_round_mono (x y : Q) :
  (x <= y)%Q -> JS.Math_round x <= JS.Math_round y.
Proof. intros Hxy. unfold JS.Math_round. apply Qfloor_resp_le. lra. Qed.

(** ** The wheel action, for both classes *)

Lemma clampToInterval_inside (lower upper value : Q) :
  (lower <= value <= upper)%Q ->
  (clampToInterval (lower, upper) value == value)%Q.
Proof.
  intros [Hlo Hhi]. unfold clampToInterval; cbn [fst snd].
  rewrite (Q.max_r lower value Hlo). now apply Q.min_l.
Qed.

Lemma clampToInterval_compat (range : Q * Q) (v v' : Q) :
  (v == v')%Q -> (clampToInterval range v == clampToInterval range v')%Q.
Proof. intros E. unfold clampToInterval. now rewrite E. Qed.

Section WheelRange.

Variable stats : RenderScaleStatistics.
Variable cls : WidgetClass.

Local Abbreviation lower := (JS.pow2 (logScaleOrigin stats cls)).
Local Abbreviation upper := (JS.pow2 (logScaleMax stats cls - 1)).

(** A histogram that spans half an octave or more leaves room between the
    two bounds of the wheel. *)
Lemma wheel_bounds_ordered :
  (1 # 2 <= inject_Z (Z.of_nat (numRenderScaleHistogramBins stats))
            * renderScaleHistogramBinSize stats)%Q ->
  (lower <= upper)%Q.
Proof.
  intros Hspan. apply pow2_le. unfold logScaleMax.
  rewrite Math_round_shift.
  assert (1 <= JS.Math_round
                 (inject_Z (Z.of_nat (numRenderScaleHistogramBins stats))
                  * renderScaleHistogramBinSize stats)).
  { change 1 with (JS.Math_round (1 # 2)) at 1. now apply Math_round_mono. }
  lia.
Qed.

Lemma adjustViaWheel_target_cases (w : WidgetState) (event : WheelEvent) :
  ((getWheelMoveValue cls event == 0)%Q
   /\ fst (adjustViaWheel stats cls w event) = w)
  \/ (~ (getWheelMoveValue cls event == 0)%Q
      /\ target (fst (adjustViaWheel stats cls w event))
         = clampToInterval (lower, upper)
             (target w
              * JS.pow2 (JS.Math_sign (getWheelMoveValue cls event)))%Q
      /\ hoverTarget (fst (adjustViaWheel stats cls w event)) = None
      /\ targetDefault (fst (adjustViaWheel stats cls w event)) = targetDefault w).
Proof.
  destruct (Qeq_dec (getWheelMoveValue cls event) 0) as [Hz|Hnz].
  - left. split; [exact Hz|]. now rewrite adjustViaWheel_zero.
  - right. split; [exact Hnz|]. now rewrite adjustViaWheel_nonzero.
Qed.

Lemma adjustViaWheel_keeps_range (w : WidgetState) (event : WheelEvent) :
  (lower <= upper)%Q ->
  (lower <= target w <= upper)%Q ->
  (lower <= target (fst (adjustViaWheel stats cls w event)) <= upper)%Q.
Proof.
  intros Hlu Hin.
  destruct (adjustViaWheel_target_cases w event) as [[_ ->]|(_ & -> & _)].
  - exact Hin.
  - now apply clampToInterval_bounds.
Qed.

End WheelRange.

(** X1: when the histogram spans at least half an octave
    ([bins * binSize >= 1/2]), the two bounds of the wheel are in order, and
    a target that lies between them stays between them under every
    sequence of wheel events, of any sign and size, zero included; this
    holds for both widget classes. *)
Theorem adjustAll_keeps_range
    (stats : RenderScaleStatistics) (cls : WidgetClass)
    (events : list WheelEvent) (w : WidgetState)
    (Hspan : (1 # 2 <= inject_Z (Z.of_nat (numRenderScaleHistogramBins stats))
                       * renderScaleHistogramBinSize stats)%Q)
    (Hin : (JS.pow2 (logScaleOrigin stats cls) <= target w
            <= JS.pow2 (logScaleMax stats cls - 1))%Q) :
  (JS.pow2 (logScaleOrigin stats cls) <= JS.pow2 (logScaleMax stats cls - 1))%Q
  /\ (JS.pow2 (logScaleOrigin stats cls)
      <= target (adjustAll stats cls events w)
      <= JS.pow2 (logScaleMax stats cls - 1))%Q.
Proof.
  pose proof (wheel_bounds_ordered stats cls Hspan) as Hlu.
  split; [exact Hlu|].
  revert w Hin. unfold adjustAll.
  induction events as [|event events IH]; intros w Hin; cbn [fold_left].
  - exact Hin.
  - apply IH. now apply adjustViaWheel_keeps_range.
Qed.

Lemma adjustAll_keeps_range_witness :
  let stats := {| numRenderScaleHistogramBins := 40;
                  renderScaleHistogramBinSize := 1 # 2;
                  renderScaleHistogramOrigin := -4;
                  getRenderScaleHistogramOffset := fun v _ => v;
                  getRenderScaleFromHistogramOffset := fun v _ => v |} in
  let w := {| target := 4; targetDefault := 1; hoverTarget := None |} in
  let events := [ {| deltaY := 3; defaultPrevented := false |};
                  {| deltaY := 0; defaultPrevented := false |};
                  {| deltaY := -(120); defaultPrevented := false |} ] in
  (2 <= target (adjustAll stats VolumeRenderingRenderScaleWidget events w)
   <= 2 ^ 20)%Q.
Proof.
  intros stats w events.
  apply (adjustAll_keeps_range stats VolumeRenderingRenderScaleWidget events w).
  - apply Qle_bool_iff. reflexivity.
  - split; apply Qle_bool_iff; reflexivity.
Defined.

(** X2: one notch up followed by one notch down (and one down followed by
    one up) gives back the target, whenever the doubled (halved) target is
    still between the bounds: the clamp is then not felt.  Up and down are
    taken as the widget class reads the wheel. *)
Theorem adjustViaWheel_up_down
    (stats : RenderScaleStatistics) (cls : WidgetClass)
    (w : WidgetState) (up down : WheelEvent)
    (Hup : (0 < getWheelMoveValue cls up)%Q)
    (Hdown : (getWheelMoveValue cls down < 0)%Q)
    (Hlower : (JS.pow2 (logScaleOrigin stats cls) <= target w)%Q) :
  let lower := JS.pow2 (logScaleOrigin stats cls) in
  let upper := JS.pow2 (logScaleMax stats cls - 1) in
  let after e w' := fst (adjustViaWheel stats cls w' e) in
  ((2 * target w <= upper)%Q ->
     (target (after up w) == 2 * target w)%Q
     /\ (target (after down (after up w)) == target w)%Q)
  /\ ((lower <= target w / 2)%Q -> (target w <= upper)%Q ->
       (target (after down w) == target w / 2)%Q
       /\ (target (after up (after down w)) == target w)%Q).
Proof.
  intros lower upper after. subst after. cbv beta.
  pose proof (pow2_pos (logScaleOrigin stats cls)) as Hpos. fold lower in Hpos.
  assert (Eup : forall w',
             (target (fst (adjustViaWheel stats cls w' up))
              == clampToInterval (lower, upper) (target w' * 2))%Q).
  { intros w'. rewrite adjustViaWheel_nonzero by lra.
    cbn [fst target]. rewrite (Math_sign_pos _ Hup). reflexivity. }
  assert (Edown : forall w',
             (target (fst (adjustViaWheel stats cls w' down))
              == clampToInterval (lower, upper) (target w' * (1 # 2)))%Q).
  { intros w'. rewrite adjustViaWheel_nonzero by lra.
    cbn [fst target]. rewrite (Math_sign_neg _ Hdown). reflexivity. }
  fold lower in Hlower. split.
  - intros Hroom.
    assert (E1 : (target (fst (adjustViaWheel stats cls w up)) == 2 * target w)%Q).
    { rewrite Eup. rewrite clampToInterval_inside; lra. }
    split; [exact E1|].
    rewrite Edown. rewrite (clampToInterval_compat _ _ (target w)) by (rewrite E1; lra).
    apply clampToInterval_inside. lra.
  - intros Hroom Hupper.
    assert (Hhalf : (target w / 2 == target w * (1 # 2))%Q) by field.
    assert (E1 : (target (fst (adjustViaWheel stats cls w down)) == target w / 2)%Q).
    { rewrite Edown. rewrite clampToInterval_inside; lra. }
    split; [exact E1|].
    rewrite Eup. rewrite (clampToInterval_compat _ _ (target w)) by (rewrite E1; lra).
    apply clampToInterval_inside. lra.
Qed.

Lemma adjustViaWheel_up_down_witness :
  let stats := {| numRenderScaleHistogramBins := 40;
                  renderScaleHistogramBinSize := 1 # 2;
                  renderScaleHistogramOrigin := -4;
                  getRenderScaleHistogramOffset := fun v _ => v;
                  getRenderScaleFromHistogramOffset := fun v _ => v |} in
  let w := {| target := 3; targetDefault := 1; hoverTarget := None |} in
  let up := {| deltaY := 7; defaultPrevented := false |} in
  let down := {| deltaY := -(2); defaultPrevented := false |} in
  (target (fst (adjustViaWheel stats RenderScaleWidget
                  (fst (adjustViaWheel stats RenderScaleWidget w up)) down))
   == 3)%Q.
Proof.
  intros stats w up down.
  assert (Hup : (0 < getWheelMoveValue RenderScaleWidget up)%Q) by reflexivity.
  assert (Hdown : (getWheelMoveValue RenderScaleWidget down < 0)%Q) by reflexivity.
  assert (Hlower : (JS.pow2 (logScaleOrigin stats RenderScaleWidget) <= target w)%Q)
    by (apply Qle_bool_iff; reflexivity).
  pose proof (adjustViaWheel_up_down stats RenderScaleWidget w up down
                Hup Hdown Hlower) as T.
  cbv zeta in T. destruct T as [T _].
  apply T. apply Qle_bool_iff. reflexivity.
Defined.

(** X3: only the sign of the wheel delta is used: two wheel events whose
    deltas have the same sign leave the widget in the same state, whatever
    their sizes. *)
Theorem adjustViaWheel_sign_only
    (stats : RenderScaleStatistics) (cls : WidgetClass)
    (w : WidgetState) (e1 e2 : WheelEvent)
    (Hsign : JS.Math_sign (deltaY e1) = JS.Math_sign (deltaY e2)) :
  fst (adjustViaWheel stats cls w e1) = fst (adjustViaWheel stats cls w e2).
Proof.
  assert (Hmove : JS.Math_sign (getWheelMoveValue cls e1)
                  = JS.Math_sign (getWheelMoveValue cls e2)).
  { destruct cls; cbn [getWheelMoveValue]; [exact Hsign|].
    revert Hsign. unfold JS.Math_sign.
    destruct (Qcompare_spec (deltaY e1) 0), (Qcompare_spec (deltaY e2) 0);
      try discriminate; intros _;
      destruct (Qcompare_spec (- deltaY e1) 0), (Qcompare_spec (- deltaY e2) 0);
      try reflexivity; exfalso; lra. }
  destruct (Qeq_dec (getWheelMoveValue cls e1) 0) as [Hz|Hnz].
  - assert (Hz2 : (getWheelMoveValue cls e2 == 0)%Q).
    { apply Math_sign_zero. rewrite <- Hmove. now apply Math_sign_zero. }
    now rewrite !adjustViaWheel_zero.
  - assert (Hnz2 : ~ (getWheelMoveValue cls e2 == 0)%Q).
    { intros Hz2. apply Hnz. apply Math_sign_zero. rewrite Hmove.
      now apply Math_sign_zero. }
    rewrite !adjustViaWheel_nonzero by assumption. cbn [fst].
    now rewrite Hmove.
Qed.

Lemma adjustViaWheel_sign_only_witness :
  let stats := {| numRenderScaleHistogramBins := 40;
                  renderScaleHistogramBinSize := 1 # 2;
                  renderScaleHistogramOrigin := -4;
                  getRenderScaleHistogramOffset := fun v _ => v;
                  getRenderScaleFromHistogramOffset := fun v _ => v |} in
  let w := {| target := 3; targetDefault := 1; hoverTarget := Some (1, 5)%Q |} in
  fst (adjustViaWheel stats RenderScaleWidget w
         {| deltaY := 1; defaultPrevented := false |})
  = fst (adjustViaWheel stats RenderScaleWidget w
           {| deltaY := 250; defaultPrevented := true |}).
Proof.
  intros stats w.
  apply (adjustViaWheel_sign_only stats RenderScaleWidget w).
  reflexivity.
Defined.

(** X4: the two classes read the wheel in opposite directions.  With the
    target between the bounds, a positive [deltaY] never lowers the target
    of [RenderScaleWidget] and never raises that of
    [VolumeRenderingRenderScaleWidget]; a negative one does the reverse. *)
Theorem adjustViaWheel_direction
    (stats : RenderScaleStatistics) (cls : WidgetClass)
    (w : WidgetState) (event : WheelEvent)
    (Hin : (JS.pow2 (logScaleOrigin stats cls) <= target w
            <= JS.pow2 (logScaleMax stats cls - 1))%Q) :
  let target' := target (fst (adjustViaWheel stats cls w event)) in
  ((0 < deltaY event)%Q ->
     match cls with
     | RenderScaleWidget => (target w <= target')%Q
     | VolumeRenderingRenderScaleWidget => (target' <= target w)%Q
     end)
  /\ ((deltaY event < 0)%Q ->
       match cls with
       | RenderScaleWidget => (target' <= target w)%Q
       | VolumeRenderingRenderScaleWidget => (target w <= target')%Q
       end).
Proof.
  intros target'. subst target'.
  pose proof (pow2_pos (logScaleOrigin stats cls)) as Hpos.
  assert (Hup : (0 < getWheelMoveValue cls event)%Q ->
                (target w <= target (fst (adjustViaWheel stats cls w event)))%Q).
  { intros Hm. rewrite adjustViaWheel_nonzero by lra. cbn [fst target].
    rewrite (Math_sign_pos _ Hm). change (JS.pow2 1) with 2%Q.
    unfold clampToInterval; cbn [fst snd]. qminmax; lra. }
  assert (Hdown : (getWheelMoveValue cls event < 0)%Q ->
                  (target (fst (adjustViaWheel stats cls w event)) <= target w)%Q).
  { intros Hm. rewrite adjustViaWheel_nonzero by lra. cbn [fst target].
    rewrite (Math_sign_neg _ Hm). change (JS.pow2 (-1)) with (1 # 2)%Q.
    unfold clampToInterval; cbn [fst snd]. qminmax; lra. }
  destruct cls; cbn [getWheelMoveValue] in Hup, Hdown; split; intros Hd.
  - apply Hup. exact Hd.
  - apply Hdown. exact Hd.
  - apply Hdown. lra.
  - apply Hup. lra.
Qed.

Lemma adjustViaWheel_direction_witness :
  let stats := {| numRenderScaleHistogramBins := 40;
                  renderScaleHistogramBinSize := 1 # 2;
                  renderScaleHistogramOrigin := -4;
                  getRenderScaleHistogramOffset := fun v _ => v;
                  getRenderScaleFromHistogramOffset := fun v _ => v |} in
  let w := {| target := 8; targetDefault := 1; hoverTarget := None |} in
  let event := {| deltaY := 100; defaultPrevented := false |} in
  (target (fst (adjustViaWheel stats VolumeRenderingRenderScaleWidget w event))
   <= 8)%Q.
Proof.
  intros stats w event.
  refine (proj1 (adjustViaWheel_direction stats VolumeRenderingRenderScaleWidget
                   w event _) _).
  - split; apply Qle_bool_iff; reflexivity.
  - reflexivity.
Defined.

(** ** Pointer actions *)



Lemma divideBy_nonzero (numerator : Q) (denominator : Z) :
  denominator <> 0 ->
  divideBy numerator denominator = Ok (numerator / inject_Z denominator)%Q.
Proof.
  intros Hd. unfold divideBy.
  destruct (Z.eqb_spec denominator 0); [contradiction|reflexivity].
Qed.

Lemma getTargetValue_Ok (stats : RenderScaleStatistics) (cls : WidgetClass)
    (canvasWidth : Z) (event : MouseEvent) :
  canvasWidth <> 0 ->
  getTargetValue stats cls canvasWidth event
  = Ok (getRenderScaleFromHistogramOffset stats
          (offsetX event / inject_Z canvasWidth
           * inject_Z (Z.of_nat (numRenderScaleHistogramBins stats)))%Q
          (logScaleOrigin stats cls)).
Proof.
  intros Hw. unfold getTargetValue. now rewrite divideBy_nonzero.
Qed.

Lemma perform_keeps_default (stats : RenderScaleStatistics) (cls : WidgetClass)
    (canvasWidth : Z) (w w' : WidgetState) (action : Action) :
  perform stats cls canvasWidth w action = Ok w' ->
  targetDefault w' = targetDefault w.
Proof.
  destruct action as [event| |event|event|]; cbn [perform].
  - unfold pointerMove. intros E. bind_inv E. now injection E as <-.
  - now intros [= <-].
  - unfold setAction. intros E. bind_inv E. now injection E as <-.
  - intros [= <-].
    destruct (adjustViaWheel_target_cases stats cls w event)
      as [[_ ->]|(_ & _ & _ & E)]; [reflexivity|exact E].
  - now intros [= <-].
Qed.

Lemma perform_total (stats : RenderScaleStatistics) (cls : WidgetClass)
    (canvasWidth : Z) (w : WidgetState) (action : Action) :
  canvasWidth <> 0 -> exists w', perform stats cls canvasWidth w action = Ok w'.
Proof.
  intros Hw. destruct action as [event| |event|event|]; cbn [perform]; eauto.
  - unfold pointerMove. rewrite getTargetValue_Ok by assumption. cbn. eauto.
  - unfold setAction. rewrite getTargetValue_Ok by assumption. cbn. eauto.
Qed.

(** X5: on a canvas of non-zero width every sequence of pointer moves,
    pointer leaves, clicks, wheel events and resets is carried out, and none
    of them touches the default of the target: a reset at the end gives the
    state a reset at the beginning would have given, with the target at its
    default and no hover probe. *)
Theorem reset_after_any_actions
    (stats : RenderScaleStatistics) (cls : WidgetClass) (canvasWidth : Z)
    (actions : list Action) (w : WidgetState)
    (Hwidth : canvasWidth <> 0) :
  exists w',
    performAll stats cls canvasWidth actions w = Ok w'
    /\ targetDefault w' = targetDefault w
    /\ reset w' = reset w
    /\ target (reset w') = targetDefault w
    /\ hoverTarget (reset w') = None
    /\ reset (reset w') = reset w'.
Proof.
  assert (Hall : exists w', performAll stats cls canvasWidth actions w = Ok w'
                            /\ targetDefault w' = targetDefault w).
  { unfold performAll. revert w.
    induction actions as [|action actions IH]; intros w; cbn [forEach].
    - eauto.
    - destruct (perform_total stats cls canvasWidth w action Hwidth) as [w1 E1].
      rewrite E1. cbn [bind]. destruct (IH w1) as (w' & E & Hd).
      exists w'. split; [exact E|].
      rewrite Hd. now apply (perform_keeps_default stats cls canvasWidth w w1 action). }
  destruct Hall as (w' & E & Hd). exists w'.
  split; [exact E|]. split; [exact Hd|].
  unfold reset. cbn. rewrite Hd. repeat split.
Qed.

Lemma reset_after_any_actions_witness :
  let stats := {| numRenderScaleHistogramBins := 40;
                  renderScaleHistogramBinSize := 1 # 2;
                  renderScaleHistogramOrigin := -4;
                  getRenderScaleHistogramOffset := fun v _ => v;
                  getRenderScaleFromHistogramOffset := fun v _ => v |} in
  let w := {| target := 3; targetDefault := 1; hoverTarget := None |} in
  let actions := [ PointerMove {| offsetX := 30; offsetY := 12 |};
                   SetTarget {| offsetX := 30; offsetY := 12 |};
                   Wheel {| deltaY := -(5); defaultPrevented := false |} ] in
  exists w',
    performAll stats RenderScaleWidget 200 actions w = Ok w'
    /\ target (reset w') = 1%Q.
Proof.
  intros stats w actions.
  destruct (reset_after_any_actions stats RenderScaleWidget 200 actions w
              ltac:(discriminate))
    as (w' & E & _ & _ & Ht & _).
  exists w'. split; [exact E|exact Ht].
Defined.

Section PointerColumn.

Variable stats : RenderScaleStatistics.
Variable cls : WidgetClass.
Variable width : Z.
Hypothesis width_pos : 0 < width.
Hypothesis bins_pos : (0 < numRenderScaleHistogramBins stats)%nat.

(** The two conversion functions undo each other, the contract they are
    used under. *)
Hypothesis offset_of_value :
  forall position : Q,
    (getRenderScaleHistogramOffset stats
       (getRenderScaleFromHistogramOffset stats position (logScaleOrigin stats cls))
       (logScaleOrigin stats cls)
     == position)%Q.

Local Abbreviation bins := (numRenderScaleHistogramBins stats).




End PointerColumn.





(** ** The bars of a draw pass *)

Lemma sumZ_app (l1 l2 : list Z) : sumZ (l1 ++ l2) = sumZ l1 + sumZ l2.
Proof.
  induction l1 as [|a l1 IH]; [reflexivity|].
  cbn [app]. rewrite !sumZ_cons, IH. lia.
Qed.

Lemma sumZ_perm (l1 l2 : list Z) : Permutation l1 l2 -> sumZ l1 = sumZ l2.
Proof.
  induction 1 as [|a l1 l2 _ IH|a b l|l1 l2 l3 _ IH1 _ IH2];
    rewrite ?sumZ_cons; lia.
Qed.

Section Bars.

Context {K : Type} `{ScaleKey K}.
Variable stats : RenderScaleStatistics.
Variable canvasY : Z -> Z.
Variable width : Z.

Local Abbreviation bins := (numRenderScaleHistogramBins stats).

(** What holds for the bands of every bin holds for the bars of the pass. *)
Lemma drawBars_Forall (P : DrawnBand K -> Prop) (h : RenderScaleHistogram K)
    (hoverSpatialScale : option K) (bands : list (DrawnBand K)) :
  (forall i counts,
     (i < bins)%nat ->
     seriesCounts stats h i (seriesOrder h) = Ok counts ->
     Forall P (map (drawnOf stats width hoverSpatialScale i)
                 (stackBands canvasY counts 0))) ->
  drawBars stats canvasY width h hoverSpatialScale = Ok bands ->
  Forall P bands.
Proof.
  intros Hbin. unfold drawBars.
  assert (Hnil : Forall P []) by constructor.
  assert (Hbins : Forall (fun i => (i < bins)%nat) (seq 0 bins)).
  { apply Forall_forall. intros i Hin. apply in_seq in Hin. lia. }
  revert Hnil. generalize (@nil (DrawnBand K)). revert bands.
  induction Hbins as [|i binl Hi _ IH]; intros bands drawn Hd E.
  - injection E as <-. exact Hd.
  - cbn [forEach] in E. bind_inv E. bind_inv E0. injection E0 as <-.
    assert (Hnew : Forall P a0).
    { destruct (drawSeries_Ok _ _ _ _ _ _ _ _ _ E1) as [counts Ec].
      rewrite (drawSeries_of_counts _ _ _ _ _ _ _ _ 0 Ec) in E1.
      injection E1 as <-. now apply Hbin. }
    apply (IH _ _ (proj2 (Forall_app _ _ _) (conj Hd Hnew)) E).
Qed.

Lemma columnEdge_mono (i j : nat) :
  0 <= width -> (0 < bins)%nat -> (i <= j)%nat ->
  columnEdge stats width i <= columnEdge stats width j.
Proof.
  intros Hw Hb Hij. unfold columnEdge. apply Math_round_mono.
  unfold binToCanvasX.
  assert (HB : (0 < inject_Z (Z.of_nat bins))%Q).
  { change 0%Q with (inject_Z 0). rewrite <- Zlt_Qlt. lia. }
  assert (HW : (0 <= inject_Z width)%Q).
  { change 0%Q with (inject_Z 0). now rewrite <- Zle_Qle. }
  assert (HI : (inject_Z (Z.of_nat i) <= inject_Z (Z.of_nat j))%Q).
  { rewrite <- Zle_Qle. lia. }
  apply Qle_shift_div_l; [exact HB|].
  assert (E : (inject_Z (Z.of_nat i) * inject_Z width / inject_Z (Z.of_nat bins)
               * inject_Z (Z.of_nat bins)
               == inject_Z (Z.of_nat i) * inject_Z width)%Q) by (field; lra).
  rewrite E. nra.
Qed.

Lemma columnEdge_first : columnEdge stats width 0 = 0.
Proof.
  unfold columnEdge, binToCanvasX, JS.Math_round. apply Qfloor_unique.
  cbn [Z.of_nat]. change (inject_Z 0) with 0%Q.
  change (inject_Z (0 + 1)) with 1%Q.
  assert (E : (0 * inject_Z width / inject_Z (Z.of_nat bins) == 0)%Q).
  { unfold Qdiv. ring. }
  rewrite E. split; lra.
Qed.

Lemma columnEdge_last : (0 < bins)%nat -> columnEdge stats width bins = width.
Proof.
  intros Hb. unfold columnEdge, binToCanvasX.
  assert (HB : (0 < inject_Z (Z.of_nat bins))%Q).
  { change 0%Q with (inject_Z 0). rewrite <- Zlt_Qlt. lia. }
  assert (E : (inject_Z (Z.of_nat bins) * inject_Z width / inject_Z (Z.of_nat bins)
               == inject_Z width)%Q) by (field; lra).
  unfold JS.Math_round. rewrite E. apply (Math_round_Z width).
Qed.

Lemma drawnOf_columns (hoverSpatialScale : option K) (i : nat) (b : Band K) :
  let d := drawnOf stats width hoverSpatialScale i b in
  rectX (notPresentRect d) = columnEdge stats width i
  /\ rectX (presentRect d) = columnEdge stats width i
  /\ rectX (notPresentRect d) + rectW (notPresentRect d)
     = columnEdge stats width (S i)
  /\ rectX (presentRect d) + rectW (presentRect d)
     = columnEdge stats width (S i).
Proof.
  cbv zeta. unfold drawnOf. cbn [notPresentRect presentRect rectX rectW].
  unfold columnEdge. rewrite Nat2Z.inj_succ.
  replace (Z.succ (Z.of_nat i)) with (Z.of_nat i + 1) by lia.
  repeat split; lia.
Qed.

End Bars.

(** X8: the columns of the bins tile the canvas.  With at least one bin and
    a non-negative width, the column edges [round(i * width / bins)] start
    at [0], end at [width] and never decrease; both rectangles of every band
    drawn in bin [i] run from edge [i] to edge [i + 1], so the bars of
    neighbouring bins share an edge and every bar lies between the columns
    [0] and [width]. *)
Theorem drawBars_columns_tile {K : Type} `{ScaleKey K}
    (stats : RenderScaleStatistics) (canvasY : Z -> Z) (width : Z)
    (h : RenderScaleHistogram K) (hoverSpatialScale : option K)
    (Hwidth : 0 <= width)
    (Hbins : (0 < numRenderScaleHistogramBins stats)%nat) :
  columnEdge stats width 0 = 0
  /\ columnEdge stats width (numRenderScaleHistogramBins stats) = width
  /\ (forall i j, (i <= j)%nat ->
        columnEdge stats width i <= columnEdge stats width j)
  /\ (forall i bands,
        drawSeries stats canvasY width h hoverSpatialScale i (seriesOrder h) 0
          = Ok bands ->
        Forall (fun d =>
                  rectX (notPresentRect d) = columnEdge stats width i
                  /\ rectX (presentRect d) = columnEdge stats width i
                  /\ rectX (notPresentRect d) + rectW (notPresentRect d)
                     = columnEdge stats width (S i)
                  /\ rectX (presentRect d) + rectW (presentRect d)
                     = columnEdge stats width (S i))
          bands)
  /\ (forall bands,
        drawBars stats canvasY width h hoverSpatialScale = Ok bands ->
        Forall (fun d => withinColumns width (notPresentRect d)
                         /\ withinColumns width (presentRect d))
          bands).
Proof.
  split; [apply columnEdge_first|].
  split; [now apply columnEdge_last|].
  split; [intros i j Hij; now apply columnEdge_mono|].
  split.
  - intros i bands E.
    destruct (drawSeries_Ok _ _ _ _ _ _ _ _ _ E) as [counts Ec].
    rewrite (drawSeries_of_counts _ _ _ _ _ _ _ _ 0 Ec) in E. injection E as <-.
    apply Forall_map, Forall_forall. intros b _.
    apply drawnOf_columns.
  - intros bands E.
    apply (drawBars_Forall stats canvasY width _ h hoverSpatialScale bands);
      [|exact E].
    intros i counts Hi _. apply Forall_map, Forall_forall. intros b _.
    destruct (drawnOf_columns stats width hoverSpatialScale i b)
      as (X1 & X2 & X3 & X4).
    pose proof (columnEdge_mono stats width 0 i Hwidth Hbins ltac:(lia)) as M0.
    pose proof (columnEdge_mono stats width i (S i) Hwidth Hbins ltac:(lia)) as M1.
    pose proof (columnEdge_mono stats width (S i) _ Hwidth Hbins
                  (proj1 (Nat.le_succ_l _ _) Hi)) as M2.
    rewrite (columnEdge_first stats width) in M0.
    rewrite (columnEdge_last stats width Hbins) in M2.
    unfold withinColumns. cbv zeta in *. lia.
Qed.

Lemma drawBars_columns_tile_witness :
  let stats := {| numRenderScaleHistogramBins := 3;
                  renderScaleHistogramBinSize := 1;
                  renderScaleHistogramOrigin := 0;
                  getRenderScaleHistogramOffset := fun v _ => v;
                  getRenderScaleFromHistogramOffset := fun v _ => v |} in
  let h := {| value := [1; 0; 2; 0; 0; 0]%N;
              spatialScales := [(9%N, 0%nat)];
              visible := true;
              fakeChunkCount := 0 |} in
  columnEdge stats 20 0 = 0
  /\ columnEdge stats 20 1 = 7
  /\ columnEdge stats 20 3 = 20
  /\ exists bands,
       drawBars stats (HeightModel.roundedCanvasY 100 2) 20 h None = Ok bands
       /\ Forall (fun d => withinColumns 20 (notPresentRect d)
                           /\ withinColumns 20 (presentRect d)) bands.
Proof.
  intros stats h.
  pose proof (drawBars_columns_tile stats (HeightModel.roundedCanvasY 100 2) 20 h None
                ltac:(lia) ltac:(cbn; lia)) as (T0 & Tlast & _ & _ & Tin).
  split; [exact T0|]. split; [reflexivity|]. split; [exact Tlast|].
  destruct (drawBars_total stats (HeightModel.roundedCanvasY 100 2) 20 h None)
    as [bands E].
  { split; [cbn; lia|]. repeat constructor. }
  exists bands. split; [exact E|]. now apply Tin.
Defined.

(** ** The height of a stack *)

Section Conservation.

Context {K : Type} `{ScaleKey K}.
Variable stats : RenderScaleStatistics.
Variable canvasY : Z -> Z.

Local Abbreviation bins := (numRenderScaleHistogramBins stats).
Local Abbreviation countOf := (fun c : K * Z * Z => snd (fst c) + snd c).

Lemma Map_get_NoDup (m : list (K * nat)) (spatialScale : K) (row : nat) :
  NoDup (map fst m) -> In (spatialScale, row) m ->
  Map_get m spatialScale = Ok row.
Proof.
  induction m as [|[k r] m IH]; cbn [map fst Map_get]; [intros _ []|].
  intros Hnd Hin. inversion Hnd as [|? ? Hnotin Hnd']; subst.
  destruct Hin as [[= -> ->]|Hin].
  - assert (E : key_eqb spatialScale spatialScale = true) by now apply key_eqb_eq.
    now rewrite E.
  - destruct (key_eqb k spatialScale) eqn:E.
    + apply key_eqb_eq in E. subst k. exfalso. apply Hnotin.
      apply (in_map fst) in Hin. exact Hin.
    + now apply IH.
Qed.

Lemma seriesCounts_cells (h : RenderScaleHistogram K) (i : nat)
    (series : list K) (counts : list (K * Z * Z)) :
  seriesCounts stats h i series = Ok counts ->
  map countOf counts = map (keyCell stats h i) series.
Proof.
  revert counts. induction series as [|k rest IH]; intros counts E.
  - injection E as <-. reflexivity.
  - cbn [seriesCounts] in E. do 4 bind_inv E. injection E as <-.
    cbn [map fst snd]. rewrite (IH _ E3). f_equal.
    unfold keyCell. rewrite E0.
    apply readCount_Ok in E1 as [-> _]. apply readCount_Ok in E2 as [-> _].
    reflexivity.
Qed.

(** Read through a registry that gives every row to one key, the counts
    of the series of a bin add up to the count of the bin. *)
Lemma keyCells_binTotal (h : RenderScaleHistogram K) (i : nat) :
  registryBijective h ->
  sumZ (map (keyCell stats h i) (seriesOrder h)) = binTotal stats h i.
Proof.
  intros [Hnd Hrows].
  destruct (seriesOrder_descending h) as [_ Hp].
  rewrite (sumZ_perm _ _ (Permutation_map (keyCell stats h i) Hp)).
  rewrite map_map.
  assert (E : map (fun e => keyCell stats h i (fst e)) (spatialScales h)
              = map (fun row => presentAt stats (value h) row i
                                + notPresentAt stats (value h) row i)
                  (map snd (spatialScales h))).
  { rewrite map_map. apply map_ext_in. intros [k r] Hin. cbn [fst snd].
    unfold keyCell. now rewrite (Map_get_NoDup _ _ _ Hnd Hin). }
  rewrite E. unfold binTotal.
  apply sumZ_perm. now apply Permutation_map.
Qed.

Lemma stackBands_total (counts : list (K * Z * Z)) (sum : Z) :
  sumZ (map (fun b => bandPresent b + bandNotPresent b)
          (stackBands canvasY counts sum))
  = sumZ (map countOf counts).
Proof.
  revert sum. induction counts as [|[[k p] a] counts IH]; intros sum;
    cbn [stackBands map]; [reflexivity|].
  rewrite sumZ_cons. cbn [fst snd].
  destruct (Z.eqb_spec (p + a) 0) as [Ez|Ez].
  - rewrite IH. lia.
  - cbn [map]. rewrite sumZ_cons. cbn [bandPresent bandNotPresent].
    now rewrite IH.
Qed.

(** Every band of a stack lies between the running sum it was laid on and
    the sum of all the counts. *)
Lemma stackBands_between (counts : list (K * Z * Z)) (sum : Z) :
  Forall (fun c => 0 <= snd (fst c) /\ 0 <= snd c) counts ->
  Forall (fun b => exists below above,
                     bandStart b = canvasY below /\ bandEnd b = canvasY above
                     /\ sum <= below /\ below <= above
                     /\ above <= sum + sumZ (map countOf counts))
    (stackBands canvasY counts sum).
Proof.
  intros Hc. revert sum.
  induction Hc as [|[[k p] a] counts [Hp Ha] Hc IH]; intros sum;
    cbn [stackBands map]; [constructor|].
  rewrite sumZ_cons. cbn [fst snd] in *.
  assert (Hrest : 0 <= sumZ (map countOf counts)).
  { clear IH. induction Hc as [|c counts [Hp' Ha'] _ IHc]; cbn [map];
      [cbn; lia|]. rewrite sumZ_cons. lia. }
  destruct (Z.eqb_spec (p + a) 0) as [Ez|Ez].
  - eapply Forall_impl; [|apply (IH sum)].
    intros b (below & above & Es & Ee & H1 & H2 & H3).
    exists below, above. repeat split; try assumption; lia.
  - constructor.
    + exists sum, (sum + (p + a)). cbn. repeat split; lia.
    + eapply Forall_impl; [|apply (IH (sum + (p + a)))].
      intros b (below & above & Es & Ee & H1 & H2 & H3).
      exists below, above. repeat split; try assumption; lia.
Qed.

Lemma binTotal_le_maxCount (h : RenderScaleHistogram K) (i : nat) :
  (i < bins)%nat -> binTotal stats h i <= maxCount_spec stats h.
Proof.
  intros Hi. unfold maxCount_spec.
  assert (Hin : In i (seq 0 bins)) by (apply in_seq; lia).
  induction (seq 0 bins) as [|j l IH]; [destruct Hin|].
  cbn [map fold_right]. destruct Hin as [->|Hin]; [lia|].
  specialize (IH Hin). lia.
Qed.

End Conservation.

(** X9: in every bin the renderer accounts for every chunk once.  When the
    registry gives each of the rows [0 .. numRows - 1] to one key, the
    divisors (present + not-present counts) of the bands drawn in a bin add
    up to the count of that bin summed across all rows, the count the
    height model takes its maximum over. *)
Theorem drawSeries_conserves_bin_count {K : Type} `{ScaleKey K}
    (stats : RenderScaleStatistics) (canvasY : Z -> Z) (width : Z)
    (h : RenderScaleHistogram K) (hoverSpatialScale : option K)
    (i : nat) (bands : list (DrawnBand K))
    (Hregistry : registryBijective h)
    (Hdrawn : drawSeries stats canvasY width h hoverSpatialScale i
                (seriesOrder h) 0 = Ok bands) :
  sumZ (map divisor bands) = binTotal stats h i.
Proof.
  destruct (drawSeries_Ok _ _ _ _ _ _ _ _ _ Hdrawn) as [counts Ec].
  rewrite (drawSeries_of_counts _ _ _ _ _ _ _ _ 0 Ec) in Hdrawn.
  injection Hdrawn as <-. rewrite map_map.
  change (fun x : Band K => divisor (drawnOf stats width hoverSpatialScale i x))
    with (fun b : Band K => bandPresent b + bandNotPresent b).
  rewrite stackBands_total, (seriesCounts_cells stats h i _ _ Ec).
  now apply keyCells_binTotal.
Qed.

Lemma drawSeries_conserves_bin_count_witness :
  let stats := {| numRenderScaleHistogramBins := 2;
                  renderScaleHistogramBinSize := 1;
                  renderScaleHistogramOrigin := 0;
                  getRenderScaleHistogramOffset := fun v _ => v;
                  getRenderScaleFromHistogramOffset := fun v _ => v |} in
  let h := {| value := [1; 0; 3; 0; 2; 5; 0; 1]%N;
              spatialScales := [(9%N, 1%nat); (10%N, 0%nat)];
              visible := true;
              fakeChunkCount := 0 |} in
  exists bands,
    drawSeries stats (HeightModel.roundedCanvasY 100 6) 20 h None 0
      (seriesOrder h) 0 = Ok bands
    /\ sumZ (map divisor bands) = 6.
Proof.
  intros stats h.
  assert (Ec : seriesCounts stats h 0 (seriesOrder h)
               = Ok [(9%N, 2, 0); (10%N, 1, 3)]) by reflexivity.
  pose proof (drawSeries_of_counts stats (HeightModel.roundedCanvasY 100 6) 20 h
                None 0 _ _ 0 Ec) as E.
  eexists. split; [exact E|].
  rewrite (drawSeries_conserves_bin_count stats _ 20 h None 0 _
             ltac:(split; [repeat constructor; cbn; intuition discriminate
                          |apply perm_swap])
             E).
  reflexivity.
Defined.

Lemma ySplit_between (presentCount notPresentCount yStart yEnd : Z) :
  0 <= presentCount -> 0 <= notPresentCount ->
  0 < presentCount + notPresentCount -> yEnd <= yStart ->
  (inject_Z yEnd
   <= inject_Z (splitNumerator presentCount notPresentCount yStart yEnd)
      / inject_Z (presentCount + notPresentCount)
   <= inject_Z yStart)%Q.
Proof.
  intros Hp Ha Hc Hes. unfold splitNumerator.
  rewrite !inject_Z_plus, !inject_Z_mult.
  apply split_between.
  - change 0%Q with (inject_Z 0). now rewrite <- Zle_Qle.
  - change 0%Q with (inject_Z 0). now rewrite <- Zle_Qle.
  - rewrite <- inject_Z_plus. change 0%Q with (inject_Z 0). now rewrite <- Zlt_Qlt.
  - now rewrite <- Zle_Qle.
Qed.

Lemma drawnOf_rows {K : Type} `{ScaleKey K} (stats : RenderScaleStatistics)
    (width height : Z) (hoverSpatialScale : option K) (i : nat) (b : Band K) :
  0 <= bandPresent b -> 0 <= bandNotPresent b ->
  0 < bandPresent b + bandNotPresent b ->
  0 <= bandEnd b -> bandEnd b <= bandStart b -> bandStart b <= height ->
  withinRows height (notPresentRect (drawnOf stats width hoverSpatialScale i b))
  /\ withinRows height (presentRect (drawnOf stats width hoverSpatialScale i b)).
Proof.
  intros Hp Ha Hc H0 Hes Hh.
  pose proof (ySplit_between _ _ _ _ Hp Ha Hc Hes) as [Hlo Hhi].
  rewrite Zle_Qle in H0, Hh. change (inject_Z 0) with 0%Q in H0.
  unfold withinRows, drawnOf. cbn [notPresentRect presentRect rectY rectH].
  repeat split; lra.
Qed.

Lemma drawView_Ok {K : Type} `{ScaleKey K} (stats : RenderScaleStatistics)
    (cls : WidgetClass) (heightModel : Z -> Z -> Z -> Z)
    (w : WidgetState) (h : RenderScaleHistogram K) (width height : Z)
    (view : View K) :
  drawView stats cls heightModel w h width height = Ok view ->
  exists t hovered totals bands,
    computeTotals stats h = Ok t
    /\ findHoverSpatialScale stats (heightModel height (maxCount t)) cls h
         (hoverTarget w) = Ok hovered
    /\ chunkTotals stats h t hovered = Ok totals
    /\ drawBars stats (heightModel height (maxCount t)) width h hovered = Ok bands
    /\ legendSpatialScale view = hovered
    /\ legendChunks view = chunksText totals
    /\ legendRenderScale view
       = (formatPixelNumber (probedValue w) ++ " " ++ unitOfTarget cls)%string
    /\ canvasRects view
       = flat_map bandRects bands
           ++ [marker stats width height cls TargetMarker (target w)]
           ++ match hoverTarget w with
              | Some (value, _) => [marker stats width height cls HoverMarker value]
              | None => []
              end.
Proof.
  unfold drawView. intros E. do 4 bind_inv E. injection E as <-.
  exists a, a0, a1, a2. cbn. repeat split; assumption.
Qed.

(** X10: no rectangle of a draw pass leaves the canvas vertically.  With a
    non-negative canvas height and a registry that gives each row to one
    key, every rectangle of the view the widget draws with its own height
    model (the two parts of every band and the markers) has a non-negative
    top, a non-negative height and a bottom not below [height]. *)
Theorem drawView_within_rows {K : Type} `{ScaleKey K}
    (stats : RenderScaleStatistics) (cls : WidgetClass)
    (w : WidgetState) (h : RenderScaleHistogram K) (width height : Z)
    (view : View K)
    (Hheight : 0 <= height)
    (Hregistry : registryBijective h)
    (Hview : drawView stats cls HeightModel.roundedCanvasY w h width height
             = Ok view) :
  Forall (withinRows height) (canvasRects view).
Proof.
  apply drawView_Ok in Hview
    as (t & hovered & totals & bands & Et & _ & _ & Eb & _ & _ & _ & ->).
  apply computeTotals_Ok in Et as (Hmax & _ & _).
  pose proof (maxCount_spec_ge_1 stats h) as Hge. rewrite <- Hmax in Hge.
  set (canvasY := HeightModel.roundedCanvasY height (maxCount t)) in *.
  assert (Hanti : forall a b, 0 <= a <= b -> canvasY b <= canvasY a).
  { intros a b Hab. now apply roundedCanvasY_antitone. }
  assert (Y0 : canvasY 0 = height) by apply roundedCanvasY_zero.
  assert (Ym : canvasY (maxCount t) = 0) by now apply roundedCanvasY_maxCount.
  assert (Hmarker : forall style value,
             withinRows height (marker (K := K) stats width height cls style value)).
  { intros style value. unfold withinRows, marker. cbn [rectY rectH].
    rewrite Zle_Qle in Hheight. change (inject_Z 0) with 0%Q in Hheight.
    repeat split; lra. }
  apply Forall_app. split; [|apply Forall_app; split].
  - apply Forall_flat_map.
    apply (drawBars_Forall stats canvasY width _ h hovered bands); [|exact Eb].
    intros i counts Hi Ec. apply Forall_map, Forall_forall. intros b Hin.
    pose proof (seriesCounts_nonneg stats h i _ _ Ec) as [Hc _].
    pose proof (stackBands_positive canvasY counts 0 Hc) as Hpos.
    pose proof (stackBands_between canvasY counts 0 Hc) as Hbetween.
    rewrite Forall_forall in Hpos, Hbetween.
    destruct (Hpos b Hin) as (Hp & Ha & Hsum).
    destruct (Hbetween b Hin) as (below & above & Es & Ee & H1 & H2 & H3).
    rewrite (seriesCounts_cells stats h i _ _ Ec) in H3.
    rewrite (keyCells_binTotal stats h i Hregistry) in H3.
    pose proof (binTotal_le_maxCount stats h i Hi) as Hle. rewrite <- Hmax in Hle.
    assert (B1 : 0 <= bandEnd b) by (rewrite Ee, <- Ym; apply Hanti; lia).
    assert (B2 : bandEnd b <= bandStart b) by (rewrite Es, Ee; apply Hanti; lia).
    assert (B3 : bandStart b <= height) by (rewrite Es, <- Y0; apply Hanti; lia).
    destruct (drawnOf_rows stats width height hovered i b Hp Ha Hsum B1 B2 B3)
      as [R1 R2].
    unfold bandRects.
    constructor; [exact R1|]. constructor; [exact R2|constructor].
  - constructor; [apply Hmarker|constructor].
  - destruct (hoverTarget w) as [[value y]|]; [|constructor].
    constructor; [apply Hmarker|constructor].
Qed.

Lemma drawView_within_rows_witness :
  let stats := {| numRenderScaleHistogramBins := 2;
                  renderScaleHistogramBinSize := 1;
                  renderScaleHistogramOrigin := 0;
                  getRenderScaleHistogramOffset := fun v _ => v;
                  getRenderScaleFromHistogramOffset := fun v _ => v |} in
  let h := {| value := [1; 0; 3; 0; 2; 5; 0; 1]%N;
              spatialScales := [(9%N, 1%nat); (10%N, 0%nat)];
              visible := true;
              fakeChunkCount := 0 |} in
  let w := {| target := 1; targetDefault := 1; hoverTarget := Some (0, 40)%Q |} in
  exists view,
    drawView stats RenderScaleWidget HeightModel.roundedCanvasY w h 20 100 = Ok view
    /\ Forall (withinRows 100) (canvasRects view).
Proof.
  intros stats h w.
  destruct (drawView_total stats RenderScaleWidget HeightModel.roundedCanvasY
              w h 20 100) as [view E].
  { split; [cbn; lia|]. repeat constructor. }
  exists view. split; [exact E|].
  apply (drawView_within_rows stats RenderScaleWidget w h 20 100 view).
  - lia.
  - split; [repeat constructor; cbn; intuition discriminate|apply perm_swap].
  - exact E.
Defined.

(** ** The edges of a band *)

(** X11: the edges of a band belong to it, and a pixel row shared by two
    bands goes to the lower one.  In a stack of two bands under a
    non-increasing height map, a pointer on the baseline picks the first
    band; a pointer on the row where the two bands meet lies in both and
    picks the first band, the one walked first; a pointer on the top row
    picks the second band when that row is above the meeting row. *)
Theorem findHoverSpatialScale_shared_row {K : Type} `{ScaleKey K}
    (stats : RenderScaleStatistics) (canvasY : Z -> Z) (cls : WidgetClass)
    (h : RenderScaleHistogram K) (value hoverY : Q)
    (counts : list (K * Z * Z)) (b1 b2 : Band K)
    (canvasY_antitone : forall a b, 0 <= a <= b -> canvasY b <= canvasY a)
    (Hbin : 0 <= JS.Math_floor
                   (getRenderScaleHistogramOffset stats value
                      (logScaleOrigin stats cls))
            < Z.of_nat (numRenderScaleHistogramBins stats))
    (Hcounts : seriesCounts stats h
                 (Z.to_nat (JS.Math_floor
                              (getRenderScaleHistogramOffset stats value
                                 (logScaleOrigin stats cls))))
                 (seriesOrder h) = Ok counts)
    (Hbands : stackBands canvasY counts 0 = [b1; b2]) :
  let hovered :=
    findHoverSpatialScale stats canvasY cls h (Some (value, hoverY)) in
  bandStart b2 = bandEnd b1
  /\ ((hoverY == inject_Z (bandStart b1))%Q -> hovered = Ok (Some (bandSeries b1)))
  /\ ((hoverY == inject_Z (bandEnd b1))%Q ->
       bandContains hoverY b1 = true
       /\ bandContains hoverY b2 = true
       /\ hovered = Ok (Some (bandSeries b1)))
  /\ ((hoverY == inject_Z (bandEnd b2))%Q -> bandEnd b2 < bandEnd b1 ->
       hovered = Ok (Some (bandSeries b2))).
Proof.
  intros hovered. subst hovered. unfold findHoverSpatialScale.
  destruct Hbin as [Hlo Hhi].
  apply Z.leb_le in Hlo as E1. apply Z.ltb_lt in Hhi as E2.
  rewrite E1, E2. cbn [andb].
  rewrite (pickSeries_firstBand stats canvasY h _ hoverY _ _ 0 Hcounts), Hbands.
  pose proof (seriesCounts_nonneg stats h _ _ _ Hcounts) as [Hc _].
  destruct (two_bands canvasY canvasY_antitone counts b1 b2 Hc Hbands)
    as (H21 & B1 & B2).
  rewrite Zle_Qle in B1, B2. rewrite H21 in B2.
  split; [exact H21|].
  unfold firstBandAt. cbn [find]. repeat split.
  - intros Hy.
    assert (C1 : bandContains hoverY b1 = true)
      by (apply bandContains_true; lra).
    now rewrite C1.
  - apply bandContains_true. lra.
  - apply bandContains_true. rewrite H21. lra.
  - assert (C1 : bandContains hoverY b1 = true)
      by (apply bandContains_true; lra).
    now rewrite C1.
  - intros Hy Hlt. rewrite Zlt_Qlt in Hlt.
    rewrite (bandContains_false hoverY b1) by lra.
    assert (C2 : bandContains hoverY b2 = true)
      by (apply bandContains_true; rewrite H21; lra).
    now rewrite C2.
Qed.

Lemma findHoverSpatialScale_shared_row_witness :
  let stats := {| numRenderScaleHistogramBins := 2;
                  renderScaleHistogramBinSize := 1;
                  renderScaleHistogramOrigin := 0;
                  getRenderScaleHistogramOffset := fun v _ => v;
                  getRenderScaleFromHistogramOffset := fun v _ => v |} in
  let h := {| value := [1; 0; 0; 0; 2; 1; 0; 0]%N;
              spatialScales := [(9%N, 0%nat); (10%N, 1%nat)];
              visible := true;
              fakeChunkCount := 0 |} in
  let canvasY := HeightModel.roundedCanvasY 100 3 in
  findHoverSpatialScale stats canvasY RenderScaleWidget h (Some (0, 50)%Q)
  = Ok (Some 9%N).
Proof.
  intros stats h canvasY.
  assert (Hanti : forall a b, 0 <= a <= b -> canvasY b <= canvasY a).
  { intros a b Hab. apply roundedCanvasY_antitone; lia. }
  assert (Y1 : canvasY 1 = 50) by apply (roundedCanvasY_half 50).
  set (b1 := {| bandSeries := 9%N; bandPresent := 1; bandNotPresent := 0;
                bandStart := canvasY 0; bandEnd := canvasY 1 |}).
  set (b2 := {| bandSeries := 10%N; bandPresent := 2; bandNotPresent := 0;
                bandStart := canvasY 1; bandEnd := canvasY 3 |}).
  pose proof (findHoverSpatialScale_shared_row stats canvasY RenderScaleWidget h
                0 50 [(9%N, 1, 0); (10%N, 2, 0)] b1 b2 Hanti
                ltac:(cbn; lia) eq_refl eq_refl) as (_ & _ & T & _).
  apply T. cbn [bandEnd b1]. rewrite Y1. reflexivity.
Defined.

(** ** Counters that are all zero *)

Section Zeroed.

Context {K : Type} `{ScaleKey K}.
Variable stats : RenderScaleStatistics.
Variable cls : WidgetClass.
Variable heightModel : Z -> Z -> Z -> Z.

Local Abbreviation bins := (numRenderScaleHistogramBins stats).

Lemma countAt_zeroed (n index : nat) : countAt (repeat 0%N n) index = 0.
Proof.
  unfold countAt. destruct (Nat.lt_ge_cases index n) as [Hlt|Hge].
  - now rewrite nth_repeat_lt.
  - rewrite nth_overflow; [reflexivity|]. now rewrite repeat_length.
Qed.

Lemma sumZ_all_zero {A : Type} (f : A -> Z) (l : list A) :
  (forall a, f a = 0) -> sumZ (map f l) = 0.
Proof.
  intros Hf. induction l as [|a l IH]; [reflexivity|].
  cbn [map]. rewrite sumZ_cons, Hf, IH. reflexivity.
Qed.

Lemma max_all_zero {A : Type} (f : A -> Z) (l : list A) :
  (forall a, f a = 0) -> fold_right Z.max 1 (map f l) = 1.
Proof.
  intros Hf. induction l as [|a l IH]; [reflexivity|].
  cbn [map fold_right]. rewrite Hf, IH. reflexivity.
Qed.

Lemma computeTotals_zeroed (h : RenderScaleHistogram K) (n : nat) (t : Totals) :
  value h = repeat 0%N n ->
  computeTotals stats h = Ok t ->
  maxCount t = 1 /\ totalPresent t = 0 /\ totalNotPresent t = - fakeChunkCount h.
Proof.
  intros Ev Et. apply computeTotals_Ok in Et as (Em & Ep & En).
  rewrite Em, Ep, En.
  unfold maxCount_spec, allPresent, allNotPresent, binTotal, binPresent,
    binNotPresent, presentAt, notPresentAt.
  rewrite Ev. repeat split.
  - apply max_all_zero. intros bin. apply sumZ_all_zero. intros row.
    now rewrite !countAt_zeroed.
  - apply sumZ_all_zero. intros bin. apply sumZ_all_zero. intros row.
    apply countAt_zeroed.
  - assert (E : sumZ (map (fun bin : nat =>
                 sumZ (map (fun row : nat =>
                   countAt (repeat 0%N n) (row * bins * 2 + bin + bins))
                   (seq 0 (numRows h)))) (seq 0 bins)) = 0).
    { apply sumZ_all_zero. intros bin. apply sumZ_all_zero. intros row.
      apply countAt_zeroed. }
    rewrite E. reflexivity.
Qed.

Lemma drawBars_zeroed (canvasY : Z -> Z) (width : Z) (h : RenderScaleHistogram K)
    (n : nat) (hoverSpatialScale : option K) :
  value h = repeat 0%N n -> wellFormed stats h ->
  drawBars stats canvasY width h hoverSpatialScale = Ok [].
Proof.
  intros Ev Hwf. unfold drawBars.
  assert (Hbins : Forall (fun bin => (bin < bins)%nat) (seq 0 bins)).
  { apply Forall_forall. intros bin Hin. apply in_seq in Hin. lia. }
  induction Hbins as [|i binl Hi _ IH]; [reflexivity|].
  cbn [forEach].
  destruct (seriesCounts_total stats h i (seriesOrder h) Hwf Hi) as [counts Ec].
  { intros s. apply seriesOrder_registered. }
  rewrite (drawSeries_of_counts stats canvasY width h _ i _ _ 0 Ec).
  rewrite (stackBands_zeroed canvasY counts 0
             (seriesCounts_zeroed stats h n i _ _ Ev Ec)).
  cbn [map bind app]. exact IH.
Qed.

Lemma findHoverSpatialScale_zeroed (canvasY : Z -> Z) (h : RenderScaleHistogram K)
    (n : nat) (hoverValue : option (Q * Q)) :
  value h = repeat 0%N n -> wellFormed stats h ->
  findHoverSpatialScale stats canvasY cls h hoverValue = Ok None.
Proof.
  intros Ev Hwf. unfold findHoverSpatialScale.
  destruct hoverValue as [[v hoverY]|]; [|reflexivity].
  set (i := JS.Math_floor _).
  destruct (0 <=? i) eqn:E1; [|reflexivity].
  destruct (i <? Z.of_nat bins) eqn:E2; [|reflexivity].
  cbn [andb]. apply Z.leb_le in E1. apply Z.ltb_lt in E2.
  destruct (seriesCounts_total stats h (Z.to_nat i) (seriesOrder h) Hwf)
    as [counts Ec]; [lia| |].
  { intros s. apply seriesOrder_registered. }
  rewrite (pickSeries_firstBand stats canvasY h _ hoverY _ _ 0 Ec).
  rewrite (stackBands_zeroed canvasY counts 0
             (seriesCounts_zeroed stats h n _ _ _ Ev Ec)).
  reflexivity.
Qed.

Lemma drawView_zeroed (w : WidgetState) (h : RenderScaleHistogram K) (n : nat)
    (width height : Z) :
  value h = repeat 0%N n -> wellFormed stats h ->
  drawView stats cls heightModel w h width height
  = Ok (emptyView stats cls w (fakeChunkCount h) width height).
Proof.
  intros Ev Hwf. unfold drawView.
  destruct (computeTotals_total stats h (proj1 Hwf)) as [t Et].
  destruct (computeTotals_zeroed h n t Ev Et) as (Em & Ep & En).
  rewrite Et. cbn [bind].
  rewrite (findHoverSpatialScale_zeroed _ h n _ Ev Hwf). cbn [bind chunkTotals].
  rewrite (drawBars_zeroed _ width h n None Ev Hwf). cbn [bind flat_map app].
  rewrite Ep, En. reflexivity.
Qed.

End Zeroed.

(** X12: a hidden histogram shows nothing of its counters.  Whatever the
    counters held, the pass over a hidden histogram that covers its rows
    draws no bar, hovers no series even with the pointer over the canvas,
    and its legend counts [0] chunks out of [- fakeChunkCount]; the canvas
    holds the markers alone. *)
Theorem updateView_hidden_view {K : Type} `{ScaleKey K}
    (stats : RenderScaleStatistics) (cls : WidgetClass)
    (heightModel : Z -> Z -> Z -> Z) (w : WidgetState)
    (h : RenderScaleHistogram K) (width height : Z)
    (Hhidden : visible h = false)
    (Hwf : wellFormed stats h) :
  snd (updateView stats cls heightModel w h width height)
  = Ok (emptyView stats cls w (fakeChunkCount h) width height).
Proof.
  unfold updateView. cbn [snd].
  change (fakeChunkCount h) with (fakeChunkCount (zeroIfHidden h)).
  apply (drawView_zeroed stats cls heightModel w (zeroIfHidden h)
           (List.length (value h))).
  - now apply zeroIfHidden_hidden.
  - now apply wellFormed_zeroIfHidden.
Qed.

Lemma updateView_hidden_view_witness :
  let stats := {| numRenderScaleHistogramBins := 2;
                  renderScaleHistogramBinSize := 1;
                  renderScaleHistogramOrigin := 0;
                  getRenderScaleHistogramOffset := fun v _ => v;
                  getRenderScaleFromHistogramOffset := fun v _ => v |} in
  let h := {| value := [1; 0; 0; 3]%N;
              spatialScales := [(5%N, 0%nat)];
              visible := false;
              fakeChunkCount := 2 |} in
  let w := {| target := 1; targetDefault := 1; hoverTarget := Some (0, 50)%Q |} in
  snd (updateViewOfWidget stats RenderScaleWidget w h 200 100)
  = Ok (emptyView stats RenderScaleWidget w 2 200 100).
Proof.
  intros stats h w.
  apply (updateView_hidden_view stats RenderScaleWidget
           HeightModel.roundedCanvasY w h 200 100).
  - reflexivity.
  - split; [cbn; lia|]. repeat constructor.
Defined.

(** X13: the zeroing outlives the hidden state.  The histogram a hidden
    pass leaves behind, shown again without new counts, is drawn without a
    write and without a bar: the counts from before it was hidden are
    gone. *)
Theorem updateView_zeroing_persists {K : Type} `{ScaleKey K}
    (stats : RenderScaleStatistics) (cls : WidgetClass)
    (heightModel : Z -> Z -> Z -> Z) (w w' : WidgetState)
    (h : RenderScaleHistogram K) (width height width' height' : Z)
    (Hhidden : visible h = false)
    (Hwf : wellFormed stats h) :
  let left := fst (fst (updateView stats cls heightModel w h width height)) in
  let shown := withVisible left true in
  updateView stats cls heightModel w' shown width' height'
  = (shown, [],
     Ok (emptyView stats cls w' (fakeChunkCount h) width' height')).
Proof.
  intros left shown. unfold updateView.
  assert (Ez : zeroIfHidden shown = shown) by now apply zeroIfHidden_visible.
  rewrite Ez. unfold hiddenWrites at 1. cbn [visible shown withVisible].
  f_equal.
  change (fakeChunkCount h) with (fakeChunkCount shown).
  apply (drawView_zeroed stats cls heightModel w' shown (List.length (value h))).
  - subst shown left. cbn [fst withVisible value updateView].
    now apply zeroIfHidden_hidden.
  - pose proof (wellFormed_zeroIfHidden stats h Hwf) as Hz.
    exact Hz.
Qed.

Lemma updateView_zeroing_persists_witness :
  let stats := {| numRenderScaleHistogramBins := 2;
                  renderScaleHistogramBinSize := 1;
                  renderScaleHistogramOrigin := 0;
                  getRenderScaleHistogramOffset := fun v _ => v;
                  getRenderScaleFromHistogramOffset := fun v _ => v |} in
  let h := {| value := [1; 0; 0; 3]%N;
              spatialScales := [(5%N, 0%nat)];
              visible := false;
              fakeChunkCount := 0 |} in
  let w := {| target := 1; targetDefault := 1; hoverTarget := None |} in
  let shown := {| value := [0; 0; 0; 0]%N;
                  spatialScales := [(5%N, 0%nat)];
                  visible := true;
                  fakeChunkCount := 0 |} in
  updateViewOfWidget stats RenderScaleWidget w shown 200 100
  = (shown, [], Ok (emptyView stats RenderScaleWidget w 0 200 100)).
Proof.
  intros stats h w shown.
  apply (updateView_zeroing_persists stats RenderScaleWidget
           HeightModel.roundedCanvasY w w h 200 100 200 100).
  - reflexivity.
  - split; [cbn; lia|]. repeat constructor.
Defined.

(** X14: a draw pass run again on the histogram it left behind leaves the
    counters as the first pass left them, issues the same writes and gives
    the same view. *)
Theorem updateView_second_pass {K : Type} `{ScaleKey K}
    (stats : RenderScaleStatistics) (cls : WidgetClass)
    (heightModel : Z -> Z -> Z -> Z) (w : WidgetState)
    (h : RenderScaleHistogram K) (width height : Z) :
  updateView stats cls heightModel w
    (fst (fst (updateView stats cls heightModel w h width height))) width height
  = updateView stats cls heightModel w h width height.
Proof.
  unfold updateView. cbn [fst].
  assert (Ez : zeroIfHidden (zeroIfHidden h) = zeroIfHidden h).
  { destruct h as [data registry shown fake]. destruct shown.
    - reflexivity.
    - unfold zeroIfHidden, hiddenWrites, withValue.
      cbn [visible value spatialScales fakeChunkCount fold_left applyWrite].
      f_equal. now rewrite map_map. }
  rewrite Ez. reflexivity.
Qed.

(** ** The view and the registry *)

Lemma forEach_ext {A S : Type} (l : list A) (f g : S -> A -> result S) (s : S) :
  (forall s' a, f s' a = g s' a) -> forEach l f s = forEach l g s.
Proof.
  intros Hfg. revert s. induction l as [|a l IH]; intros s; [reflexivity|].
  cbn [forEach]. rewrite Hfg. destruct (g s a) as [s'|f']; cbn [bind];
    [apply IH|reflexivity].
Qed.

Section Registry.

Context {K : Type} `{ScaleKey K}.
Variable stats : RenderScaleStatistics.
Variable cls : WidgetClass.
Variable heightModel : Z -> Z -> Z -> Z.

Local Abbreviation bins := (numRenderScaleHistogramBins stats).

Lemma Map_get_Ok_In (m : list (K * nat)) (spatialScale : K) (row : nat) :
  Map_get m spatialScale = Ok row -> In (spatialScale, row) m.
Proof.
  induction m as [|[k r] m IH]; cbn [Map_get]; [discriminate|].
  destruct (key_eqb k spatialScale) eqn:E.
  - apply key_eqb_eq in E. subst k. intros [= ->]. now left.
  - intros Hm. right. now apply IH.
Qed.

Lemma Map_get_Fault (m : list (K * nat)) (spatialScale : K) (f : fault) :
  Map_get m spatialScale = Fault f ->
  f = MissingRow /\ ~ In spatialScale (map fst m).
Proof.
  induction m as [|[k r] m IH]; cbn [Map_get map fst].
  - intros [= <-]. split; [reflexivity|intros []].
  - destruct (key_eqb k spatialScale) eqn:E; [discriminate|].
    intros Hm. destruct (IH Hm) as [-> Hnotin]. split; [reflexivity|].
    intros [->|Hin]; [|now apply Hnotin].
    assert (Et : key_eqb spatialScale spatialScale = true) by now apply key_eqb_eq.
    congruence.
Qed.

(** A lookup does not depend on the order in which the keys were
    registered. *)
Lemma Map_get_perm (m1 m2 : list (K * nat)) (spatialScale : K) :
  NoDup (map fst m1) -> Permutation m1 m2 ->
  Map_get m1 spatialScale = Map_get m2 spatialScale.
Proof.
  intros Hnd Hp.
  assert (Hnd2 : NoDup (map fst m2)).
  { apply (Permutation_NoDup (Permutation_map fst Hp) Hnd). }
  destruct (Map_get m1 spatialScale) as [row|f] eqn:E1.
  - apply Map_get_Ok_In in E1. symmetry. apply Map_get_NoDup; [exact Hnd2|].
    now apply (Permutation_in _ Hp).
  - apply Map_get_Fault in E1 as [-> Hnotin].
    destruct (Map_get m2 spatialScale) as [row|f] eqn:E2.
    + apply Map_get_Ok_In in E2. exfalso. apply Hnotin.
      apply (Permutation_in _ (Permutation_sym Hp)) in E2.
      apply (in_map fst) in E2. exact E2.
    + apply Map_get_Fault in E2 as [-> _]. reflexivity.
Qed.

Section Agree.

Variables h1 h2 : RenderScaleHistogram K.
Hypothesis same_value : value h1 = value h2.
Hypothesis same_fake : fakeChunkCount h1 = fakeChunkCount h2.
Hypothesis same_rows : numRows h1 = numRows h2.
Hypothesis same_order : seriesOrder h1 = seriesOrder h2.
Hypothesis same_lookup :
  forall spatialScale,
    Map_get (spatialScales h1) spatialScale = Map_get (spatialScales h2) spatialScale.

Lemma computeTotals_agree : computeTotals stats h1 = computeTotals stats h2.
Proof.
  unfold computeTotals.
  rewrite (forEach_ext _ (binBody stats h1) (binBody stats h2)).
  - now rewrite same_fake.
  - intros [[m tp] tnp] bin. unfold binBody. now rewrite same_value, same_rows.
Qed.

Lemma pickSeries_agree (canvasY : Z -> Z) (i : nat) (hoverY : Q)
    (series : list K) (sum : Z) :
  pickSeries stats canvasY h1 i hoverY series sum
  = pickSeries stats canvasY h2 i hoverY series sum.
Proof.
  revert sum. induction series as [|k rest IH]; intros sum; [reflexivity|].
  cbn [pickSeries]. rewrite same_lookup, same_value.
  destruct (Map_get (spatialScales h2) k) as [row|]; cbn [bind]; [|reflexivity].
  destruct (readCount (value h2) (2 * row * bins + i)) as [p|]; cbn [bind];
    [|reflexivity].
  destruct (readCount (value h2) (2 * row * bins + i + bins)) as [a|]; cbn [bind];
    [|reflexivity].
  destruct (p + a =? 0); [apply IH|].
  destruct (_ && _); [reflexivity|apply IH].
Qed.

Lemma drawSeries_agree (canvasY : Z -> Z) (width : Z) (hoverSpatialScale : option K)
    (i : nat) (series : list K) (sum : Z) :
  drawSeries stats canvasY width h1 hoverSpatialScale i series sum
  = drawSeries stats canvasY width h2 hoverSpatialScale i series sum.
Proof.
  revert sum. induction series as [|k rest IH]; intros sum; [reflexivity|].
  cbn [drawSeries]. rewrite same_lookup, same_value.
  destruct (Map_get (spatialScales h2) k) as [row|]; cbn [bind]; [|reflexivity].
  destruct (readCount (value h2) (row * bins * 2 + i)) as [p|]; cbn [bind];
    [|reflexivity].
  destruct (readCount (value h2) (row * bins * 2 + i + bins)) as [a|]; cbn [bind];
    [|reflexivity].
  destruct (p + a =? 0); [apply IH|].
  destruct (fillBand _ _ _ _ _ _ _ _) as [band|]; cbn [bind]; [|reflexivity].
  now rewrite IH.
Qed.

Lemma drawView_agree (w : WidgetState) (width height : Z) :
  drawView stats cls heightModel w h1 width height
  = drawView stats cls heightModel w h2 width height.
Proof.
  unfold drawView. rewrite computeTotals_agree.
  destruct (computeTotals stats h2) as [t|]; cbn [bind]; [|reflexivity].
  assert (Eh : findHoverSpatialScale stats (heightModel height (maxCount t)) cls h1
                 (hoverTarget w)
               = findHoverSpatialScale stats (heightModel height (maxCount t)) cls h2
                   (hoverTarget w)).
  { unfold findHoverSpatialScale. destruct (hoverTarget w) as [[v y]|];
      [|reflexivity].
    destruct (_ && _); [|reflexivity].
    rewrite same_order. apply pickSeries_agree. }
  rewrite Eh.
  destruct (findHoverSpatialScale _ _ _ h2 _) as [hovered|]; cbn [bind];
    [|reflexivity].
  assert (Ec : chunkTotals stats h1 t hovered = chunkTotals stats h2 t hovered).
  { destruct hovered as [k|]; cbn [chunkTotals]; [|reflexivity].
    now rewrite same_lookup, same_value. }
  rewrite Ec.
  destruct (chunkTotals stats h2 t hovered) as [totals|]; cbn [bind];
    [|reflexivity].
  assert (Eb : drawBars stats (heightModel height (maxCount t)) width h1 hovered
               = drawBars stats (heightModel height (maxCount t)) width h2 hovered).
  { unfold drawBars. apply forEach_ext. intros drawn i.
    now rewrite same_order, drawSeries_agree. }
  now rewrite Eb.
Qed.

End Agree.

Lemma pickSeries_Some (canvasY : Z -> Z) (h : RenderScaleHistogram K) (i : nat)
    (hoverY : Q) (series : list K) (sum : Z) (spatialScale : K) :
  pickSeries stats canvasY h i hoverY series sum = Ok (Some spatialScale) ->
  In spatialScale series
  /\ In spatialScale (map fst (spatialScales h))
  /\ 0 < keyCell stats h i spatialScale.
Proof.
  revert sum. induction series as [|k rest IH]; intros sum; [discriminate|].
  cbn [pickSeries]. intros E. do 3 bind_inv E.
  assert (Hrest : In spatialScale rest
                  /\ In spatialScale (map fst (spatialScales h))
                  /\ 0 < keyCell stats h i spatialScale ->
                  In spatialScale (k :: rest)
                  /\ In spatialScale (map fst (spatialScales h))
                  /\ 0 < keyCell stats h i spatialScale).
  { intros (I1 & I2 & I3). repeat split; [now right|assumption|assumption]. }
  destruct (a0 + a1 =? 0) eqn:Ez; [apply Hrest; now apply (IH sum)|].
  destruct (_ && _); [|apply Hrest; now apply (IH (sum + (a0 + a1)))].
  injection E as <-. apply Z.eqb_neq in Ez.
  pose proof (Map_get_Ok_In _ _ _ E0) as Hin.
  repeat split.
  - now left.
  - apply (in_map fst) in Hin. exact Hin.
  - unfold keyCell, presentAt, notPresentAt. rewrite E0.
    apply readCount_Ok in E1 as [E1 P1]. apply readCount_Ok in E2 as [E2 P2].
    replace (a * bins * 2 + i)%nat with (2 * a * bins + i)%nat by lia.
    lia.
Qed.

End Registry.

(** X15: the view does not depend on the order in which the spatial scales
    were registered.  Two histograms with the same counters and the same
    registry entries, entered in any order, each key once, give the same
    view, and fail on the same inputs. *)
Theorem drawView_registration_order {K : Type} `{ScaleKey K}
    (stats : RenderScaleStatistics) (cls : WidgetClass)
    (heightModel : Z -> Z -> Z -> Z) (w : WidgetState)
    (h1 h2 : RenderScaleHistogram K) (width height : Z)
    (Hvalue : value h1 = value h2)
    (Hfake : fakeChunkCount h1 = fakeChunkCount h2)
    (Hunique : NoDup (map fst (spatialScales h1)))
    (Hperm : Permutation (spatialScales h1) (spatialScales h2)) :
  drawView stats cls heightModel w h1 width height
  = drawView stats cls heightModel w h2 width height.
Proof.
  apply drawView_agree; try assumption.
  - unfold numRows. now apply Permutation_length.
  - apply seriesOrder_registration_invariant. now apply Permutation_map.
  - intros k. now apply Map_get_perm.
Qed.

Lemma drawView_registration_order_witness :
  let stats := {| numRenderScaleHistogramBins := 1;
                  renderScaleHistogramBinSize := 1;
                  renderScaleHistogramOrigin := 0;
                  getRenderScaleHistogramOffset := fun v _ => v;
                  getRenderScaleFromHistogramOffset := fun v _ => v |} in
  let h1 := {| value := [1; 0; 2; 1]%N;
               spatialScales := [(9%N, 0%nat); (10%N, 1%nat)];
               visible := true;
               fakeChunkCount := 0 |} in
  let h2 := {| value := [1; 0; 2; 1]%N;
               spatialScales := [(10%N, 1%nat); (9%N, 0%nat)];
               visible := true;
               fakeChunkCount := 0 |} in
  let w := {| target := 1; targetDefault := 1; hoverTarget := None |} in
  drawView stats RenderScaleWidget HeightModel.roundedCanvasY w h1 200 100
  = drawView stats RenderScaleWidget HeightModel.roundedCanvasY w h2 200 100.
Proof.
  intros stats h1 h2 w.
  apply (drawView_registration_order stats RenderScaleWidget
           HeightModel.roundedCanvasY w h1 h2 200 100).
  - reflexivity.
  - reflexivity.
  - cbn. repeat constructor; cbn; intuition discriminate.
  - apply perm_swap.
Defined.

(** X16: a series is hovered only where it has chunks.  When the legend of
    a view names a spatial scale, the pointer is over the canvas, the bin it
    probes is one of the histogram's bins, the scale is registered, and
    the series of that scale has a count above zero in that bin. *)
Theorem drawView_hovered_series_has_chunks {K : Type} `{ScaleKey K}
    (stats : RenderScaleStatistics) (cls : WidgetClass)
    (heightModel : Z -> Z -> Z -> Z) (w : WidgetState)
    (h : RenderScaleHistogram K) (width height : Z)
    (view : View K) (spatialScale : K)
    (Hview : drawView stats cls heightModel w h width height = Ok view)
    (Hlegend : legendSpatialScale view = Some spatialScale) :
  exists value hoverY,
    hoverTarget w = Some (value, hoverY)
    /\ let i := JS.Math_floor
                  (getRenderScaleHistogramOffset stats value
                     (logScaleOrigin stats cls)) in
       0 <= i < Z.of_nat (numRenderScaleHistogramBins stats)
       /\ In spatialScale (map fst (spatialScales h))
       /\ 0 < keyCell stats h (Z.to_nat i) spatialScale.
Proof.
  apply drawView_Ok in Hview
    as (t & hovered & totals & bands & _ & Eh & _ & _ & El & _).
  rewrite El in Hlegend. subst hovered.
  unfold findHoverSpatialScale in Eh. rewrite ?Hlegend in Eh.
  destruct (hoverTarget w) as [[v y]|]; [|discriminate].
  exists v, y. split; [reflexivity|]. cbv zeta.
  destruct (0 <=? _) eqn:E1; [|discriminate].
  destruct (_ <? _) eqn:E2; [|discriminate].
  cbn [andb] in Eh. apply Z.leb_le in E1. apply Z.ltb_lt in E2.
  apply pickSeries_Some in Eh as (_ & I2 & I3).
  repeat split; assumption.
Qed.

Lemma drawView_hovered_series_has_chunks_witness :
  let stats := {| numRenderScaleHistogramBins := 1;
                  renderScaleHistogramBinSize := 1;
                  renderScaleHistogramOrigin := 0;
                  getRenderScaleHistogramOffset := fun v _ => v;
                  getRenderScaleFromHistogramOffset := fun v _ => v |} in
  let h := {| value := [1; 3]%N;
              spatialScales := [(5%N, 0%nat)];
              visible := true;
              fakeChunkCount := 2 |} in
  let w := {| target := 1; targetDefault := 1; hoverTarget := Some (0, 50)%Q |} in
  exists value hoverY,
    hoverTarget w = Some (value, hoverY)
    /\ let i := JS.Math_floor (getRenderScaleHistogramOffset stats value
                                 (logScaleOrigin stats RenderScaleWidget)) in
       0 <= i < 1
       /\ In 5%N (map fst (spatialScales h))
       /\ 0 < keyCell stats h (Z.to_nat i) 5%N.
Proof.
  intros stats h w.
  assert (Y0 : HeightModel.roundedCanvasY 100 4 0 = 100)
    by (apply roundedCanvasY_zero; lia).
  assert (Y4 : HeightModel.roundedCanvasY 100 4 4 = 0)
    by (apply roundedCanvasY_maxCount; lia).
  assert (E : exists view,
             drawView stats RenderScaleWidget HeightModel.roundedCanvasY w h 200 100
             = Ok view
             /\ legendSpatialScale view = Some 5%N).
  { unfold drawView. cbn -[HeightModel.roundedCanvasY].
    rewrite Y0, Y4. cbn. eexists. split; reflexivity. }
  destruct E as (view & Ev & El).
  exact (drawView_hovered_series_has_chunks stats RenderScaleWidget
           HeightModel.roundedCanvasY w h 200 100 view 5%N Ev El).
Defined.

(** X17: what the legend counts.  With no series hovered the legend of a
    view shows the present chunks of the whole histogram out of all its
    chunks less the fake ones; with a series hovered it shows the present
    chunks of the row of that series out of all the chunks of that row. *)
Theorem drawView_legend_counts {K : Type} `{ScaleKey K}
    (stats : RenderScaleStatistics) (cls : WidgetClass)
    (heightModel : Z -> Z -> Z -> Z) (w : WidgetState)
    (h : RenderScaleHistogram K) (width height : Z) (view : View K)
    (Hview : drawView stats cls heightModel w h width height = Ok view) :
  match legendSpatialScale view with
  | None =>
      legendChunks view
      = chunksText (allPresent stats h, allNotPresent stats h - fakeChunkCount h)
  | Some spatialScale =>
      exists row,
        Map_get (spatialScales h) spatialScale = Ok row
        /\ legendChunks view
           = chunksText (rowPresent stats h row, rowNotPresent stats h row)
  end.
Proof.
  apply drawView_Ok in Hview
    as (t & hovered & totals & bands & Et & _ & Ec & _ & El & Etext & _).
  rewrite El, Etext.
  pose proof (chunkTotals_Ok stats h t hovered totals Et Ec) as Hc.
  destruct hovered as [k|].
  - destruct Hc as (row & Er & ->). now exists row.
  - now rewrite Hc.
Qed.

Lemma drawView_legend_counts_witness :
  let stats := {| numRenderScaleHistogramBins := 1;
                  renderScaleHistogramBinSize := 1;
                  renderScaleHistogramOrigin := 0;
                  getRenderScaleHistogramOffset := fun v _ => v;
                  getRenderScaleFromHistogramOffset := fun v _ => v |} in
  let h := {| value := [1; 3]%N;
              spatialScales := [(5%N, 0%nat)];
              visible := true;
              fakeChunkCount := 2 |} in
  let w := {| target := 1; targetDefault := 1; hoverTarget := None |} in
  chunksText (allPresent stats h, allNotPresent stats h - fakeChunkCount h)
  = "1/2"%string.
Proof.
  intros stats h w.
  pose proof (drawView_legend_counts stats RenderScaleWidget
                HeightModel.roundedCanvasY w h 200 100 _ eq_refl) as T.
  cbn [legendSpatialScale] in T. rewrite <- T. reflexivity.
Defined.

(** ** A histogram without series *)

(** X18: with no spatial scale registered the draw pass reads no counter
    and cannot fail.  Whatever the counter array holds, and however short
    it is, the view is the empty one: no bar, no hovered series, [0] chunks
    out of [- fakeChunkCount], and the markers. *)
Theorem drawView_empty_registry {K : Type} `{ScaleKey K}
    (stats : RenderScaleStatistics) (cls : WidgetClass)
    (heightModel : Z -> Z -> Z -> Z) (w : WidgetState)
    (h : RenderScaleHistogram K) (width height : Z)
    (Hempty : spatialScales h = []) :
  drawView stats cls heightModel w h width height
  = Ok (emptyView stats cls w (fakeChunkCount h) width height).
Proof.
  assert (Hn : numRows h = 0%nat) by (unfold numRows; now rewrite Hempty).
  assert (Hs : seriesOrder h = []).
  { unfold seriesOrder, sortedSpatialScales. now rewrite Hempty. }
  unfold drawView.
  destruct (computeTotals_total stats h) as [t Et]; [rewrite Hn; lia|].
  rewrite Et. cbn [bind].
  apply computeTotals_Ok in Et as (Em & Ep & En).
  assert (Em1 : maxCount t = 1).
  { rewrite Em. unfold maxCount_spec, binTotal. rewrite Hn. cbn [seq map].
    now apply max_all_zero. }
  assert (Ep0 : totalPresent t = 0).
  { rewrite Ep. unfold allPresent, binPresent. rewrite Hn. cbn [seq map].
    now apply sumZ_all_zero. }
  assert (En0 : totalNotPresent t = - fakeChunkCount h).
  { rewrite En. unfold allNotPresent, binNotPresent. rewrite Hn. cbn [seq map].
    rewrite sumZ_all_zero; [reflexivity|now intros]. }
  assert (Eh : findHoverSpatialScale stats (heightModel height (maxCount t)) cls h
                 (hoverTarget w) = Ok None).
  { unfold findHoverSpatialScale. rewrite Hs.
    destruct (hoverTarget w) as [[v y]|]; [|reflexivity].
    now destruct (_ && _). }
  rewrite Eh. cbn [bind chunkTotals].
  assert (Eb : drawBars stats (heightModel height (maxCount t)) width h None
               = Ok []).
  { unfold drawBars. rewrite Hs.
    induction (seq 0 (numRenderScaleHistogramBins stats)) as [|i l IH];
      [reflexivity|].
    cbn [forEach drawSeries bind app]. exact IH. }
  rewrite Eb. cbn [bind flat_map app].
  rewrite Ep0, En0. reflexivity.
Qed.

Lemma drawView_empty_registry_witness :
  let stats := {| numRenderScaleHistogramBins := 4;
                  renderScaleHistogramBinSize := 1;
                  renderScaleHistogramOrigin := 0;
                  getRenderScaleHistogramOffset := fun v _ => v;
                  getRenderScaleFromHistogramOffset := fun v _ => v |} in
  let h := {| value := [7]%N;
              spatialScales := @nil (N * nat);
              visible := true;
              fakeChunkCount := 0 |} in
  let w := {| target := 1; targetDefault := 1; hoverTarget := Some (2, 10)%Q |} in
  drawView stats RenderScaleWidget HeightModel.roundedCanvasY w h 200 100
  = Ok (emptyView stats RenderScaleWidget w 0 200 100).
Proof.
  intros stats h w.
  apply (drawView_empty_registry stats RenderScaleWidget
           HeightModel.roundedCanvasY w h 200 100).
  reflexivity.
Defined.

(** ** The exponent form of [formatPixelNumber] *)





